(** * Hierarchical timing wheel (ttimer.c): shallow embedding and properties

    The development follows src/ttimer.c function by function.

    - Integers.  [time_t] values (timeouts, [remaining], [lastrun]) are
      signed and their overflow is undefined in C; they are modelled as
      exact [Z].  [unsigned] values ([hand], [r], [multiplier]) wrap
      modulo 2^32, which is written out with [u32].
    - Memory.  A [ttimer_ref_t] lives in caller-owned memory; the wheel
      only holds pointers to it.  A pointer is a [ref_id] and the caller
      memory is a store [ref_id -> ttimer_ref_t].  The buckets hold the
      [ref_id]s in list order (LIST_INSERT_HEAD pushes at the front).
    - Failure.  An out-of-bounds access to the flexible array [wheel[]]
      and a failed ASSERT are faults; loops that the C code does not
      obviously bound take fuel, and running out of it is a third fault.
    - Callbacks are opaque: invoking one is recorded as an event and
      leaves the wheel and the store as they are. *)

From Stdlib Require Import ZArith Lia List.
From Equations Require Import Equations.
From stdpp Require Import base tactics option list functions gmap fin_maps.

Local Open Scope Z_scope.

(** ** Constants and macros *)

Definition WHEEL_BUCKETS : Z := 256.
Definition WHEEL_MAX_LEVELS : nat := 3.
Definition DIV_BY_BUCKETS (x : Z) : Z := Z.shiftr x 8.
Definition MOD_BY_BUCKETS (x : Z) : Z := Z.land x 255.

(** Wrap-around of [unsigned] arithmetic. *)
Definition u32 (x : Z) : Z := x mod 2 ^ 32.

(** ** Data *)

Abbreviation ref_id := nat (only parsing).

Record ttimer_ref_t := mk_ref {
  remaining : Z;
  func : option Z;          (* NULL, or the address of the handler *)
  arg : Z;
  scheduled : bool
}.

Record twheel_t := mk_wheel {
  hand : Z;
  bucket : gmap Z (list ref_id)   (* bucket[WHEEL_BUCKETS]; absent = empty list *)
}.

Record ttimer_t := mk_timer {
  levels : nat;
  lastrun : Z;
  wheel : list twheel_t           (* the flexible array member wheel[] *)
}.

Abbreviation store := (ref_id -> ttimer_ref_t) (only parsing).

Record state := mk_state {
  tm : ttimer_t;
  mem : store
}.

(** What a run can be observed to do.  [EvFire] is the call
    [ent->func(ent, ent->arg)].  [EvVisit] and [EvRequeue] are
    instrumentation: the first marks that [ttimer_tick] reached its label
    [next] for [wheel[level]] and bucket [n]; the second that the drain of
    bucket [cn] of level [cl] re-scheduled [ent], whose remaining time was
    [old], into bucket [r] of level [lv] with remaining time [new]. *)
Inductive event :=
| EvVisit (level : nat) (n : Z)
| EvRequeue (cl : nat) (cn : Z) (ent : ref_id) (old : Z) (lv : nat) (r : Z) (new : Z)
| EvFire (ent : ref_id) (fn : Z) (a : Z).

Inductive fault := OutOfBounds | AssertFailed | OutOfFuel.

Inductive res (A : Type) :=
| Ok (a : A)
| Err (f : fault).
Arguments Ok {A} a.
Arguments Err {A} f.

#[global] Instance res_ret : MRet res := @Ok.
#[global] Instance res_bind : MBind res := fun A B k m =>
  match m with
  | Ok a => k a
  | Err f => Err f
  end.

#[global] Instance res_fmap : FMap res := fun A B f m =>
  match m with
  | Ok a => Ok (f a)
  | Err e => Err e
  end.

(** Modelled from the spec: the macro ASSERT of utils.h, which is not among
    the sources.  Sections 4.3 and 7 of the specification say that a
    precondition violation fails fast, so a failed assertion ends the run
    with a fault.  (MIN, of the same header, is the minimum; the hints
    __predict_false and __predict_true do not change a value.) *)
Definition ASSERT (b : bool) : res unit :=
  if b then Ok tt else Err AssertFailed.

(** ** State accessors *)

Definition bucket_get (w : twheel_t) (n : Z) : list ref_id :=
  default [] (bucket w !! n).

Definition set_lastrun (now : Z) (st : state) : state :=
  mk_state (mk_timer (levels (tm st)) now (wheel (tm st))) (mem st).

Definition set_wheel (ws : list twheel_t) (st : state) : state :=
  mk_state (mk_timer (levels (tm st)) (lastrun (tm st)) ws) (mem st).

Definition set_ref (ent : ref_id) (v : ttimer_ref_t) (st : state) : state :=
  mk_state (tm st) (<[ent := v]> (mem st)).

Definition set_hand (level : nat) (n : Z) (st : state) : state :=
  set_wheel (alter (fun w => mk_wheel n (bucket w)) level (wheel (tm st))) st.

(** LIST_REMOVE(ent, entry): [ent] leaves the list it is linked into.  An
    intrusive entry is on one list at most, so taking [ent] out of every
    bucket is the same operation. *)
Definition unlink_wheel (ent : ref_id) (w : twheel_t) : twheel_t :=
  mk_wheel (hand w) (filter (fun x => x ≠ ent) <$> bucket w).

Definition LIST_REMOVE (ent : ref_id) (st : state) : state :=
  set_wheel (unlink_wheel ent <$> wheel (tm st)) st.

(** LIST_INSERT_HEAD(&wheel[level].bucket[r], ent, entry) *)
Definition LIST_INSERT_HEAD (level : nat) (r : Z) (ent : ref_id) (st : state) : state :=
  set_wheel
    (alter (fun w => mk_wheel (hand w) (<[r := ent :: bucket_get w r]> (bucket w)))
           level (wheel (tm st))) st.

(** ** ttimer_create *)

(** The loop [while (maxtimeout > 0) { maxtimeout >>= 8; levels++; }].
    It terminates because the bit length of [maxtimeout] goes down. *)
Definition bit_length (x : Z) : nat := Z.to_nat (Z.log2 (2 * x)).

Equations? count_levels (maxtimeout : Z) (lv : nat) : nat
  by wf (bit_length maxtimeout) lt :=
count_levels maxtimeout lv with decide (0 < maxtimeout) := {
  | left _ => count_levels (DIV_BY_BUCKETS maxtimeout) (S lv)
  | right _ => lv }.
Proof.
  unfold bit_length, DIV_BY_BUCKETS.
  rewrite Z.shiftr_div_pow2 by lia. change (2 ^ 8) with 256.
  assert (Hq : 0 <= maxtimeout / 256) by (apply Z.div_pos; lia).
  assert (Hle : 256 * (maxtimeout / 256) <= maxtimeout)
    by (apply Z.mul_div_le; lia).
  assert (Ha : 0 < Z.log2 (2 * maxtimeout)) by (apply Z.log2_pos; lia).
  destruct (Z.eq_dec (maxtimeout / 256) 0) as [-> | Hne].
  - change (Z.log2 (2 * 0)) with 0. lia.
  - assert (Z.log2 (2 * (maxtimeout / 256)) < Z.log2 (2 * maxtimeout)).
    { apply Z.log2_lt_pow2; [lia |].
      pose proof (Z.log2_spec (2 * maxtimeout) ltac:(lia)) as [_ Hhi].
      rewrite Z.pow_succ_r in Hhi by lia. lia. }
    pose proof (Z.log2_nonneg (2 * (maxtimeout / 256))). lia.
Qed.

Definition create_levels (maxtimeout : Z) : nat :=
  let lv := count_levels maxtimeout 0 in
  match lv with
  | O => WHEEL_MAX_LEVELS
  | _ => Nat.min lv WHEEL_MAX_LEVELS
  end.

(** [calloc_ok] says whether the allocation succeeds; calloc zeroes the
    hands and the bucket heads. *)
Definition ttimer_create (calloc_ok : bool) (maxtimeout now : Z) : option ttimer_t :=
  let lv := create_levels maxtimeout in
  if calloc_ok
  then Some (mk_timer lv now (replicate lv (mk_wheel 0 ∅)))
  else None.

(** ** ttimer_setfunc *)

Definition ttimer_setfunc (st : state) (ent : ref_id) (handler : option Z) (a : Z) : state :=
  set_ref ent (mk_ref (remaining (mem st ent)) handler a false) st.

(** ** ttimer_start *)

(** The walk from the label [next] to the end of the [if]: it returns the
    level and bucket to insert into and the value left in
    [ent->remaining].  [k] bounds the number of [goto next]; each one
    needs [level < WHEEL_MAX_LEVELS] after an increment, so
    [WHEEL_MAX_LEVELS] is enough. *)
Fixpoint start_walk (k : nat) (t : ttimer_t) (level : nat)
    (timeout rem multiplier : Z) : res (nat * Z * Z) :=
  match wheel t !! level with
  | None => Err OutOfBounds
  | Some w =>
      let r := MOD_BY_BUCKETS (hand w + timeout) in
      let timeout := DIV_BY_BUCKETS (hand w + timeout) in
      if 0 <? timeout then
        let rem := rem + u32 (r * multiplier) in
        let multiplier := u32 (multiplier * WHEEL_BUCKETS) in
        let level := S level in
        if (level <? WHEEL_MAX_LEVELS)%nat then
          match k with
          | O => Err OutOfFuel
          | S k' => start_walk k' t level timeout rem multiplier
          end
        else
          Ok ((level - 1)%nat, r, rem + multiplier * (timeout - 1))
      else Ok (level, r, rem)
  end.

Definition start_place (t : ttimer_t) (timeout : Z) : res (nat * Z * Z) :=
  start_walk WHEEL_MAX_LEVELS t 0 timeout 0 1.

Definition ttimer_start (st : state) (ent : ref_id) (timeout : Z) : res state :=
  _ ← ASSERT (0 <? timeout);
  _ ← ASSERT (negb (scheduled (mem st ent)));
  _ ← ASSERT (bool_decide (func (mem st ent) ≠ None));
  '(level, r, rem) ← start_place (tm st) timeout;
  _ ← match wheel (tm st) !! level with Some _ => Ok tt | None => Err OutOfBounds end;
  let e := mem st ent in
  Ok (set_ref ent (mk_ref rem (func e) (arg e) true)
        (LIST_INSERT_HEAD level r ent st)).

(** ** ttimer_stop *)

Definition ttimer_stop (st : state) (ent : ref_id) : bool * state :=
  let stop := scheduled (mem st ent) in
  if stop then
    let e := mem st ent in
    (stop, set_ref ent (mk_ref (remaining e) (func e) (arg e) false)
             (LIST_REMOVE ent st))
  else (stop, st).

(** ** ttimer_tick *)

(** One iteration of the [while] loop, for the first entry [ent] of the
    bucket [n] of [wheel[level]]. *)
Definition drain_step (level : nat) (n : Z) (ent : ref_id) (st : state)
    : res (state * event) :=
  let e := mem st ent in
  let rem := remaining e in
  _ ← ASSERT (scheduled e);
  let st1 := set_ref ent (mk_ref (remaining e) (func e) (arg e) false)
               (LIST_REMOVE ent st) in
  if negb (rem =? 0) then
    st2 ← ttimer_start st1 ent rem;
    '(lv, r, new) ← start_place (tm st1) rem;
    Ok (st2, EvRequeue level n ent rem lv r new)
  else
    match func e with
    | None => Err AssertFailed
    | Some fn => Ok (st1, EvFire ent fn (arg e))
    end.

(** The [while ((ent = LIST_FIRST(&wheel->bucket[n])) != NULL)] loop. *)
Fixpoint drain (fuel : nat) (level : nat) (n : Z) (st : state)
    : res (state * list event) :=
  match wheel (tm st) !! level with
  | None => Err OutOfBounds
  | Some w =>
      match bucket_get w n with
      | [] => Ok (st, [])
      | ent :: _ =>
          match fuel with
          | O => Err OutOfFuel
          | S fuel' =>
              '(st1, ev) ← drain_step level n ent st;
              '(st2, evs) ← drain fuel' level n st1;
              Ok (st2, ev :: evs)
          end
      end
  end.

(** From the label [next] on.  [k] bounds the number of [goto next]; each
    one needs [++level < timer->levels], so [levels] is enough. *)
Fixpoint tick_from (k : nat) (fuel : nat) (level : nat) (st : state)
    : res (state * list event) :=
  match wheel (tm st) !! level with
  | None => Err OutOfBounds
  | Some w =>
      let n := MOD_BY_BUCKETS (u32 (hand w + 1)) in
      '(st1, evs) ← drain fuel level n st;
      let st2 := set_hand level n st1 in
      if (n =? 0) && (S level <? levels (tm st2))%nat then
        match k with
        | O => Err OutOfFuel
        | S k' =>
            '(st3, evs') ← tick_from k' fuel (S level) st2;
            Ok (st3, EvVisit level n :: evs ++ evs')
        end
      else Ok (st2, EvVisit level n :: evs)
  end.

Definition ttimer_tick (fuel : nat) (st : state) : res (state * list event) :=
  tick_from (levels (tm st)) fuel 0 st.

(** [k] calls of [ttimer_tick] in sequence, with the events of each. *)
Fixpoint ticks (fuel : nat) (k : nat) (st : state) : res (state * list (list event)) :=
  match k with
  | O => Ok (st, [])
  | S k' =>
      '(st1, evs) ← ttimer_tick fuel st;
      '(st2, rest) ← ticks fuel k' st1;
      Ok (st2, evs :: rest)
  end.

(** ** ttimer_run_ticks *)

(** The loop [while (timer->lastrun < now)]: it runs [now - lastrun]
    times, which is what [k] is started at. *)
Fixpoint run_loop (k : nat) (fuel : nat) (now : Z) (st : state)
    : res (state * list event) :=
  if lastrun (tm st) <? now then
    match k with
    | O => Err OutOfFuel
    | S k' =>
        '(st1, evs) ← ttimer_tick fuel st;
        '(st2, evs') ← run_loop k' fuel now (set_lastrun (lastrun (tm st1) + 1) st1);
        Ok (st2, evs ++ evs')
    end
  else Ok (st, []).

Definition ttimer_run_ticks (fuel : nat) (st : state) (now : Z)
    : res (state * list event) :=
  '(st1, evs) ← run_loop (Z.to_nat (now - lastrun (tm st))) fuel now st;
  Ok (set_lastrun now st1, evs).

(** ** The sizing policy as the specification words it *)

(** ceil(log_256 m): the least [k] with [m <= 256^k]. *)
Definition ceil_log256 (m : Z) : Z := (Z.log2_up m + 7) / 8.

(** ceil(log_256 m) clamped to [1, MAX_LEVELS]. *)
Definition spec_levels (m : Z) : nat :=
  Z.to_nat (Z.max 1 (Z.min (ceil_log256 m) (Z.of_nat WHEEL_MAX_LEVELS))).

(** ** Auxiliary definitions for the statements *)

(** The same result, with [lastrun] overwritten in the final state. *)
Definition lift_lastrun {A} (x : Z) (m : res (state * A)) : res (state * A) :=
  '(s, a) ← m; Ok (set_lastrun x s, a).

(** [ent] is on the list of bucket [n] of [wheel[level]]. *)
Definition linked (st : state) (ent : ref_id) (level : nat) (n : Z) : Prop :=
  exists w, wheel (tm st) !! level = Some w /\ ent ∈ bucket_get w n.

(** The linkage invariant: no reference is twice on a list, none is on two
    lists, and [scheduled] says whether the reference is on a list. *)
Definition links_ok (st : state) : Prop :=
  (forall level w n, wheel (tm st) !! level = Some w -> NoDup (bucket_get w n)) /\
  (forall ent l n l' n',
      linked st ent l n -> linked st ent l' n' -> l = l' /\ n = n') /\
  (forall ent, scheduled (mem st ent) = true <-> exists l n, linked st ent l n).

(** What else holds of every state that the operations produce: the
    allocated levels are the [levels] first, between 1 and MAX_LEVELS of
    them; the hands are bucket indices; a linked reference has its handler
    set, and its remaining time is 0 on level 0, below WHEEL_BUCKETS on
    level 1, and not negative further up. *)
Definition remaining_ok (level : nat) (rem : Z) : Prop :=
  match level with
  | O => rem = 0
  | S O => 0 <= rem < WHEEL_BUCKETS
  | _ => 0 <= rem
  end.

Definition wheel_ok (st : state) : Prop :=
  levels (tm st) = length (wheel (tm st)) /\
  (1 <= levels (tm st) <= WHEEL_MAX_LEVELS)%nat /\
  (forall level w, wheel (tm st) !! level = Some w -> 0 <= hand w < WHEEL_BUCKETS) /\
  (forall ent level n, linked st ent level n ->
      func (mem st ent) <> None /\ remaining_ok level (remaining (mem st ent))) /\
  links_ok st.

(** While [ttimer_tick] works on [wheel[level]], the hands of the levels
    below have just been set to 0. *)
Definition lower_hands_zero (level : nat) (st : state) : Prop :=
  forall l w, (l < level)%nat -> wheel (tm st) !! l = Some w -> hand w = 0.

(** Sequences of calls made by a client.  A call whose precondition fails
    stops the run with a fault. *)
Inductive op :=
| OpStart (ent : ref_id) (timeout : Z)
| OpStop (ent : ref_id)
| OpTick.

Definition exec_op (fuel : nat) (st : state) (o : op) : res state :=
  match o with
  | OpStart ent timeout => ttimer_start st ent timeout
  | OpStop ent => Ok (ttimer_stop st ent).2
  | OpTick => fst <$> ttimer_tick fuel st
  end.

Fixpoint exec_ops (fuel : nat) (ops : list op) (st : state) : res state :=
  match ops with
  | [] => Ok st
  | o :: ops' => st1 ← exec_op fuel st o; exec_ops fuel ops' st1
  end.

(** A bound on the iterations of the [while] loop over bucket [n] of
    [wheel[level]]: one for each entry, and one more for each tick of its
    remaining time. *)
Fixpoint list_weight (m : store) (l : list ref_id) : nat :=
  match l with
  | [] => 0%nat
  | e :: l' => (S (Z.to_nat (remaining (m e))) + list_weight m l')%nat
  end.

Definition bucket_weight (st : state) (level : nat) (n : Z) : nat :=
  match wheel (tm st) !! level with
  | Some w => list_weight (mem st) (bucket_get w n)
  | None => 0%nat
  end.

(** A re-scheduled entry gets a smaller remaining time. *)
Definition ev_decreasing (ev : event) : Prop :=
  match ev with
  | EvRequeue _ _ _ old _ _ new => 0 <= new < old
  | _ => True
  end.

(** The levels that a tick worked on, in order. *)
Definition visited_levels (evs : list event) : list nat :=
  omap (fun ev => match ev with EvVisit l _ => Some l | _ => None end) evs.

(** The reference that an event is about. *)
Definition ev_ref (ev : event) : option ref_id :=
  match ev with
  | EvVisit _ _ => None
  | EvRequeue _ _ ent _ _ _ _ => Some ent
  | EvFire ent _ _ => Some ent
  end.

(** For each reference, the re-scheduling that is the last thing that
    happened to it in the tick so far, if that is how it stands: the
    bucket [(cl, cn)] that was being drained, and the placement
    [(lv, r)] and remaining time [new] that it got. *)
Abbreviation pending := (ref_id -> option (nat * Z * nat * Z * Z)) (only parsing).

Definition note (ev : event) (p : pending) : pending :=
  match ev with
  | EvVisit _ _ => p
  | EvRequeue cl cn ent _ lv r new => <[ent := Some (cl, cn, lv, r, new)]> p
  | EvFire ent _ _ => <[ent := None]> p
  end.

Definition notes (evs : list event) (p : pending) : pending :=
  fold_left (fun p ev => note ev p) evs p.

(** Every call of a handler whose reference was last re-scheduled in this
    tick follows a re-scheduling into the bucket that was being drained,
    with no time remaining. *)
Fixpoint fires_fresh (p : pending) (evs : list event) : Prop :=
  match evs with
  | [] => True
  | ev :: evs' =>
      match ev with
      | EvFire ent _ _ =>
          match p ent with
          | Some (cl, cn, lv, r, new) => lv = cl /\ r = cn /\ new = 0
          | None => True
          end
      | _ => True
      end /\ fires_fresh (note ev p) evs'
  end.

(** How [pending] relates to the state while bucket [n] of [wheel[level]]
    is drained. *)
Definition pending_ok (level : nat) (n : Z) (p : pending) (st : state) : Prop :=
  forall ent cl cn lv r new,
    p ent = Some (cl, cn, lv, r, new) ->
    linked st ent lv r /\ remaining (mem st ent) = new /\
    (lv <= cl)%nat /\ ((cl < level)%nat \/ (cl = level /\ cn = n)).

(** ** Concrete runs *)

(** References with a handler set and not scheduled. *)
Definition idle_store : store := fun _ => mk_ref 0 (Some 1) 0 false.

(** A wheel with all three levels, as ttimer_create returns it. *)
Definition fresh_wheel : state :=
  mk_state (mk_timer 3 0 (replicate 3 (mk_wheel 0 ∅))) idle_store.

(** The ticks (counted from 1) of a run in which the handler of [ent] was
    called. *)
Definition fires_of (ent : ref_id) (evs : list event) : bool :=
  existsb (fun ev => match ev with
                     | EvFire e _ _ => bool_decide (e = ent)
                     | _ => false
                     end) evs.

Fixpoint fire_ticks_from (i : Z) (ent : ref_id) (run : list (list event)) : list Z :=
  match run with
  | [] => []
  | evs :: run' =>
      if fires_of ent evs then i :: fire_ticks_from (i + 1) ent run'
      else fire_ticks_from (i + 1) ent run'
  end.

Definition fire_ticks (ent : ref_id) (run : list (list event)) : list Z :=
  fire_ticks_from 1 ent run.

(** The hands of a three-level wheel read as the base-256 digits of a
    tick count. *)
Definition hands_of (H : Z) : list Z :=
  [H mod 256; (H / 256) mod 256; (H / 256 / 256) mod 256].

Definition with_hands (hs : list Z) (st : state) : state :=
  set_wheel (zip_with (fun h w => mk_wheel h (bucket w)) hs (wheel (tm st))) st.

(** A three-level wheel whose only non-empty bucket, if any, is bucket
    [b0] of level 2. *)
Definition all_empty (w : twheel_t) : bool :=
  bool_decide (map_Forall (fun _ (v : list ref_id) => v = []) (bucket w)).

Definition only_bucket (b0 : Z) (w : twheel_t) : bool :=
  bool_decide (map_Forall (fun k (v : list ref_id) => v = [] \/ k = b0) (bucket w)).

Definition quiet (b0 : Z) (st : state) : bool :=
  match wheel (tm st) with
  | [w0; w1; w2] =>
      all_empty w0 && all_empty w1 && only_bucket b0 w2 &&
      bool_decide (levels (tm st) = 3%nat)
  | _ => false
  end.

(** ** When a timer is due *)

(** The walk of ttimer_start on a three-level wheel, from the hands. *)
Definition place3 (h0 h1 h2 timeout : Z) : nat * Z * Z :=
  let s0 := h0 + timeout in
  if 0 <? s0 / 256 then
    let s1 := h1 + s0 / 256 in
    if 0 <? s1 / 256 then
      let s2 := h2 + s1 / 256 in
      if 0 <? s2 / 256 then
        (2%nat, s2 mod 256,
         s0 mod 256 + 256 * (s1 mod 256) + 65536 * (s2 mod 256)
         + 16777216 * (s2 / 256 - 1))
      else (2%nat, s2 mod 256, s0 mod 256 + 256 * (s1 mod 256))
    else (1%nat, s1 mod 256, s0 mod 256)
  else (0%nat, s0 mod 256, 0).

(** The number of ticks until the hand of level [lv] reaches bucket [b]. *)
Definition visit_in (lv : nat) (b h0 h1 h2 : Z) : Z :=
  match lv with
  | O => (b - h0 - 1) mod 256 + 1
  | S O => 256 * ((b - h1 - 1) mod 256) + (256 - h0)
  | _ => 65536 * ((b - h2 - 1) mod 256) + (65536 - (h0 + 256 * h1))
  end.

(** The number of ticks that an entry of level [lv] with remaining time
    [rem] waits after its bucket is reached. *)
Definition after_visit (lv : nat) (rem : Z) : Z :=
  match lv with
  | O | S O => rem
  | _ => if 65536 <=? rem then rem - 65536 else rem
  end.

Definition rem_range (lv : nat) (rem : Z) : Prop :=
  match lv with
  | O => rem = 0
  | S O => 0 <= rem < 256
  | _ => 0 <= rem < 131072
  end.

(** [ent] is on the list of bucket [b] of level [lv], and on no other, with
    remaining time [rem]. *)
Definition placed (st : state) (ent : ref_id) (lv : nat) (b rem : Z) : Prop :=
  (forall l b', linked st ent l b' <-> l = lv /\ b' = b) /\
  remaining (mem st ent) = rem.

Definition gone (st : state) (ent : ref_id) : Prop :=
  (forall l b, ~ linked st ent l b) /\ scheduled (mem st ent) = false.

(** Where a reference is: on a list, or on none and not scheduled. *)
Inductive status :=
| Placed (lv : nat) (b rem : Z)
| Gone.

Definition has_status (st : state) (ent : ref_id) (s : status) : Prop :=
  match s with
  | Placed lv b rem => placed st ent lv b rem
  | Gone => gone st ent
  end.

Definition status_ok (s : status) : Prop :=
  match s with
  | Placed lv b rem => (lv <= 2)%nat /\ 0 <= b < 256 /\ rem_range lv rem
  | Gone => True
  end.

(** [ent] is called back on the [d]-th tick from now. *)
Definition due (st : state) (ent : ref_id) (d : Z) : Prop :=
  exists h0 h1 h2 lv b rem,
    hand <$> wheel (tm st) = [h0; h1; h2] /\
    has_status st ent (Placed lv b rem) /\ status_ok (Placed lv b rem) /\
    d = visit_in lv b h0 h1 h2 + after_visit lv rem.

(** The number of calls of the handler of [ent]. *)
Fixpoint fire_count (ent : ref_id) (evs : list event) : nat :=
  match evs with
  | [] => 0%nat
  | EvFire e _ _ :: evs' =>
      ((if bool_decide (e = ent) then 1 else 0) + fire_count ent evs')%nat
  | _ :: evs' => fire_count ent evs'
  end.

Definition not_at (s : status) (level : nat) (n : Z) : Prop :=
  match s with
  | Placed lv b _ => (lv, b) <> (level, n)
  | Gone => True
  end.

(** The hands that the drain of a level finds. *)
Definition focus_hands (level : nat) (n h0 h1 h2 : Z) : Prop :=
  match level with
  | O => True
  | S O => h0 = 0
  | _ => h0 = 0 /\ h1 = 0 /\ 0 <= h2 < 256 /\ n = (h2 + 1) mod 256
  end.

(** What the visit of bucket [n] of level [level] does to the entry, and
    how often it calls the handler. *)
Definition visit_result (level : nat) (n : Z) (s : status) : status * nat :=
  match s with
  | Placed lv b rem =>
      if decide ((lv, b) = (level, n)) then
        let R1 := after_visit level rem in
        if R1 =? 0 then (Gone, 1%nat)
        else if R1 <? 256 then (Placed 0 R1 0, 0%nat)
        else (Placed 1 (R1 / 256) (R1 mod 256), 0%nat)
      else (s, 0%nat)
  | Gone => (Gone, 0%nat)
  end.

Definition next_hands (h0 h1 h2 : Z) : list Z :=
  let n0 := (h0 + 1) mod 256 in
  let n1 := (h1 + 1) mod 256 in
  let n2 := (h2 + 1) mod 256 in
  if n0 =? 0 then if n1 =? 0 then [n0; n1; n2] else [n0; n1; h2]
  else [n0; h1; h2].

Definition tick_result (h0 h1 h2 : Z) (s : status) : status * nat :=
  let n0 := (h0 + 1) mod 256 in
  let n1 := (h1 + 1) mod 256 in
  let n2 := (h2 + 1) mod 256 in
  let r1 := visit_result 0 n0 s in
  if n0 =? 0 then
    let r2 := visit_result 1 n1 r1.1 in
    if n1 =? 0 then
      let r3 := visit_result 2 n2 r2.1 in
      (r3.1, (r1.2 + r2.2 + r3.2)%nat)
    else (r2.1, (r1.2 + r2.2)%nat)
  else r1.

(** ** Further notions for the statements *)

(** The hands read as a number in base 256, least significant first. *)
Fixpoint hands_value (hs : list Z) : Z :=
  match hs with
  | [] => 0
  | h :: hs' => h + 256 * hands_value hs'
  end.

(** The largest [time_t], which is taken to be a signed integer of 64
    bits.  The sum [wheel->hand + timeout] of ttimer_start is computed in
    [time_t]; with a hand below 256 it does not overflow, and is the sum
    in [Z], as long as the timeout is at most [TIME_MAX - 255]. *)
Definition TIME_MAX : Z := 2 ^ 63 - 1.

(** Whether ttimer_start reads past the end of [wheel[]]. *)
Definition start_overflows (st : state) (timeout : Z) : Prop :=
  (levels (tm st) < WHEEL_MAX_LEVELS)%nat /\
  256 ^ Z.of_nat (levels (tm st))
    <= hands_value (hand <$> wheel (tm st)) + timeout.

(** The list of bucket [n] of [wheel[level]]; empty outside the array. *)
Definition bucket_at (st : state) (level : nat) (n : Z) : list ref_id :=
  match wheel (tm st) !! level with
  | Some w => bucket_get w n
  | None => []
  end.

(** One more tick on a counter in base 256: the carry goes up as far as
    there are digits. *)
Fixpoint hands_succ (hs : list Z) : list Z :=
  match hs with
  | [] => []
  | h :: hs' =>
      let n := (h + 1) mod 256 in
      if n =? 0 then n :: hands_succ hs' else n :: hs'
  end.

(** The number of ttimer_tick calls in a sequence of calls. *)
Fixpoint count_ticks (ops : list op) : nat :=
  match ops with
  | [] => 0%nat
  | OpTick :: ops' => S (count_ticks ops')
  | _ :: ops' => count_ticks ops'
  end.

(** What a tick has done to reference [ent] when it has gone from [st0] to
    [st] with the events [acc]: the handler and its argument are as they
    were; each call of the handler was made with them; and either nothing
    has been called and [scheduled] is as it was, or the entry was
    scheduled, its handler has been called once, and it is not scheduled
    any more. *)
Definition accounted (ent : ref_id) (st0 st : state) (acc : list event) : Prop :=
  func (mem st ent) = func (mem st0 ent) /\
  arg (mem st ent) = arg (mem st0 ent) /\
  Forall (fun ev => forall fn a, ev = EvFire ent fn a ->
                    func (mem st0 ent) = Some fn /\ arg (mem st0 ent) = a) acc /\
  ((scheduled (mem st ent) = scheduled (mem st0 ent) /\
    fire_count ent acc = 0%nat) \/
   (scheduled (mem st0 ent) = true /\ scheduled (mem st ent) = false /\
    fire_count ent acc = 1%nat)).

(** The part of the remaining time that is waited for after the bucket of
    the entry has been reached, whatever else the last level adds. *)
Definition low_part (lv : nat) (rem : Z) : Z :=
  match lv with
  | O | S O => rem
  | _ => rem mod 65536
  end.

(** A number of ticks before which the entry cannot be called. *)
Definition lower_bound (lv : nat) (b rem h0 h1 h2 : Z) : Z :=
  visit_in lv b h0 h1 h2 + low_part lv rem.

Definition status_wf (lv : nat) (b rem : Z) : Prop :=
  (lv <= 2)%nat /\ 0 <= b < 256 /\ remaining_ok lv rem.

(** [ent] is not called back before the [d]-th tick from now. *)
Definition due_from (st : state) (ent : ref_id) (d : Z) : Prop :=
  exists h0 h1 h2 lv b rem,
    hand <$> wheel (tm st) = [h0; h1; h2] /\
    placed st ent lv b rem /\ status_wf lv b rem /\
    d <= lower_bound lv b rem h0 h1 h2.

(** [st3] is [st] with more levels allocated, all buckets of which are
    empty. *)
Definition padded (st st3 : state) : Prop :=
  mem st3 = mem st /\
  levels (tm st) = length (wheel (tm st)) /\
  levels (tm st3) = length (wheel (tm st3)) /\
  exists extra,
    wheel (tm st3) = wheel (tm st) ++ extra /\
    Forall (fun w => bucket w = ∅) extra.

(** [st] with its array of wheels filled up to MAX_LEVELS. *)
Definition pad (st : state) : state :=
  mk_state
    (mk_timer WHEEL_MAX_LEVELS (lastrun (tm st))
       (wheel (tm st)
          ++ replicate (WHEEL_MAX_LEVELS - length (wheel (tm st))) (mk_wheel 0 ∅)))
    (mem st).


(** The references that the tick so far has re-scheduled otherwise than
    into the bucket being drained with no time remaining. *)
Definition taint (ev : event) (t : ref_id -> bool) : ref_id -> bool :=
  match ev with
  | EvRequeue cl cn ent _ lv r new =>
      if bool_decide (lv = cl /\ r = cn /\ new = 0) then t else <[ent := true]> t
  | _ => t
  end.

Definition taints (evs : list event) (t : ref_id -> bool) : ref_id -> bool :=
  fold_left (fun t ev => taint ev t) evs t.

(** No handler is called for a reference in [t], nor for one that the
    events themselves put there. *)
Fixpoint fires_clean (t : ref_id -> bool) (evs : list event) : Prop :=
  match evs with
  | [] => True
  | ev :: evs' =>
      match ev with
      | EvFire ent _ _ => t ent = false
      | _ => True
      end /\ fires_clean (taint ev t) evs'
  end.

(** The remaining times on the last level are below the span 256^3 of the
    three levels. *)
Definition rem_in_span (st : state) : Prop :=
  forall ent n, linked st ent 2 n -> remaining (mem st ent) < 16777216.

(** How [t] relates to the state while bucket [n] of [wheel[level]] is
    drained: a reference in [t] is on a level below, or in another bucket
    of this level, or back in this bucket with time remaining that will
    take it to a level below. *)
Definition taint_ok (level : nat) (n : Z) (t : ref_id -> bool) (st : state) : Prop :=
  forall ent, t ent = true ->
    exists lv r, linked st ent lv r /\
      ((lv < level)%nat \/ (lv = level /\ r <> n) \/
       (lv = level /\ r = n /\ 0 < remaining (mem st ent) < 65536)).

(** ** The test program (t_ttimer.c) *)

(** The globals [gotval] and [setval]. *)
Record globals := mk_globals {
  gotval : Z;
  setval : Z
}.

(** The addresses of the function timeout_handler and of the global
    [setval].  Their values do not matter; a function is not at NULL. *)
Definition timeout_handler_addr : Z := 1.
Definition setval_addr : Z := 2.

(** timeout_handler: [gotval = *(unsigned * )arg].  The test program passes
    no other argument than [&setval]. *)
Definition timeout_handler (g : globals) (a : Z) : res globals :=
  if a =? setval_addr then Ok (mk_globals (setval g) (setval g))
  else Err OutOfBounds.

(** The calls [ent->func(ent, ent->arg)] that a tick makes, in order.
    timeout_handler is the only function of the test program that is ever
    registered. *)
Fixpoint run_handlers (g : globals) (evs : list event) : res globals :=
  match evs with
  | [] => Ok g
  | EvFire _ fn a :: evs' =>
      if fn =? timeout_handler_addr then
        g1 ← timeout_handler g a; run_handlers g1 evs'
      else Err OutOfBounds
  | _ :: evs' => run_handlers g evs'
  end.

(** ttimer_tick as the test program sees it.  timeout_handler does not
    touch the timer or the entry, so its calls can be run after the
    tick. *)
Definition test_tick (fuel : nat) (st : state) (g : globals)
    : res (state * globals) :=
  '(st1, evs) ← ttimer_tick fuel st;
  g1 ← run_handlers g evs;
  Ok (st1, g1).

(** ttimer_setup.  ttimer_setfunc writes to [*ent] only, so it is applied
    to the state that has the new timer in it; [now] is the value of
    time(NULL); [assert(timer)] fails if calloc did. *)
Definition ttimer_setup (calloc_ok : bool) (m0 : store) (maxtimeout now : Z)
    (ent : ref_id) : res state :=
  match ttimer_create calloc_ok maxtimeout now with
  | Some timer =>
      Ok (ttimer_setfunc (mk_state timer m0) ent
            (Some timeout_handler_addr) setval_addr)
  | None => Err AssertFailed
  end.

(** [for (i = 0; i < steps; i++) { assert(gotval == 0); ttimer_tick(timer); }] *)
Fixpoint test_loop (fuel : nat) (steps : nat) (st : state) (g : globals)
    : res (state * globals) :=
  match steps with
  | O => Ok (st, g)
  | S steps' =>
      _ ← ASSERT (gotval g =? 0);
      '(st1, g1) ← test_tick fuel st g;
      test_loop fuel steps' st1 g1
  end.

(** One round of the loop of ttimer_random, [rnd] being what random()
    returns.  The round begins with [gotval = 0, setval = 2], so it does
    not depend on what the globals were. *)
Definition random_round (fuel : nat) (ent : ref_id) (rnd : Z) (st : state)
    : res (state * globals) :=
  let maxt := 256 * 256 in
  let g := mk_globals 0 2 in
  let steps := u32 (rnd mod maxt + 1) in
  st1 ← ttimer_start st ent steps;
  '(st2, g2) ← test_loop fuel (Z.to_nat steps) st1 g;
  _ ← ASSERT (gotval g2 =? 2);
  Ok (st2, g2).

Fixpoint random_rounds (fuel : nat) (ent : ref_id) (rnds : list Z)
    (st : state) (g : globals) : res (state * globals) :=
  match rnds with
  | [] => Ok (st, g)
  | rnd :: rnds' =>
      '(st1, g1) ← random_round fuel ent rnd st;
      random_rounds fuel ent rnds' st1 g1
  end.

(** ttimer_random, with the values that random() returns in [rnds] (10000
    of them in the test program).  [ent] is the one [ttimer_ref_t] of the
    function; ttimer_destroy frees the timer. *)
Definition ttimer_random (fuel : nat) (calloc_ok : bool) (m0 : store) (now : Z)
    (g : globals) (rnds : list Z) : res unit :=
  let ent := 0%nat in
  let maxt := 256 * 256 in
  timer ← ttimer_setup calloc_ok m0 maxt now ent;
  '(_, _) ← random_rounds fuel ent rnds timer g;
  Ok tt.

(** What holds between the rounds of ttimer_random. *)
Definition test_inv (ent : ref_id) (st : state) : Prop :=
  wheel_ok st /\ levels (tm st) = 3%nat /\
  func (mem st ent) = Some timeout_handler_addr /\
  arg (mem st ent) = setval_addr /\
  forall e, scheduled (mem st e) = false.

(** ** Small facts about the monad and the macros *)

Lemma MOD_BY_BUCKETS_mod (x : Z) : MOD_BY_BUCKETS x = x mod 256.
Proof.
  unfold MOD_BY_BUCKETS. change 255 with (Z.ones 8).
  by rewrite Z.land_ones.
Qed.

Lemma DIV_BY_BUCKETS_div (x : Z) : DIV_BY_BUCKETS x = x / 256.
Proof. unfold DIV_BY_BUCKETS. by rewrite Z.shiftr_div_pow2. Qed.

Lemma u32_small (x : Z) : 0 <= x < 2 ^ 32 -> u32 x = x.
Proof. intros H. unfold u32. by apply Z.mod_small. Qed.

(** ** Sizing (ttimer_create) *)

Lemma ceil_log256_spec (m : Z) :
  1 <= m ->
  0 <= ceil_log256 m /\ m <= 256 ^ ceil_log256 m /\
  forall k, 0 <= k -> m <= 256 ^ k -> ceil_log256 m <= k.
Proof.
  intros Hm. unfold ceil_log256.
  pose proof (Z.log2_up_nonneg m) as Hnn.
  assert (H0 : 0 <= (Z.log2_up m + 7) / 8) by (apply Z.div_pos; lia).
  assert (H8 : Z.log2_up m <= 8 * ((Z.log2_up m + 7) / 8)).
  { pose proof (Z.div_mod (Z.log2_up m + 7) 8 ltac:(lia)).
    pose proof (Z.mod_pos_bound (Z.log2_up m + 7) 8 ltac:(lia)). lia. }
  repeat split; [done | |].
  - change 256 with (2 ^ 8). rewrite <- Z.pow_mul_r by lia.
    destruct (Z.eq_dec m 1) as [-> | Hne].
    + assert (0 < 2 ^ (8 * ((Z.log2_up 1 + 7) / 8)))
        by (apply Z.pow_pos_nonneg; lia).
      lia.
    + pose proof (Z.log2_up_spec m ltac:(lia)) as [_ Hhi].
      etrans; [exact Hhi |]. apply Z.pow_le_mono_r; lia.
  - intros k Hk Hle. change 256 with (2 ^ 8) in Hle.
    rewrite <- Z.pow_mul_r in Hle by lia.
    assert (Z.log2_up m <= 8 * k).
    { destruct (Z.eq_dec m 1) as [-> | Hne].
      - change (Z.log2_up 1) with 0. lia.
      - apply Z.log2_up_le_pow2; lia. }
    enough ((Z.log2_up m + 7) / 8 < k + 1) by lia.
    apply Z.div_lt_upper_bound; lia.
Qed.

Lemma count_levels_digits (m : Z) (lv : nat) :
  0 < m -> count_levels m lv = (lv + Z.to_nat (Z.log2 m / 8) + 1)%nat.
Proof.
  funelim (count_levels m lv); intros Hm; [| lia].
  clear Heqcall Heq.
  assert (Hsh : DIV_BY_BUCKETS maxtimeout = maxtimeout / 256)
    by apply DIV_BY_BUCKETS_div.
  pose proof (Z.log2_nonneg maxtimeout) as Hl0.
  destruct (Z_lt_le_dec maxtimeout 256) as [Hlt | Hge].
  - rewrite Hsh, (Z.div_small maxtimeout 256) by lia.
    simp count_levels. simpl.
    assert (Z.log2 maxtimeout < 8) by (apply Z.log2_lt_pow2; lia).
    rewrite (Z.div_small (Z.log2 maxtimeout) 8) by lia. simpl. lia.
  - assert (Hq : 0 < maxtimeout / 256)
      by (apply Z.div_str_pos; lia).
    rewrite H by (rewrite Hsh; lia).
    unfold DIV_BY_BUCKETS. rewrite Z.log2_shiftr by lia.
    assert (8 <= Z.log2 maxtimeout) by (apply Z.log2_le_pow2; lia).
    rewrite Z.max_r by lia.
    replace (Z.log2 maxtimeout - 8) with (Z.log2 maxtimeout + (-1) * 8) by lia.
    rewrite Z.div_add by lia.
    assert (1 <= Z.log2 maxtimeout / 8)
      by (apply Z.div_le_lower_bound; lia).
    lia.
Qed.

Lemma ceil_log256_succ (m : Z) :
  0 < m -> ceil_log256 (m + 1) = Z.log2 m / 8 + 1.
Proof.
  intros Hm. unfold ceil_log256.
  rewrite (Z.log2_up_eqn (m + 1)) by lia.
  replace (Z.pred (m + 1)) with m by lia.
  replace (Z.succ (Z.log2 m) + 7) with (Z.log2 m + 1 * 8) by lia.
  by rewrite Z.div_add by lia.
Qed.

Lemma create_levels_sizing (m : Z) :
  create_levels m =
  if bool_decide (0 < m) then spec_levels (m + 1) else WHEEL_MAX_LEVELS.
Proof.
  unfold create_levels, spec_levels. case_bool_decide as Hm.
  - rewrite count_levels_digits, ceil_log256_succ by done.
    assert (0 <= Z.log2 m / 8)
      by (apply Z.div_pos; [apply Z.log2_nonneg | lia]).
    replace (0 + Z.to_nat (Z.log2 m / 8) + 1)%nat
      with (S (Z.to_nat (Z.log2 m / 8))) by lia.
    unfold WHEEL_MAX_LEVELS. lia.
  - simp count_levels. destruct (decide (0 < m)); [lia | done].
Qed.

(** C5, as stated, fails: a maximum timeout of 256 gets two levels, while
    ceil(log_256 256) = 1. *)
Lemma create_levels_256 :
  levels <$> ttimer_create true 256 0 = Some 2%nat /\ spec_levels 256 = 1%nat.
Proof. split; reflexivity. Qed.

(** What ttimer_create returns when the allocation succeeds. *)
Lemma ttimer_create_shape (maxtimeout now : Z) :
  exists t,
    ttimer_create true maxtimeout now = Some t /\
    levels t = create_levels maxtimeout /\
    (1 <= levels t <= WHEEL_MAX_LEVELS)%nat /\
    lastrun t = now /\
    wheel t = replicate (levels t) (mk_wheel 0 ∅).
Proof.
  eexists. split; [reflexivity |]. simpl. split; [done |].
  split; [| done].
  rewrite create_levels_sizing. unfold spec_levels, WHEEL_MAX_LEVELS.
  case_bool_decide; lia.
Qed.

(** C5, amended: the level count is the number of base-256 digits of
    [maxtimeout], that is ceil(log_256 (maxtimeout + 1)), clamped to
    [1, MAX_LEVELS], for a positive [maxtimeout]; it is MAX_LEVELS for
    [maxtimeout <= 0].  The array [wheel[]] has that many elements, with
    every hand at 0 and every bucket empty. *)
Theorem ttimer_create_levels (maxtimeout now : Z) :
  exists t,
    ttimer_create true maxtimeout now = Some t /\
    levels t =
      (if bool_decide (0 < maxtimeout) then spec_levels (maxtimeout + 1)
       else WHEEL_MAX_LEVELS) /\
    (1 <= levels t <= WHEEL_MAX_LEVELS)%nat /\
    lastrun t = now /\
    wheel t = replicate (levels t) (mk_wheel 0 ∅).
Proof.
  destruct (ttimer_create_shape maxtimeout now) as (t & Hc & Hl & Hb & Hr & Hw).
  exists t. split; [done |]. split; [| done].
  rewrite Hl. apply create_levels_sizing.
Qed.

(** ** [lastrun] is only touched by ttimer_run_ticks *)

Lemma set_lastrun_id (st : state) : set_lastrun (lastrun (tm st)) st = st.
Proof. by destruct st as [[] ?]. Qed.

Lemma start_walk_wheel (k : nat) (t t' : ttimer_t) level timeout rem mult :
  wheel t = wheel t' ->
  start_walk k t level timeout rem mult = start_walk k t' level timeout rem mult.
Proof.
  intros Hw. revert level timeout rem mult.
  induction k as [| k IH]; intros; simpl; rewrite Hw;
    destruct (wheel t' !! level); try done;
    repeat case_match; done.
Qed.

Lemma start_place_wheel (t t' : ttimer_t) timeout :
  wheel t = wheel t' -> start_place t timeout = start_place t' timeout.
Proof. apply start_walk_wheel. Qed.
Lemma ttimer_start_lastrun (x : Z) st ent timeout :
  ttimer_start (set_lastrun x st) ent timeout =
  set_lastrun x <$> ttimer_start st ent timeout.
Proof.
  unfold ttimer_start. simpl.
  destruct (ASSERT (0 <? timeout)); simpl; [| done].
  destruct (ASSERT (negb _)); simpl; [| done].
  destruct (ASSERT (bool_decide _)); simpl; [| done].
  rewrite (start_place_wheel _ (tm st)) by done.
  destruct (start_place (tm st) timeout) as [[[lv r] rem] |]; simpl; [| done].
  destruct (wheel (tm st) !! lv); simpl; done.
Qed.

Lemma drain_step_lastrun (x : Z) level n ent st :
  drain_step level n ent (set_lastrun x st) =
  lift_lastrun x (drain_step level n ent st).
Proof.
  unfold drain_step, lift_lastrun. simpl.
  destruct (ASSERT _); simpl; [| done].
  destruct (negb _); simpl.
  - match goal with |- context [ttimer_start ?s _ _] =>
      change s with (set_lastrun x (set_ref ent
        (mk_ref (remaining (mem st ent)) (func (mem st ent)) (arg (mem st ent)) false)
        (LIST_REMOVE ent st))) end.
    rewrite ttimer_start_lastrun.
    destruct (ttimer_start _ _ _); simpl; [| done].
    match goal with |- context [start_place ?t _] =>
      rewrite (start_place_wheel t (tm (set_ref ent
        (mk_ref (remaining (mem st ent)) (func (mem st ent)) (arg (mem st ent)) false)
        (LIST_REMOVE ent st)))) by done end.
    destruct (start_place _ _) as [[[lv r] rem] |]; simpl; done.
  - destruct (func _); done.
Qed.

Lemma drain_lastrun (x : Z) fuel level n st :
  drain fuel level n (set_lastrun x st) = lift_lastrun x (drain fuel level n st).
Proof.
  revert st. induction fuel as [| fuel IH]; intros st; simpl;
    destruct (wheel (tm st) !! level) as [w |]; try done;
    destruct (bucket_get w n) as [| ent l]; try done.
  rewrite drain_step_lastrun. unfold lift_lastrun at 1.
  destruct (drain_step level n ent st) as [[st1 ev] |]; simpl; [| done].
  rewrite IH. unfold lift_lastrun.
  destruct (drain fuel level n st1) as [[st2 evs] |]; done.
Qed.

Lemma tick_from_lastrun (x : Z) k fuel level st :
  tick_from k fuel level (set_lastrun x st) =
  lift_lastrun x (tick_from k fuel level st).
Proof.
  revert level st. induction k as [| k IH]; intros level st; simpl;
    destruct (wheel (tm st) !! level) as [w |]; try done;
    rewrite drain_lastrun; unfold lift_lastrun at 1;
    destruct (drain fuel level _ st) as [[st1 evs] |]; simpl; try done;
    destruct (_ && _); try done.
  change (set_hand level ?n (set_lastrun x st1))
    with (set_lastrun x (set_hand level n st1)).
  rewrite IH. unfold lift_lastrun.
  destruct (tick_from k fuel (S level) _) as [[st3 evs'] |]; done.
Qed.

Lemma ttimer_tick_lastrun (x : Z) fuel st :
  ttimer_tick fuel (set_lastrun x st) = lift_lastrun x (ttimer_tick fuel st).
Proof. apply tick_from_lastrun. Qed.

Lemma ttimer_tick_keeps_lastrun fuel st st' evs :
  ttimer_tick fuel st = Ok (st', evs) -> lastrun (tm st') = lastrun (tm st).
Proof.
  intros H. pose proof (ttimer_tick_lastrun (lastrun (tm st)) fuel st) as E.
  rewrite set_lastrun_id, H in E. by injection E as ->.
Qed.

Lemma ticks_lastrun (x : Z) fuel k st :
  ticks fuel k (set_lastrun x st) = lift_lastrun x (ticks fuel k st).
Proof.
  revert st. induction k as [| k IH]; intros st; simpl; [done |].
  rewrite ttimer_tick_lastrun. unfold lift_lastrun at 1.
  destruct (ttimer_tick fuel st) as [[st1 evs] |]; simpl; [| done].
  rewrite IH. unfold lift_lastrun.
  destruct (ticks fuel k st1) as [[st2 rest] |]; done.
Qed.

Lemma run_loop_ticks fuel k st :
  run_loop k fuel (lastrun (tm st) + Z.of_nat k) st =
  '(st', evs) ← ticks fuel k st;
  Ok (set_lastrun (lastrun (tm st) + Z.of_nat k) st', concat evs).
Proof.
  revert st. induction k as [| k IH]; intros st.
  - simpl. rewrite Z.add_0_r, Z.ltb_irrefl, set_lastrun_id. done.
  - cbn [run_loop ticks].
    replace (lastrun (tm st) <? lastrun (tm st) + Z.of_nat (S k)) with true
      by (symmetry; apply Z.ltb_lt; lia).
    destruct (ttimer_tick fuel st) as [[st1 evs] |] eqn:Ht; simpl; [| done].
    apply ttimer_tick_keeps_lastrun in Ht.
    specialize (IH (set_lastrun (lastrun (tm st1) + 1) st1)). simpl in IH.
    replace (lastrun (tm st) + Z.of_nat (S k))
      with (lastrun (tm st1) + 1 + Z.of_nat k) by lia.
    rewrite IH, ticks_lastrun. unfold lift_lastrun.
    destruct (ticks fuel k st1) as [[st2 rest] |]; simpl; done.
Qed.

(** C7: advancing to [lastrun + k] does what [k] calls of ttimer_tick in
    sequence do: the same fault if one of them faults, and otherwise the
    same callbacks in the same order and the same final state, in which
    [lastrun] has become [now]. *)
Theorem ttimer_run_ticks_eq_ticks (fuel : nat) (st : state) (k : nat) :
  let now := lastrun (tm st) + Z.of_nat k in
  ttimer_run_ticks fuel st now =
  '(st', evs) ← ticks fuel k st; Ok (set_lastrun now st', concat evs).
Proof.
  intros now. unfold ttimer_run_ticks, now.
  replace (Z.to_nat (lastrun (tm st) + Z.of_nat k - lastrun (tm st))) with k by lia.
  rewrite run_loop_ticks.
  destruct (ticks fuel k st) as [[st' evs] |]; simpl; done.
Qed.

(** C2, as stated, fails: a [now] before [lastrun] moves [lastrun] back. *)
Lemma ttimer_run_ticks_rewinds :
  let st := mk_state (mk_timer 1 10 [mk_wheel 0 ∅]) (fun _ => mk_ref 0 None 0 false) in
  exists st', ttimer_run_ticks 0 st 5 = Ok (st', []) /\ lastrun (tm st') = 5 /\ st' <> st.
Proof. eexists. split; [reflexivity |]. split; [reflexivity |]. discriminate. Qed.

(** C2, amended: when [now] is not after [lastrun], no tick is run and no
    callback is called; levels, hands, buckets and the timer references
    are left as they are, and [lastrun] is set to [now].  So the state is
    unchanged exactly when [now] equals [lastrun]. *)
Theorem ttimer_run_ticks_not_after (fuel : nat) (st : state) (now : Z) :
  now <= lastrun (tm st) ->
  ttimer_run_ticks fuel st now = Ok (set_lastrun now st, []) /\
  (now = lastrun (tm st) -> ttimer_run_ticks fuel st now = Ok (st, [])).
Proof.
  intros Hle.
  assert (E : ttimer_run_ticks fuel st now = Ok (set_lastrun now st, [])).
  { unfold ttimer_run_ticks.
    replace (Z.to_nat (now - lastrun (tm st))) with 0%nat by lia. simpl.
    replace (lastrun (tm st) <? now) with false
      by (symmetry; apply Z.ltb_ge; lia).
    done. }
  split; [done |]. intros ->. by rewrite E, set_lastrun_id.
Qed.

Lemma ttimer_run_ticks_not_after_witness :
  let st := mk_state (mk_timer 1 10 [mk_wheel 0 ∅]) (fun _ => mk_ref 0 None 0 false) in
  ttimer_run_ticks 0 st 5 = Ok (set_lastrun 5 st, []) /\
  (5 = lastrun (tm st) -> ttimer_run_ticks 0 st 5 = Ok (st, [])).
Proof. apply ttimer_run_ticks_not_after. simpl. lia. Defined.

(** ** The walk of ttimer_start in closed form *)

Lemma mod256_bound (x : Z) : 0 <= x mod 256 < 256.
Proof. apply Z.mod_pos_bound. lia. Qed.

Lemma divmod256 (x : Z) : x = 256 * (x / 256) + x mod 256.
Proof. apply Z.div_mod. lia. Qed.

Lemma start_place_eq (t : ttimer_t) (timeout : Z) :
  start_place t timeout =
  match wheel t !! 0%nat with
  | None => Err OutOfBounds
  | Some w0 =>
    let s0 := hand w0 + timeout in
    if 0 <? s0 / 256 then
      match wheel t !! 1%nat with
      | None => Err OutOfBounds
      | Some w1 =>
        let s1 := hand w1 + s0 / 256 in
        if 0 <? s1 / 256 then
          match wheel t !! 2%nat with
          | None => Err OutOfBounds
          | Some w2 =>
            let s2 := hand w2 + s1 / 256 in
            if 0 <? s2 / 256 then
              Ok (2%nat, s2 mod 256,
                  s0 mod 256 + 256 * (s1 mod 256) + 65536 * (s2 mod 256)
                  + 16777216 * (s2 / 256 - 1))
            else Ok (2%nat, s2 mod 256, s0 mod 256 + 256 * (s1 mod 256))
          end
        else Ok (1%nat, s1 mod 256, s0 mod 256)
      end
    else Ok (0%nat, s0 mod 256, 0)
  end.
Proof.
  unfold start_place, WHEEL_MAX_LEVELS. cbn [start_walk].
  destruct (wheel t !! 0%nat) as [w0 |]; [| done].
  rewrite !MOD_BY_BUCKETS_mod, !DIV_BY_BUCKETS_div. cbn zeta.
  destruct (0 <? (hand w0 + timeout) / 256); [| done].
  cbn [Nat.ltb Nat.leb].
  destruct (wheel t !! 1%nat) as [w1 |]; [| done].
  rewrite !MOD_BY_BUCKETS_mod, !DIV_BY_BUCKETS_div.
  destruct (0 <? (hand w1 + (hand w0 + timeout) / 256) / 256);
    [| rewrite u32_small by (pose proof (mod256_bound (hand w0 + timeout)); lia);
       do 2 f_equal; lia].
  destruct (wheel t !! 2%nat) as [w2 |]; [| done].
  rewrite !MOD_BY_BUCKETS_mod, !DIV_BY_BUCKETS_div.
  set (s0 := hand w0 + timeout). set (s1 := hand w1 + s0 / 256).
  set (s2 := hand w2 + s1 / 256).
  pose proof (mod256_bound s0). pose proof (mod256_bound s1).
  pose proof (mod256_bound s2).
  change (u32 (1 * WHEEL_BUCKETS)) with 256.
  change (u32 (256 * WHEEL_BUCKETS)) with 65536.
  change (u32 (65536 * WHEEL_BUCKETS)) with 16777216.
  rewrite !u32_small by lia.
  destruct (0 <? s2 / 256); do 2 f_equal; lia.
Qed.

Lemma start_place_bounds (t : ttimer_t) (timeout : Z) lv r rem :
  (forall level w, wheel t !! level = Some w -> 0 <= hand w < WHEEL_BUCKETS) ->
  0 < timeout ->
  start_place t timeout = Ok (lv, r, rem) ->
  is_Some (wheel t !! lv) /\ 0 <= r < WHEEL_BUCKETS /\
  remaining_ok lv rem /\ 0 <= rem < timeout.
Proof.
  intros Hh Ht. rewrite start_place_eq. unfold WHEEL_BUCKETS in *.
  destruct (wheel t !! 0%nat) as [w0 |] eqn:E0; [| done].
  pose proof (Hh _ _ E0) as H0. cbn zeta.
  remember (hand w0 + timeout) as s0 eqn:S0.
  pose proof (mod256_bound s0) as B0. pose proof (divmod256 s0) as D0.
  destruct (Z.ltb_spec 0 (s0 / 256)) as [Q0 | Q0].
  2:{ intros [= <- <- <-]. rewrite E0. simpl. split; [eauto |]. repeat split; lia. }
  destruct (wheel t !! 1%nat) as [w1 |] eqn:E1; [| done].
  pose proof (Hh _ _ E1) as H1.
  remember (hand w1 + s0 / 256) as s1 eqn:S1.
  pose proof (mod256_bound s1) as B1. pose proof (divmod256 s1) as D1.
  destruct (Z.ltb_spec 0 (s1 / 256)) as [Q1 | Q1].
  2:{ intros [= <- <- <-]. rewrite E1. simpl. unfold WHEEL_BUCKETS. split; [eauto |]. repeat split; lia. }
  destruct (wheel t !! 2%nat) as [w2 |] eqn:E2; [| done].
  pose proof (Hh _ _ E2) as H2.
  remember (hand w2 + s1 / 256) as s2 eqn:S2.
  pose proof (mod256_bound s2) as B2. pose proof (divmod256 s2) as D2.
  destruct (Z.ltb_spec 0 (s2 / 256)) as [Q2 | Q2];
    intros [= <- <- <-]; rewrite E2; simpl; (split; [eauto |]); repeat split; lia.
Qed.

(** With all MAX_LEVELS levels allocated the walk stays inside [wheel[]]. *)
Lemma start_place_total (t : ttimer_t) (timeout : Z) :
  length (wheel t) = WHEEL_MAX_LEVELS ->
  exists p, start_place t timeout = Ok p.
Proof.
  intros Hlen. rewrite start_place_eq.
  destruct (wheel t) as [| w0 [| w1 [| w2 [| ? ?]]]]; try done. simpl.
  repeat case_match; eauto.
Qed.

(** A timeout that does not carry out of level 0 stays on level 0. *)
Lemma start_place_level0 (t : ttimer_t) (timeout : Z) w0 :
  wheel t !! 0%nat = Some w0 ->
  0 <= hand w0 + timeout < WHEEL_BUCKETS ->
  start_place t timeout = Ok (0%nat, hand w0 + timeout, 0).
Proof.
  unfold WHEEL_BUCKETS. intros E0 Hs. rewrite start_place_eq, E0. cbn zeta.
  rewrite Z.div_small, Z.mod_small by lia. done.
Qed.

(** ** Lists and links *)

Lemma bucket_get_unlink (ent : ref_id) (w : twheel_t) (n : Z) :
  bucket_get (unlink_wheel ent w) n = filter (fun x => x <> ent) (bucket_get w n).
Proof.
  unfold bucket_get, unlink_wheel. simpl. rewrite lookup_fmap.
  by destruct (bucket w !! n).
Qed.

Lemma bucket_get_push (w : twheel_t) (r n : Z) (ent : ref_id) :
  bucket_get (mk_wheel (hand w) (<[r := ent :: bucket_get w r]> (bucket w))) n =
  if decide (n = r) then ent :: bucket_get w r else bucket_get w n.
Proof.
  unfold bucket_get at 1. simpl. case_decide as E.
  - subst. by rewrite lookup_insert_eq.
  - by rewrite lookup_insert_ne.
Qed.

Lemma linked_set_ref st ent v e l n :
  linked (set_ref ent v st) e l n <-> linked st e l n.
Proof. done. Qed.

Lemma linked_set_hand st level h e l n :
  linked (set_hand level h st) e l n <-> linked st e l n.
Proof.
  unfold linked, set_hand. simpl. split.
  - intros (w & Hw & Hin). destruct (decide (level = l)) as [-> | Hne].
    + rewrite list_lookup_alter_eq in Hw.
      destruct (wheel (tm st) !! l) as [w' |]; [| done].
      injection Hw as <-. by exists w'.
    + rewrite list_lookup_alter_ne in Hw by done. by exists w.
  - intros (w & Hw & Hin). destruct (decide (level = l)) as [-> | Hne].
    + exists (mk_wheel h (bucket w)). by rewrite list_lookup_alter_eq, Hw.
    + exists w. by rewrite list_lookup_alter_ne.
Qed.

Lemma linked_remove st ent e l n :
  linked (LIST_REMOVE ent st) e l n <-> e <> ent /\ linked st e l n.
Proof.
  unfold linked, LIST_REMOVE. simpl. rewrite list_lookup_fmap. split.
  - intros (w & Hw & Hin).
    destruct (wheel (tm st) !! l) as [w' |]; [| done].
    injection Hw as <-. rewrite bucket_get_unlink in Hin.
    apply list_elem_of_filter in Hin as [? ?]. eauto.
  - intros (Hne & w & Hw & Hin). rewrite Hw. eexists. split; [done |].
    rewrite bucket_get_unlink. by apply list_elem_of_filter.
Qed.

Lemma linked_insert st lv r ent e l n :
  is_Some (wheel (tm st) !! lv) ->
  linked (LIST_INSERT_HEAD lv r ent st) e l n <->
  (e = ent /\ l = lv /\ n = r) \/ linked st e l n.
Proof.
  intros [w0 Hw0]. unfold linked, LIST_INSERT_HEAD. simpl.
  destruct (decide (lv = l)) as [-> | Hne].
  - rewrite list_lookup_alter_eq, Hw0. simpl. split.
    + intros (w & [= <-] & Hin). rewrite bucket_get_push in Hin.
      case_decide; [| eauto]. subst.
      apply elem_of_cons in Hin as [-> | Hin]; eauto.
    + intros [(-> & _ & ->) | (w & Hw & Hin)].
      * eexists. split; [done |]. rewrite bucket_get_push, decide_True by done.
        by left.
      * injection Hw as <-. eexists. split; [done |].
        rewrite bucket_get_push. case_decide; [subst; by right | done].
  - rewrite list_lookup_alter_ne by done. split; [eauto | ].
    intros [(_ & -> & _) | ?]; done.
Qed.

Lemma links_ok_remove st ent v :
  scheduled v = false -> links_ok st ->
  links_ok (set_ref ent v (LIST_REMOVE ent st)).
Proof.
  intros Hv (Hnd & Huniq & Hsch). split; [| split].
  - intros level w n. simpl. rewrite list_lookup_fmap.
    destruct (wheel (tm st) !! level) as [w' |] eqn:E; [| done].
    intros [= <-]. rewrite bucket_get_unlink. apply NoDup_filter. eauto.
  - intros e l n l' n'. rewrite !linked_set_ref, !linked_remove.
    intros [_ H1] [_ H2]. eauto.
  - intros e. simpl. destruct (decide (e = ent)) as [-> | Hne].
    + rewrite fn_lookup_insert, Hv. split; [done |].
      intros (l & n & H). apply linked_set_ref, linked_remove in H. by destruct H.
    + rewrite fn_lookup_insert_ne by done. rewrite Hsch.
      split; intros (l & n & H); exists l, n.
      * apply linked_set_ref, linked_remove. done.
      * by apply linked_set_ref, linked_remove in H as [_ H].
Qed.

Lemma links_ok_insert st ent v lv r :
  scheduled v = true -> scheduled (mem st ent) = false ->
  is_Some (wheel (tm st) !! lv) -> links_ok st ->
  links_ok (set_ref ent v (LIST_INSERT_HEAD lv r ent st)).
Proof.
  intros Hv Hfree Hlv (Hnd & Huniq & Hsch).
  assert (Hnl : forall l n, ~ linked st ent l n).
  { intros l n H. assert (scheduled (mem st ent) = true) by (apply Hsch; eauto).
    congruence. }
  split; [| split].
  - intros level w n. simpl.
    destruct (decide (lv = level)) as [-> | Hne].
    + rewrite list_lookup_alter_eq.
      destruct (wheel (tm st) !! level) as [w' |] eqn:E; [| done].
      intros [= <-]. rewrite bucket_get_push. case_decide; [| eauto]. subst.
      apply NoDup_cons. split; [| eauto].
      intros Hin. apply (Hnl level r). by exists w'.
    + rewrite list_lookup_alter_ne by done. eauto.
  - intros e l n l' n'. rewrite !linked_set_ref, !linked_insert by done.
    intros [(-> & -> & ->) | H1] [(E & -> & ->) | H2]; try done.
    + by destruct (Hnl _ _ H2).
    + subst. by destruct (Hnl _ _ H1).
    + eauto.
  - intros e. simpl. destruct (decide (e = ent)) as [-> | Hne].
    + rewrite fn_lookup_insert, Hv. split; [| done]. intros _.
      exists lv, r. apply linked_set_ref, linked_insert; auto.
    + rewrite fn_lookup_insert_ne by done. rewrite Hsch.
      split; intros (l & n & H); exists l, n.
      * apply linked_set_ref, linked_insert; auto.
      * apply linked_set_ref, linked_insert in H as [(? & _) | H]; done.
Qed.

Lemma links_ok_set_hand st level h :
  links_ok st -> links_ok (set_hand level h st).
Proof.
  intros (Hnd & Huniq & Hsch). split; [| split].
  - intros l w n. simpl. destruct (decide (level = l)) as [-> | Hne].
    + rewrite list_lookup_alter_eq.
      destruct (wheel (tm st) !! l) as [w' |] eqn:E; [| done].
      intros [= <-]. apply (Hnd l w' n E).
    + rewrite list_lookup_alter_ne by done. eauto.
  - intros e l n l' n'. rewrite !linked_set_hand. eauto.
  - intros e. simpl. rewrite Hsch.
    split; intros (l & n & H); exists l, n; by apply linked_set_hand in H || apply linked_set_hand.
Qed.

(** ** Inversion of the operations *)

Lemma ttimer_start_Ok st ent timeout st' :
  ttimer_start st ent timeout = Ok st' <->
  0 < timeout /\ scheduled (mem st ent) = false /\ func (mem st ent) <> None /\
  exists lv r rem,
    start_place (tm st) timeout = Ok (lv, r, rem) /\
    is_Some (wheel (tm st) !! lv) /\
    st' = set_ref ent (mk_ref rem (func (mem st ent)) (arg (mem st ent)) true)
            (LIST_INSERT_HEAD lv r ent st).
Proof.
  unfold ttimer_start.
  destruct (Z.ltb_spec 0 timeout) as [Ht | Ht]; simpl;
    [| split; [done | intros (? & _); lia]].
  destruct (scheduled (mem st ent)) eqn:Es; simpl;
    [split; [done | by intros (_ & ? & _)] |].
  case_bool_decide as Ef; simpl; [| split; [done | by intros (_ & _ & ? & _)]].
  destruct (start_place (tm st) timeout) as [[[lv r] rem] |]; simpl;
    [| split; [done | by intros (_ & _ & _ & ? & ? & ? & ? & _)]].
  destruct (wheel (tm st) !! lv) as [w |] eqn:Ew; simpl.
  - split.
    + intros [= <-]. repeat split; try done. exists lv, r, rem.
      rewrite Ew. eauto.
    + intros (_ & _ & _ & lv' & r' & rem' & [= <- <- <-] & _ & ->). done.
  - split; [done |].
    intros (_ & _ & _ & lv' & r' & rem' & [= <- <- <-] & [? H] & _). congruence.
Qed.

Lemma drain_step_Ok level n ent st st' ev :
  drain_step level n ent st = Ok (st', ev) ->
  let e := mem st ent in
  let st1 := set_ref ent (mk_ref (remaining e) (func e) (arg e) false)
               (LIST_REMOVE ent st) in
  scheduled e = true /\
  ((remaining e = 0 /\ exists fn, func e = Some fn /\ st' = st1 /\
      ev = EvFire ent fn (arg e)) \/
   (remaining e <> 0 /\ exists lv r new,
      start_place (tm st1) (remaining e) = Ok (lv, r, new) /\
      ttimer_start st1 ent (remaining e) = Ok st' /\
      ev = EvRequeue level n ent (remaining e) lv r new)).
Proof.
  unfold drain_step. intros H. cbn zeta.
  destruct (scheduled (mem st ent)) eqn:Es; simpl in H; [| done].
  split; [done |].
  destruct (Z.eqb_spec (remaining (mem st ent)) 0) as [E | E]; simpl in H.
  - left. split; [done |]. destruct (func (mem st ent)) as [fn |]; [| done].
    injection H as <- <-. eauto.
  - right. split; [done |].
    destruct (ttimer_start _ ent _) as [st2 |] eqn:Est; simpl in H; [| done].
    destruct (start_place _ _) as [[[lv r] new] |] eqn:Ep; simpl in H; [| done].
    injection H as <- <-. exists lv, r, new. done.
Qed.

(** ** Loop invariants *)

Lemma drain_invariant_ev (P : state -> Prop) (Q : event -> Prop)
    (level : nat) (n : Z) :
  (forall st ent st' ev,
      P st -> linked st ent level n ->
      drain_step level n ent st = Ok (st', ev) -> P st' /\ Q ev) ->
  forall fuel st st' evs,
    P st -> drain fuel level n st = Ok (st', evs) -> P st' /\ Forall Q evs.
Proof.
  intros Hstep fuel. induction fuel as [| fuel IH]; intros st st' evs HP; simpl;
    destruct (wheel (tm st) !! level) as [w |] eqn:Ew; try done;
    destruct (bucket_get w n) as [| ent l] eqn:Eb; try done;
    try (by intros [= <- <-]).
  destruct (drain_step level n ent st) as [[st1 ev] |] eqn:Es; simpl; [| done].
  destruct (drain fuel level n st1) as [[st2 evs'] |] eqn:Ed; simpl; [| done].
  intros [= <- <-].
  destruct (Hstep _ _ _ _ HP ltac:(exists w; rewrite Eb; split; [done | by left]) Es)
    as [HP1 HQ].
  destruct (IH _ _ _ HP1 Ed) as [HP2 HQs]. split; [done |]. by constructor.
Qed.

Lemma tick_from_invariant_ev (P : state -> Prop) (Q : event -> Prop) :
  (forall level n st ent st' ev,
      P st -> linked st ent level n ->
      drain_step level n ent st = Ok (st', ev) -> P st' /\ Q ev) ->
  (forall level x st, P st -> P (set_hand level (MOD_BY_BUCKETS x) st)) ->
  (forall level n, Q (EvVisit level n)) ->
  forall k fuel level st st' evs,
    P st -> tick_from k fuel level st = Ok (st', evs) -> P st' /\ Forall Q evs.
Proof.
  intros Hstep Hhand Hvisit k fuel.
  induction k as [| k IH]; intros level st st' evs HP; simpl;
    destruct (wheel (tm st) !! level) as [w |] eqn:Ew; try done;
    destruct (drain fuel level _ st) as [[st1 evs1] |] eqn:Ed; simpl; try done;
    destruct (drain_invariant_ev P Q level _ (Hstep level _) _ _ _ _ HP Ed)
      as [HP1 HQ1];
    destruct (_ && _); try done;
    try (intros [= <- <-]; split; [by apply Hhand | by constructor]).
  destruct (tick_from k fuel (S level) _) as [[st3 evs3] |] eqn:Et; simpl; [| done].
  intros [= <- <-].
  destruct (IH _ _ _ _ (Hhand level _ _ HP1) Et) as [HP3 HQ3].
  split; [done |]. constructor; [done |]. by apply Forall_app.
Qed.

Lemma ticks_invariant_ev (P : state -> Prop) (Q : event -> Prop) :
  (forall fuel st st' evs,
      P st -> ttimer_tick fuel st = Ok (st', evs) -> P st' /\ Forall Q evs) ->
  forall fuel k st st' evs,
    P st -> ticks fuel k st = Ok (st', evs) -> P st' /\ Forall (Forall Q) evs.
Proof.
  intros Htick fuel k. induction k as [| k IH]; intros st st' evs HP; simpl.
  - by intros [= <- <-].
  - destruct (ttimer_tick fuel st) as [[st1 evs1] |] eqn:Et; simpl; [| done].
    destruct (ticks fuel k st1) as [[st2 rest] |] eqn:Ek; simpl; [| done].
    intros [= <- <-]. destruct (Htick _ _ _ _ HP Et) as [HP1 HQ1].
    destruct (IH _ _ _ HP1 Ek) as [HP2 HQ2]. split; [done |]. by constructor.
Qed.

Lemma tick_from_invariant (P : state -> Prop) :
  (forall level n st ent st' ev,
      P st -> linked st ent level n ->
      drain_step level n ent st = Ok (st', ev) -> P st') ->
  (forall level x st, P st -> P (set_hand level (MOD_BY_BUCKETS x) st)) ->
  forall k fuel level st st' evs,
    P st -> tick_from k fuel level st = Ok (st', evs) -> P st'.
Proof.
  intros Hstep Hhand k fuel level st st' evs HP Ht.
  eapply (tick_from_invariant_ev P (fun _ => True)); eauto.
Qed.

(** ** The linkage invariant (C8) *)

Lemma ttimer_start_links_ok st ent timeout st' :
  links_ok st -> ttimer_start st ent timeout = Ok st' -> links_ok st'.
Proof.
  intros Hok (_ & Hfree & _ & lv & r & rem & _ & Hlv & ->)%ttimer_start_Ok.
  by apply links_ok_insert.
Qed.

Lemma ttimer_stop_links_ok st ent :
  links_ok st -> links_ok (ttimer_stop st ent).2.
Proof.
  intros Hok. unfold ttimer_stop.
  destruct (scheduled (mem st ent)); simpl; [| done].
  by apply links_ok_remove.
Qed.

Lemma drain_step_links_ok level n ent st st' ev :
  links_ok st -> drain_step level n ent st = Ok (st', ev) -> links_ok st'.
Proof.
  intros Hok H. apply drain_step_Ok in H as (_ & H).
  assert (Hok1 : links_ok (set_ref ent
      (mk_ref (remaining (mem st ent)) (func (mem st ent)) (arg (mem st ent)) false)
      (LIST_REMOVE ent st))) by by apply links_ok_remove.
  destruct H as [(_ & fn & _ & -> & _) | (_ & lv & r & new & _ & Hst & _)]; [done |].
  by eapply ttimer_start_links_ok.
Qed.

Lemma ttimer_tick_links_ok fuel st st' evs :
  links_ok st -> ttimer_tick fuel st = Ok (st', evs) -> links_ok st'.
Proof.
  apply (tick_from_invariant links_ok).
  - intros level n s ent s' ev Hok _. by apply drain_step_links_ok.
  - intros level x s. apply links_ok_set_hand.
Qed.

Lemma exec_op_links_ok fuel st o st' :
  links_ok st -> exec_op fuel st o = Ok st' -> links_ok st'.
Proof.
  intros Hok. destruct o as [ent timeout | ent |]; simpl.
  - by apply ttimer_start_links_ok.
  - intros [= <-]. by apply ttimer_stop_links_ok.
  - destruct (ttimer_tick fuel st) as [[s evs] |] eqn:Et; simpl; [| done].
    intros [= <-]. by eapply ttimer_tick_links_ok.
Qed.

Lemma links_ok_create (t : ttimer_t) (m : store) maxtimeout now :
  ttimer_create true maxtimeout now = Some t ->
  (forall ent, scheduled (m ent) = false) ->
  links_ok (mk_state t m).
Proof.
  intros [= <-] Hm.
  assert (Hnl : forall e l n, ~ linked
    (mk_state (mk_timer (create_levels maxtimeout) now
       (replicate (create_levels maxtimeout) (mk_wheel 0 ∅))) m) e l n).
  { intros e l n (w & Hw & Hin). simpl in Hw.
    apply lookup_replicate in Hw as [-> _].
    unfold bucket_get in Hin. simpl in Hin. rewrite lookup_empty in Hin.
    by apply elem_of_nil in Hin. }
  split; [| split].
  - intros level w n Hw. simpl in Hw. apply lookup_replicate in Hw as [-> _].
    unfold bucket_get. simpl. rewrite lookup_empty. apply NoDup_nil_2.
  - intros e l n l' n' H. by destruct (Hnl _ _ _ H).
  - intros e. simpl. rewrite Hm. split; [done |].
    intros (l & n & H). by destruct (Hnl _ _ _ H).
Qed.

(** The linkage invariant: a reference is on at most one bucket list, at
    most once, and its [scheduled] flag is set exactly when it is on one.
    It holds of a created wheel whose references are idle, and every call
    of ttimer_start, ttimer_stop and ttimer_tick that returns keeps it,
    hence so does every sequence of them that returns.  (A ttimer_start
    that leaves [wheel[]] does not return in this sense.) *)
Theorem links_ok_preserved (st : state) :
  links_ok st ->
  (forall ent timeout st', ttimer_start st ent timeout = Ok st' -> links_ok st') /\
  (forall ent, links_ok (ttimer_stop st ent).2) /\
  (forall fuel st' evs, ttimer_tick fuel st = Ok (st', evs) -> links_ok st') /\
  (forall fuel ops st', exec_ops fuel ops st = Ok st' -> links_ok st').
Proof.
  intros Hok. split; [| split; [| split]].
  - intros ent timeout st'. by apply ttimer_start_links_ok.
  - intros ent. by apply ttimer_stop_links_ok.
  - intros fuel st' evs. by apply ttimer_tick_links_ok.
  - intros fuel ops. revert st Hok.
    induction ops as [| o ops IH]; intros st Hok st'; simpl.
    + by intros [= <-].
    + destruct (exec_op fuel st o) as [st1 |] eqn:Eo; simpl; [| done].
      apply IH. by eapply exec_op_links_ok.
Qed.

(** ** Cancellation (C6) *)

Lemma drain_step_not_linked (ent : ref_id) level n e st st' ev :
  (forall l b, ~ linked st ent l b) -> linked st e level n ->
  drain_step level n e st = Ok (st', ev) ->
  (forall l b, ~ linked st' ent l b) /\ (forall fn a, ev <> EvFire ent fn a).
Proof.
  intros Hnl Hl H.
  assert (Hne : e <> ent) by (intros ->; by destruct (Hnl _ _ Hl)).
  apply drain_step_Ok in H as (_ & H).
  destruct H as [(_ & fn & _ & -> & ->) | (_ & lv & r & new & _ & Hst & ->)].
  - split; [| congruence]. intros l b H.
    apply linked_set_ref, linked_remove in H as [_ H]. by destruct (Hnl _ _ H).
  - split; [| done]. intros l b H.
    apply ttimer_start_Ok in Hst as (_ & _ & _ & lv' & r' & rem & _ & Hlv & ->).
    apply linked_set_ref in H. apply linked_insert in H; [| done].
    destruct H as [(? & _) | H]; [congruence |].
    apply linked_set_ref, linked_remove in H as [_ H]. by destruct (Hnl _ _ H).
Qed.

Lemma ticks_not_linked (ent : ref_id) fuel k st st' evs :
  (forall l b, ~ linked st ent l b) ->
  ticks fuel k st = Ok (st', evs) ->
  (forall l b, ~ linked st' ent l b) /\
  Forall (Forall (fun ev => forall fn a, ev <> EvFire ent fn a)) evs.
Proof.
  apply (ticks_invariant_ev (fun s => forall l b, ~ linked s ent l b)).
  intros f s s' es.
  apply (tick_from_invariant_ev (fun s => forall l b, ~ linked s ent l b)
           (fun ev => forall fn a, ev <> EvFire ent fn a)).
  - intros level n s0 e s1 ev. apply drain_step_not_linked.
  - intros level x s0 H l b. rewrite linked_set_hand. apply H.
  - done.
Qed.

(** C6: ttimer_stop on a scheduled reference returns true, takes the
    reference off its bucket list and clears [scheduled], leaves the other
    references and the hands alone, and no later tick calls its handler.
    On a reference that is not scheduled it returns false and changes
    nothing. *)
Theorem ttimer_stop_cancels (st : state) (ent : ref_id) :
  (scheduled (mem st ent) = true ->
   exists st',
     ttimer_stop st ent = (true, st') /\
     scheduled (mem st' ent) = false /\
     (forall l b, ~ linked st' ent l b) /\
     (forall e, e <> ent ->
        mem st' e = mem st e /\ forall l b, linked st' e l b <-> linked st e l b) /\
     hand <$> wheel (tm st') = hand <$> wheel (tm st) /\
     ttimer_stop st' ent = (false, st') /\
     forall fuel k st'' evs,
       ticks fuel k st' = Ok (st'', evs) ->
       forall fn a, EvFire ent fn a ∉ concat evs) /\
  (scheduled (mem st ent) = false -> ttimer_stop st ent = (false, st)).
Proof.
  unfold ttimer_stop. split; intros Hs; rewrite Hs; [| done].
  eexists. split; [done |].
  assert (Hnl : forall l b, ~ linked (set_ref ent
      (mk_ref (remaining (mem st ent)) (func (mem st ent)) (arg (mem st ent)) false)
      (LIST_REMOVE ent st)) ent l b).
  { intros l b H. apply linked_set_ref, linked_remove in H. by destruct H. }
  simpl. rewrite fn_lookup_insert. simpl.
  split; [done |]. split; [done |]. split; [| split; [| split; [done |]]].
  - intros e Hne. rewrite fn_lookup_insert_ne by done. split; [done |].
    intros l b. rewrite linked_set_ref, linked_remove. tauto.
  - rewrite <- list_fmap_compose. by apply list_fmap_ext.
  - intros fuel k st'' evs Ht fn a Hin.
    apply (ticks_not_linked ent) in Ht as [_ Hev]; [| done].
    apply list_elem_of_In, in_concat in Hin as (l & Hl & Hin).
    rewrite Forall_forall in Hev. specialize (Hev l ltac:(by apply list_elem_of_In)).
    rewrite Forall_forall in Hev.
    by apply (Hev _ ltac:(by apply list_elem_of_In) fn a).
Qed.

(** ** The state invariant *)

Lemma wheel_ok_remove st ent v :
  scheduled v = false -> wheel_ok st ->
  wheel_ok (set_ref ent v (LIST_REMOVE ent st)).
Proof.
  intros Hv (Hlen & Hlv & Hh & Hl & Hok). split; [| split; [| split; [| split]]].
  - simpl. by rewrite length_fmap.
  - done.
  - intros level w. simpl. rewrite list_lookup_fmap.
    destruct (wheel (tm st) !! level) as [w' |] eqn:E; [| done].
    intros [= <-]. simpl. eauto.
  - intros e level n H. apply linked_set_ref, linked_remove in H as [Hne H].
    simpl. rewrite fn_lookup_insert_ne by done. eauto.
  - by apply links_ok_remove.
Qed.

Lemma wheel_ok_insert st ent v lv r :
  scheduled v = true -> func v <> None -> remaining_ok lv (remaining v) ->
  scheduled (mem st ent) = false -> is_Some (wheel (tm st) !! lv) ->
  wheel_ok st ->
  wheel_ok (set_ref ent v (LIST_INSERT_HEAD lv r ent st)).
Proof.
  intros Hv Hf Hr Hfree Hlvl (Hlen & Hlv & Hh & Hl & Hok).
  assert (Hnl : forall l n, ~ linked st ent l n).
  { intros l n H. destruct Hok as (_ & _ & Hsch).
    assert (scheduled (mem st ent) = true) by (apply Hsch; eauto). congruence. }
  split; [| split; [| split; [| split]]].
  - simpl. by rewrite length_alter.
  - done.
  - intros level w. simpl. destruct (decide (lv = level)) as [-> | Hne].
    + rewrite list_lookup_alter_eq.
      destruct (wheel (tm st) !! level) as [w' |] eqn:E; [| done].
      intros [= <-]. simpl. eauto.
    + rewrite list_lookup_alter_ne by done. eauto.
  - intros e level n H. apply linked_set_ref in H.
    apply linked_insert in H; [| done]. simpl.
    destruct H as [(-> & -> & ->) | H].
    + by rewrite fn_lookup_insert.
    + rewrite fn_lookup_insert_ne; [eauto |]. intros ->. by destruct (Hnl _ _ H).
  - by apply links_ok_insert.
Qed.

Lemma wheel_ok_set_hand st level x :
  wheel_ok st -> wheel_ok (set_hand level (MOD_BY_BUCKETS x) st).
Proof.
  intros (Hlen & Hlv & Hh & Hl & Hok). split; [| split; [| split; [| split]]].
  - simpl. by rewrite length_alter.
  - done.
  - intros l w. simpl. destruct (decide (level = l)) as [-> | Hne].
    + rewrite list_lookup_alter_eq.
      destruct (wheel (tm st) !! l) as [w' |] eqn:E; [| done].
      intros [= <-]. simpl. rewrite MOD_BY_BUCKETS_mod. apply mod256_bound.
    + rewrite list_lookup_alter_ne by done. eauto.
  - intros e l n H. apply linked_set_hand in H. eauto.
  - by apply links_ok_set_hand.
Qed.

Lemma ttimer_start_wheel_ok st ent timeout st' :
  wheel_ok st -> ttimer_start st ent timeout = Ok st' -> wheel_ok st'.
Proof.
  intros Hok (Ht & Hfree & Hf & lv & r & rem & Hp & Hlv & ->)%ttimer_start_Ok.
  pose proof Hok as (_ & _ & Hh & _).
  apply start_place_bounds in Hp as (_ & _ & Hr & _); [| done | done].
  by apply wheel_ok_insert.
Qed.

Lemma ttimer_stop_wheel_ok st ent :
  wheel_ok st -> wheel_ok (ttimer_stop st ent).2.
Proof.
  intros Hok. unfold ttimer_stop.
  destruct (scheduled (mem st ent)); simpl; [| done].
  by apply wheel_ok_remove.
Qed.

Lemma linked_remaining_nonneg st ent level n :
  wheel_ok st -> linked st ent level n -> 0 <= remaining (mem st ent).
Proof.
  intros (_ & _ & _ & Hl & _) H. apply Hl in H as [_ H].
  destruct level as [| [| level]]; simpl in H; unfold WHEEL_BUCKETS in *; lia.
Qed.

Lemma drain_step_wheel_ok level n ent st st' ev :
  wheel_ok st -> linked st ent level n ->
  drain_step level n ent st = Ok (st', ev) -> wheel_ok st'.
Proof.
  intros Hok Hl H. apply drain_step_Ok in H as (_ & H).
  assert (Hok1 : wheel_ok (set_ref ent
      (mk_ref (remaining (mem st ent)) (func (mem st ent)) (arg (mem st ent)) false)
      (LIST_REMOVE ent st))) by by apply wheel_ok_remove.
  destruct H as [(_ & fn & _ & -> & _) | (_ & lv & r & new & _ & Hst & _)]; [done |].
  by eapply ttimer_start_wheel_ok.
Qed.

Lemma ttimer_tick_wheel_ok fuel st st' evs :
  wheel_ok st -> ttimer_tick fuel st = Ok (st', evs) -> wheel_ok st'.
Proof.
  apply (tick_from_invariant wheel_ok).
  - intros level n s ent s' ev. apply drain_step_wheel_ok.
  - intros level x s. apply wheel_ok_set_hand.
Qed.

Lemma exec_ops_wheel_ok fuel ops st st' :
  wheel_ok st -> exec_ops fuel ops st = Ok st' -> wheel_ok st'.
Proof.
  revert st. induction ops as [| o ops IH]; intros st Hok; simpl.
  - by intros [= <-].
  - destruct (exec_op fuel st o) as [st1 |] eqn:Eo; simpl; [| done].
    apply IH. destruct o as [ent timeout | ent |]; simpl in Eo.
    + by eapply ttimer_start_wheel_ok.
    + injection Eo as <-. by apply ttimer_stop_wheel_ok.
    + destruct (ttimer_tick fuel st) as [[s evs] |] eqn:Et; simpl in Eo; [| done].
      injection Eo as <-. by eapply ttimer_tick_wheel_ok.
Qed.

(** Every state reached from a created wheel and idle references by
    calls that respect the preconditions satisfies the invariant. *)
Lemma wheel_ok_create (t : ttimer_t) (m : store) maxtimeout now :
  ttimer_create true maxtimeout now = Some t ->
  (forall ent, scheduled (m ent) = false) ->
  wheel_ok (mk_state t m).
Proof.
  intros Hc Hm. pose proof (links_ok_create t m _ _ Hc Hm) as Hok.
  destruct (ttimer_create_shape maxtimeout now) as (t' & Hc' & _ & Hlv & _ & Hw).
  rewrite Hc in Hc'. injection Hc' as <-.
  split; [| split; [| split; [| split]]]; simpl.
  - by rewrite Hw, length_replicate.
  - done.
  - intros level w. rewrite Hw. intros [-> _]%lookup_replicate. simpl.
    unfold WHEEL_BUCKETS. lia.
  - intros e level n (w & Hl & Hin). simpl in Hl. rewrite Hw in Hl.
    apply lookup_replicate in Hl as [-> _].
    unfold bucket_get in Hin. simpl in Hin. rewrite lookup_empty in Hin.
    by apply elem_of_nil in Hin.
  - done.
Qed.

(** ** Termination of ttimer_tick (C10) *)

Lemma hands_remove st ent :
  hand <$> wheel (tm (LIST_REMOVE ent st)) = hand <$> wheel (tm st).
Proof. simpl. rewrite <- list_fmap_compose. by apply list_fmap_ext. Qed.

Lemma hands_insert st lv r ent :
  hand <$> wheel (tm (LIST_INSERT_HEAD lv r ent st)) = hand <$> wheel (tm st).
Proof.
  simpl. apply list_eq. intros i. rewrite !list_lookup_fmap.
  destruct (decide (lv = i)) as [-> | Hne].
  - rewrite list_lookup_alter_eq. by destruct (wheel (tm st) !! i).
  - by rewrite list_lookup_alter_ne.
Qed.

Lemma drain_step_hands level n ent st st' ev :
  drain_step level n ent st = Ok (st', ev) ->
  hand <$> wheel (tm st') = hand <$> wheel (tm st).
Proof.
  intros H. apply drain_step_Ok in H as (_ & H).
  destruct H as [(_ & fn & _ & -> & _) | (_ & lv & r & new & _ & Hst & _)].
  - apply hands_remove.
  - apply ttimer_start_Ok in Hst as (_ & _ & _ & lv' & r' & rem & _ & _ & ->).
    etrans; [| apply (hands_remove st ent)].
    apply (hands_insert (set_ref ent
      (mk_ref (remaining (mem st ent)) (func (mem st ent)) (arg (mem st ent)) false)
      (LIST_REMOVE ent st))).
Qed.

Lemma lower_hands_zero_hands level st st' :
  hand <$> wheel (tm st') = hand <$> wheel (tm st) ->
  lower_hands_zero level st -> lower_hands_zero level st'.
Proof.
  intros Hh Hz l w' Hl Hw'.
  assert (E : (hand <$> wheel (tm st')) !! l = (hand <$> wheel (tm st)) !! l)
    by by rewrite Hh.
  rewrite !list_lookup_fmap, Hw' in E. simpl in E.
  destruct (wheel (tm st) !! l) as [w |] eqn:Ew; [| done].
  injection E as ->. eauto.
Qed.

Lemma list_weight_ext (m1 m2 : store) (l : list ref_id) :
  (forall e, e ∈ l -> m1 e = m2 e) -> list_weight m1 l = list_weight m2 l.
Proof.
  induction l as [| x l IH]; intros H; simpl; [done |].
  rewrite H by (by left). rewrite IH; [done |]. intros e He. apply H. by right.
Qed.

Lemma filter_not_in (ent : ref_id) (l : list ref_id) :
  ent ∉ l -> filter (fun x => x <> ent) l = l.
Proof.
  induction l as [| x l IH]; intros H; [done |].
  apply not_elem_of_cons in H as [Hne Hl].
  rewrite filter_cons_True by done. by rewrite IH.
Qed.

(** What one iteration does to the list it takes its entry from. *)
Lemma drain_step_bucket level n ent l w st st' ev :
  wheel_ok st -> wheel (tm st) !! level = Some w ->
  bucket_get w n = ent :: l ->
  drain_step level n ent st = Ok (st', ev) ->
  (forall e, e <> ent -> mem st' e = mem st e) /\
  exists w', wheel (tm st') !! level = Some w' /\
    (bucket_get w' n = l \/
     (bucket_get w' n = ent :: l /\
      0 <= remaining (mem st' ent) < remaining (mem st ent))).
Proof.
  intros Hok Hw Hb H. pose proof Hok as (_ & _ & Hh & _ & Hnd & _).
  assert (Hnin : ent ∉ l).
  { specialize (Hnd _ _ n Hw). rewrite Hb in Hnd. by apply NoDup_cons in Hnd as [? _]. }
  assert (Hb1 : bucket_get (unlink_wheel ent w) n = l).
  { rewrite bucket_get_unlink, Hb, filter_cons_False by (intros ?; done).
    by apply filter_not_in. }
  assert (Hpos : 0 <= remaining (mem st ent)).
  { eapply linked_remaining_nonneg; [done |]. exists w. rewrite Hb.
    split; [done | by left]. }
  apply drain_step_Ok in H as (_ & H).
  destruct H as [(_ & fn & _ & -> & _) | (Hnz & lv & r & new & _ & Hst & _)].
  - split; [intros e Hne; simpl; by rewrite fn_lookup_insert_ne |].
    exists (unlink_wheel ent w). simpl. rewrite list_lookup_fmap, Hw. eauto.
  - apply ttimer_start_Ok in Hst as (Ht & _ & _ & lv' & r' & rem & Hp & Hlv & ->).
    split; [intros e Hne; simpl; by rewrite !fn_lookup_insert_ne |].
    apply start_place_bounds in Hp as (_ & _ & _ & Hrem).
    2:{ intros lx wx. simpl. rewrite list_lookup_fmap.
        destruct (wheel (tm st) !! lx) as [wy |] eqn:E; [| done].
        intros [= <-]. simpl. eauto. }
    2:{ simpl. lia. }
    simpl in Hrem. simpl. rewrite fn_lookup_insert. simpl.
    destruct (decide (lv' = level)) as [-> | Hne].
    + rewrite list_lookup_alter_eq, list_lookup_fmap, Hw. simpl.
      eexists. split; [done |].
      rewrite (bucket_get_push (unlink_wheel ent w)).
      case_decide as En; [right | left]; [rewrite <- En |]; by rewrite Hb1.
    + rewrite list_lookup_alter_ne, list_lookup_fmap, Hw by done. simpl. eauto.
Qed.

Lemma drain_step_weight level n ent l w st st' ev :
  wheel_ok st -> wheel (tm st) !! level = Some w ->
  bucket_get w n = ent :: l ->
  drain_step level n ent st = Ok (st', ev) ->
  (bucket_weight st' level n < bucket_weight st level n)%nat.
Proof.
  intros Hok Hw Hb H. pose proof Hok as (_ & _ & _ & _ & Hnd & _).
  assert (Hnin : ent ∉ l).
  { specialize (Hnd _ _ n Hw). rewrite Hb in Hnd. by apply NoDup_cons in Hnd as [? _]. }
  destruct (drain_step_bucket _ _ _ _ _ _ _ _ Hok Hw Hb H) as (Hm & w' & Hw' & Hcase).
  unfold bucket_weight. rewrite Hw, Hw', Hb.
  assert (E : list_weight (mem st') l = list_weight (mem st) l).
  { apply list_weight_ext. intros e He. apply Hm. intros ->. done. }
  destruct Hcase as [-> | [-> Hlt]]; simpl; rewrite E; lia.
Qed.

Lemma hands_lookup st st' l :
  hand <$> wheel (tm st') = hand <$> wheel (tm st) ->
  hand <$> wheel (tm st') !! l = hand <$> wheel (tm st) !! l.
Proof. intros H. by rewrite <- !list_lookup_fmap, H. Qed.

Lemma hands_is_Some st st' l :
  hand <$> wheel (tm st') = hand <$> wheel (tm st) ->
  is_Some (wheel (tm st) !! l) -> is_Some (wheel (tm st') !! l).
Proof.
  intros H [w Hw]. apply (hands_lookup _ _ l) in H. rewrite Hw in H.
  destruct (wheel (tm st') !! l); [eauto | done].
Qed.

Lemma drain_step_total level n ent st :
  wheel_ok st -> lower_hands_zero level st -> linked st ent level n ->
  exists st' ev,
    drain_step level n ent st = Ok (st', ev) /\ ev_decreasing ev /\
    visited_levels [ev] = [].
Proof.
  intros Hok Hz Hl. pose proof Hok as (Hlen & Hlv & Hh & Hlk & _ & _ & Hsch).
  assert (Hs : scheduled (mem st ent) = true) by (apply Hsch; eauto).
  destruct (Hlk _ _ _ Hl) as [Hf Hr].
  unfold drain_step. rewrite Hs. simpl.
  destruct (Z.eqb_spec (remaining (mem st ent)) 0) as [E | E]; simpl.
  { destruct (func (mem st ent)) as [fn |]; [| done].
    eexists _, _. split; [reflexivity | done]. }
  set (st1 := set_ref ent
      (mk_ref (remaining (mem st ent)) (func (mem st ent)) (arg (mem st ent)) false)
      (LIST_REMOVE ent st)).
  assert (Hh1 : forall lx wx, wheel (tm st1) !! lx = Some wx ->
                              0 <= hand wx < WHEEL_BUCKETS).
  { intros lx wx. simpl. rewrite list_lookup_fmap.
    destruct (wheel (tm st) !! lx) as [wy |] eqn:Ey; [| done].
    intros [= <-]. simpl. eauto. }
  assert (Hpos : 0 < remaining (mem st ent)).
  { pose proof (linked_remaining_nonneg _ _ _ _ Hok Hl). lia. }
  assert (Hp : exists p, start_place (tm st1) (remaining (mem st ent)) = Ok p).
  { destruct Hl as (w & Hw & _).
    destruct level as [| [| level]]; simpl in Hr.
    - done.
    - assert (is_Some (wheel (tm st) !! 0%nat)) as [w0 Hw0].
      { apply lookup_lt_is_Some. apply lookup_lt_Some in Hw. lia. }
      assert (hand w0 = 0) as H0 by (apply (Hz 0%nat); [lia | done]).
      eexists. apply (start_place_level0 _ _ (unlink_wheel ent w0)).
      + simpl. by rewrite list_lookup_fmap, Hw0.
      + simpl. rewrite H0. lia.
    - apply start_place_total. simpl. rewrite length_fmap.
      apply lookup_lt_Some in Hw. unfold WHEEL_MAX_LEVELS in *. lia. }
  destruct Hp as [[[lv r] new] Hp].
  destruct (start_place_bounds _ _ _ _ _ Hh1 Hpos Hp) as (Hlv' & _ & _ & Hnew).
  assert (Hst : ttimer_start st1 ent (remaining (mem st ent)) =
    Ok (set_ref ent (mk_ref new (func (mem st1 ent)) (arg (mem st1 ent)) true)
          (LIST_INSERT_HEAD lv r ent st1))).
  { apply ttimer_start_Ok. simpl. rewrite fn_lookup_insert. simpl.
    repeat split; try done. exists lv, r, new. done. }
  rewrite Hst. unfold mbind, res_bind. cbv beta iota.
  unfold st1 in Hp. simpl in Hp. rewrite Hp.
  eexists _, _. split; [reflexivity |]. split; [simpl; lia | done].
Qed.

Lemma drain_fuel_mono fuel fuel' level n st r :
  drain fuel level n st = Ok r -> (fuel <= fuel')%nat ->
  drain fuel' level n st = Ok r.
Proof.
  revert fuel' st r. induction fuel as [| fuel IH]; intros fuel' st r H Hle.
  - destruct fuel'; simpl in *; [done |].
    destruct (wheel (tm st) !! level) as [w |]; [| done].
    by destruct (bucket_get w n).
  - destruct fuel' as [| fuel']; [lia |]. simpl in *.
    destruct (wheel (tm st) !! level) as [w |]; [| done].
    destruct (bucket_get w n) as [| ent l]; [done |].
    destruct (drain_step level n ent st) as [[st1 ev] |]; simpl in *; [| done].
    destruct (drain fuel level n st1) as [[st2 evs] |] eqn:Ed; simpl in *; [| done].
    rewrite (IH fuel' _ _ Ed) by lia. done.
Qed.

Lemma drain_total level n fuel st :
  wheel_ok st -> lower_hands_zero level st ->
  is_Some (wheel (tm st) !! level) ->
  (bucket_weight st level n <= fuel)%nat ->
  exists st' evs,
    drain fuel level n st = Ok (st', evs) /\
    wheel_ok st' /\ hand <$> wheel (tm st') = hand <$> wheel (tm st) /\
    Forall ev_decreasing evs /\ visited_levels evs = [].
Proof.
  revert st. induction fuel as [| fuel IH]; intros st Hok Hz [w Hw] Hwt;
    unfold bucket_weight in Hwt; rewrite Hw in Hwt; simpl; rewrite Hw;
    destruct (bucket_get w n) as [| ent l] eqn:Eb;
    try (exists st, []; done); simpl in Hwt; [lia |].
  assert (Hl : linked st ent level n).
  { exists w. rewrite Eb. split; [done | by left]. }
  destruct (drain_step_total _ _ _ _ Hok Hz Hl) as (st1 & ev & Hs & Hev & Hv).
  pose proof (drain_step_weight _ _ _ _ _ _ _ _ Hok Hw Eb Hs) as Hlt.
  pose proof (drain_step_hands _ _ _ _ _ _ Hs) as Hh.
  destruct (IH st1) as (st2 & evs & Hd & Hok2 & Hh2 & Hevs & Hvs).
  - by eapply drain_step_wheel_ok.
  - by eapply lower_hands_zero_hands.
  - eapply hands_is_Some; eauto.
  - unfold bucket_weight in Hlt at 2. rewrite Hw, Eb in Hlt. simpl in Hlt. lia.
  - exists st2, (ev :: evs). rewrite Hs. simpl. rewrite Hd. simpl.
    split; [done |]. split; [done |]. split; [by rewrite Hh2 |].
    split; [by constructor |].
    unfold visited_levels in *. destruct ev; simpl in *; done.
Qed.

Lemma tick_from_fuel_mono k fuel fuel' level st r :
  tick_from k fuel level st = Ok r -> (fuel <= fuel')%nat ->
  tick_from k fuel' level st = Ok r.
Proof.
  revert level st r. induction k as [| k IH]; intros level st r H Hle; simpl in *;
    destruct (wheel (tm st) !! level) as [w |]; try done;
    destruct (drain fuel level _ st) as [[st1 evs] |] eqn:Ed; simpl in *; try done;
    rewrite (drain_fuel_mono _ fuel' _ _ _ _ Ed Hle); simpl;
    destruct (_ && _); try done.
  destruct (tick_from k fuel (S level) _) as [[st3 evs3] |] eqn:Et; simpl in *;
    [| done].
  by rewrite (IH _ _ _ Et Hle).
Qed.

Lemma visited_levels_visit l n evs :
  visited_levels (EvVisit l n :: evs) = l :: visited_levels evs.
Proof. done. Qed.

Lemma visited_levels_app evs evs' :
  visited_levels (evs ++ evs') = visited_levels evs ++ visited_levels evs'.
Proof. apply omap_app. Qed.

Lemma tick_from_total k level st :
  wheel_ok st -> lower_hands_zero level st ->
  (level < length (wheel (tm st)))%nat ->
  (length (wheel (tm st)) <= level + S k)%nat ->
  exists fuel0 st' evs,
    tick_from k fuel0 level st = Ok (st', evs) /\
    wheel_ok st' /\ Forall ev_decreasing evs /\
    exists c, visited_levels evs = seq level c /\
              (1 <= c <= length (wheel (tm st)) - level)%nat.
Proof.
  revert level st. induction k as [| k IH]; intros level st Hok Hz Hlt Hk;
    destruct (lookup_lt_is_Some_2 _ _ Hlt) as [w Hw];
    set (n := MOD_BY_BUCKETS (u32 (hand w + 1)));
    destruct (drain_total level n (bucket_weight st level n) st Hok Hz
                ltac:(eauto) ltac:(lia))
      as (st1 & evs1 & Hd & Hok1 & Hh1 & Hev1 & Hv1);
    assert (Hlen1 : length (wheel (tm st1)) = length (wheel (tm st)))
      by (apply (f_equal length) in Hh1; by rewrite !length_fmap in Hh1);
    assert (Hlv1 : levels (tm st1) = length (wheel (tm st)))
      by (destruct Hok1 as (-> & _); done);
    pose proof (wheel_ok_set_hand st1 level (u32 (hand w + 1)) Hok1) as Hok2;
    fold n in Hok2.
  - exists (bucket_weight st level n), (set_hand level n st1), (EvVisit level n :: evs1).
    cbn [tick_from]. rewrite Hw. fold n. rewrite Hd.
    unfold mbind at 1, res_bind at 1. cbv beta iota.
    change (levels (tm (set_hand level n st1))) with (levels (tm st1)).
    rewrite Hlv1.
    replace (S level <? length (wheel (tm st)))%nat with false
      by (symmetry; apply Nat.ltb_ge; lia).
    rewrite andb_false_r. split; [done |]. split; [done |].
    split; [by constructor |]. exists 1%nat.
    rewrite visited_levels_visit, Hv1. split; [done | lia].
  - destruct ((n =? 0) && (S level <? length (wheel (tm st)))%nat) eqn:Ec.
    + apply andb_true_iff in Ec as [En Elt].
      apply Z.eqb_eq in En. apply Nat.ltb_lt in Elt.
      destruct (IH (S level) (set_hand level n st1)) as
          (fuel1 & st3 & evs3 & Ht & Hok3 & Hev3 & c & Hv3 & Hc).
      * done.
      * intros l w' Hl. simpl. destruct (decide (level = l)) as [<- | Hne].
        -- rewrite list_lookup_alter_eq.
           destruct (wheel (tm st1) !! level); [| done]. by intros [= <-].
        -- rewrite list_lookup_alter_ne by done.
           apply (lower_hands_zero_hands level st st1 Hh1 Hz). lia.
      * simpl. rewrite length_alter. lia.
      * simpl. rewrite length_alter. lia.
      * exists (Nat.max (bucket_weight st level n) fuel1), st3,
          (EvVisit level n :: evs1 ++ evs3).
        cbn [tick_from]. rewrite Hw. fold n.
        rewrite (drain_fuel_mono _ (Nat.max (bucket_weight st level n) fuel1)
                   _ _ _ _ Hd) by lia.
        unfold mbind at 1, res_bind at 1. cbv beta iota.
        change (levels (tm (set_hand level n st1))) with (levels (tm st1)).
        rewrite Hlv1.
        replace ((n =? 0) && (S level <? length (wheel (tm st)))%nat) with true
          by (symmetry; apply andb_true_iff; split;
              [by apply Z.eqb_eq | by apply Nat.ltb_lt]).
        rewrite (tick_from_fuel_mono _ _ (Nat.max (bucket_weight st level n) fuel1)
                   _ _ _ Ht) by lia.
        unfold mbind, res_bind. cbv beta iota.
        split; [done |]. split; [done |].
        split; [constructor; [done | by apply Forall_app] |].
        exists (S c).
        rewrite visited_levels_visit, visited_levels_app, Hv1, Hv3.
        simpl in Hc. rewrite length_alter in Hc. split; [done | lia].
    + exists (bucket_weight st level n), (set_hand level n st1), (EvVisit level n :: evs1).
      cbn [tick_from]. rewrite Hw. fold n. rewrite Hd.
      unfold mbind at 1, res_bind at 1. cbv beta iota.
      change (levels (tm (set_hand level n st1))) with (levels (tm st1)).
      rewrite Hlv1, Ec.
      split; [done |]. split; [done |].
      split; [by constructor |]. exists 1%nat.
      rewrite visited_levels_visit, Hv1. split; [done | lia].
Qed.

(** C10: on a state that satisfies the invariant, ttimer_tick returns, with
    any fuel from some bound on; it works on levels 0, 1, ... in order, on
    each at most once; and an entry that a drain re-schedules gets a
    remaining time strictly below the one it had. *)
Theorem ttimer_tick_terminates (st : state) :
  wheel_ok st ->
  exists fuel0 st' evs,
    (forall fuel, (fuel0 <= fuel)%nat -> ttimer_tick fuel st = Ok (st', evs)) /\
    wheel_ok st' /\
    (exists c, visited_levels evs = seq 0 c /\ (1 <= c <= levels (tm st))%nat) /\
    NoDup (visited_levels evs) /\
    Forall ev_decreasing evs.
Proof.
  intros Hok. pose proof Hok as (Hlen & Hlv & _).
  destruct (tick_from_total (levels (tm st)) 0 st Hok) as
      (fuel0 & st' & evs & Ht & Hok' & Hev & c & Hv & Hc).
  - intros l w Hl. lia.
  - lia.
  - lia.
  - exists fuel0, st', evs. split; [| split; [done | split; [| split; [| done]]]].
    + intros fuel Hle. by apply (tick_from_fuel_mono _ fuel0).
    + exists c. split; [done | lia].
    + rewrite Hv. apply NoDup_seq.
Qed.

(** ** Firing in the tick of a re-scheduling (C9) *)

Lemma fires_fresh_app p evs evs' :
  fires_fresh p evs -> fires_fresh (notes evs p) evs' ->
  fires_fresh p (evs ++ evs').
Proof.
  revert p. induction evs as [| ev evs IH]; intros p H H'; simpl in *; [done |].
  destruct H as [H1 H2]. split; [done |]. by apply IH.
Qed.

Lemma fires_fresh_app_inv p evs evs' :
  fires_fresh p (evs ++ evs') -> fires_fresh (notes evs p) evs'.
Proof.
  revert p. induction evs as [| ev evs IH]; intros p H; simpl in *; [done |].
  destruct H as [_ H]. by apply IH.
Qed.

Lemma notes_other (ent : ref_id) evs p :
  (forall ev, ev ∈ evs -> ev_ref ev <> Some ent) -> notes evs p ent = p ent.
Proof.
  revert p. induction evs as [| ev evs IH]; intros p H; simpl; [done |].
  unfold notes in IH. rewrite IH by (intros ev' Hin; apply H; by right).
  assert (Hev : ev_ref ev <> Some ent) by (apply H; by left).
  destruct ev as [| cl cn e old lv r new | e fn a]; simpl in *; try done;
    rewrite fn_lookup_insert_ne; congruence.
Qed.

(** The property in terms of positions in the list of events. *)
Lemma fires_fresh_between p pre mid post cl cn ent old lv r new fn a :
  fires_fresh p (pre ++ EvRequeue cl cn ent old lv r new :: mid
                     ++ EvFire ent fn a :: post) ->
  (forall ev, ev ∈ mid -> ev_ref ev <> Some ent) ->
  lv = cl /\ r = cn /\ new = 0.
Proof.
  intros H Hmid. apply fires_fresh_app_inv in H. simpl in H. destruct H as [_ H].
  apply fires_fresh_app_inv in H. simpl in H. destruct H as [H _].
  rewrite notes_other in H by done. by rewrite fn_lookup_insert in H.
Qed.

Lemma linked_after_drain_step level n ent st st' ev e l b :
  e <> ent -> drain_step level n ent st = Ok (st', ev) ->
  (linked st' e l b <-> linked st e l b) /\ mem st' e = mem st e.
Proof.
  intros Hne H. apply drain_step_Ok in H as (_ & H).
  destruct H as [(_ & fn & _ & -> & _) | (_ & lv & r & new & _ & Hst & _)].
  - simpl. rewrite fn_lookup_insert_ne by done. split; [| done].
    rewrite linked_set_ref, linked_remove. tauto.
  - apply ttimer_start_Ok in Hst as (_ & _ & _ & lv' & r' & rem & _ & Hlv & ->).
    simpl. rewrite !(fn_lookup_insert_ne _ ent e) by done. split; [| done].
    rewrite linked_set_ref, linked_insert by done.
    rewrite linked_set_ref, linked_remove. split; [| tauto].
    intros [(? & _) | [_ ?]]; done.
Qed.

Lemma drain_step_fresh level n ent st st' ev p :
  wheel_ok st -> lower_hands_zero level st -> linked st ent level n ->
  pending_ok level n p st ->
  drain_step level n ent st = Ok (st', ev) ->
  fires_fresh p [ev] /\ pending_ok level n (note ev p) st'.
Proof.
  intros Hok Hz Hl Hp H.
  pose proof Hok as (Hlen & Hlv & Hh & Hlk & _ & Huniq & _).
  pose proof (fun e l b (Hne : e <> ent) =>
                linked_after_drain_step _ _ _ _ _ _ e l b Hne H) as Hother.
  assert (Hrest : forall e cl cn lv r new,
      e <> ent -> p e = Some (cl, cn, lv, r, new) ->
      linked st' e lv r /\ remaining (mem st' e) = new /\
      (lv <= cl)%nat /\ ((cl < level)%nat \/ (cl = level /\ cn = n))).
  { intros e cl cn lv r new Hne Ep.
    destruct (Hp _ _ _ _ _ _ Ep) as (Hl' & Hrem & Hle & Hcl).
    destruct (Hother e lv r Hne) as [Hlk' Hm]. rewrite Hm.
    split; [by apply Hlk' | done]. }
  pose proof H as H'. apply drain_step_Ok in H' as (_ & H').
  destruct H' as [(Hz0 & fn & _ & Est & ->) | (Hnz & lv & r & new & Hpl & Hst & ->)].
  - split.
    + simpl. split; [| done].
      destruct (p ent) as [[[[[cl cn] lv] r] new] |] eqn:Ep; [| done].
      destruct (Hp _ _ _ _ _ _ Ep) as (Hl' & Hrem & Hle & Hcl).
      destruct (Huniq _ _ _ _ _ Hl Hl') as [<- <-].
      split; [lia |]. split; [| congruence].
      destruct Hcl as [? | [_ ->]]; [lia | done].
    + intros e cl cn lv r new Ep. simpl in Ep.
      destruct (decide (e = ent)) as [-> | Hne];
        [by rewrite fn_lookup_insert in Ep
        | rewrite fn_lookup_insert_ne in Ep by done].
      by apply Hrest.
  - split; [done |].
    apply ttimer_start_Ok in Hst as (Ht & _ & _ & lv' & r' & rem & Hpl' & Hlv' & Est).
    rewrite Hpl in Hpl'. injection Hpl' as <- <- <-.
    intros e cl cn lv0 r0 new0 Ep. simpl in Ep.
    destruct (decide (e = ent)) as [-> | Hne];
      [rewrite fn_lookup_insert in Ep
      | rewrite fn_lookup_insert_ne in Ep by done; by apply Hrest].
    injection Ep as <- <- <- <- <-. rewrite Est.
    split; [apply linked_set_ref, linked_insert; auto |].
    split; [simpl; by rewrite fn_lookup_insert |]. split; [| by right].
    destruct (Hlk _ _ _ Hl) as [_ Hr].
    destruct level as [| [| level]]; simpl in Hr; [lia | |].
    + destruct Hl as (w & Hw & _).
      assert (is_Some (wheel (tm st) !! 0%nat)) as [w0 Hw0].
      { apply lookup_lt_is_Some. apply lookup_lt_Some in Hw. lia. }
      assert (hand w0 = 0) as H0 by (apply (Hz 0%nat); [lia | done]).
      rewrite (start_place_level0 _ _ (unlink_wheel ent w0)) in Hpl.
      * injection Hpl as <- _ _. lia.
      * simpl. by rewrite list_lookup_fmap, Hw0.
      * simpl. unfold WHEEL_BUCKETS in *. lia.
    + destruct Hlv' as [w' Hw']. apply lookup_lt_Some in Hw'. simpl in Hw'.
      rewrite length_fmap in Hw'. unfold WHEEL_MAX_LEVELS in *. lia.
Qed.

Lemma drain_fresh level n fuel st st' evs p :
  wheel_ok st -> lower_hands_zero level st -> pending_ok level n p st ->
  drain fuel level n st = Ok (st', evs) ->
  fires_fresh p evs /\ pending_ok level n (notes evs p) st' /\
  wheel_ok st' /\ hand <$> wheel (tm st') = hand <$> wheel (tm st).
Proof.
  revert st p evs. induction fuel as [| fuel IH]; intros st p evs Hok Hz Hp; simpl;
    destruct (wheel (tm st) !! level) as [w |] eqn:Ew; try done;
    destruct (bucket_get w n) as [| ent l] eqn:Eb; try done;
    try (by intros [= <- <-]).
  destruct (drain_step level n ent st) as [[st1 ev] |] eqn:Es; simpl; [| done].
  destruct (drain fuel level n st1) as [[st2 evs'] |] eqn:Ed; simpl; [| done].
  intros [= <- <-].
  assert (Hl : linked st ent level n).
  { exists w. rewrite Eb. split; [done | by left]. }
  destruct (drain_step_fresh _ _ _ _ _ _ _ Hok Hz Hl Hp Es) as [[Hf _] Hp1].
  pose proof (drain_step_hands _ _ _ _ _ _ Es) as Hh.
  destruct (IH st1 (note ev p) evs') as (Hf' & Hp2 & Hok2 & Hh2); try done.
  - by eapply drain_step_wheel_ok.
  - by eapply lower_hands_zero_hands.
  - split; [by split |]. split; [done |]. split; [done |]. by rewrite Hh2.
Qed.

Lemma lower_hands_zero_next level st :
  lower_hands_zero level st -> lower_hands_zero (S level) (set_hand level 0 st).
Proof.
  intros Hz l w' Hl. simpl. destruct (decide (level = l)) as [<- | Hne].
  - rewrite list_lookup_alter_eq.
    destruct (wheel (tm st) !! level); [| done]. by intros [= <-].
  - rewrite list_lookup_alter_ne by done. apply Hz. lia.
Qed.

Lemma tick_from_fresh k fuel level st st' evs p :
  wheel_ok st -> lower_hands_zero level st ->
  (forall ent cl cn lv r new,
      p ent = Some (cl, cn, lv, r, new) ->
      linked st ent lv r /\ remaining (mem st ent) = new /\
      (lv <= cl)%nat /\ (cl < level)%nat) ->
  tick_from k fuel level st = Ok (st', evs) -> fires_fresh p evs.
Proof.
  revert level st st' evs p.
  induction k as [| k IH]; intros level st st' evs p Hok Hz Hp; simpl;
    destruct (wheel (tm st) !! level) as [w |] eqn:Ew; try done;
    destruct (drain fuel level _ st) as [[st1 evs1] |] eqn:Ed; simpl; try done;
    (destruct (drain_fresh _ _ _ _ _ _ p Hok Hz ltac:(intros ? ? ? ? ? ? Hq;
       destruct (Hp _ _ _ _ _ _ Hq) as (? & ? & ? & ?); auto) Ed)
      as (Hf1 & Hp1 & Hok1 & Hh1));
    destruct (_ =? 0) eqn:En; simpl;
    try (intros [= <- <-]; split; [done |]; done);
    destruct (_ <? _)%nat; try (intros [= <- <-]; split; [done |]; done);
    try done.
  destruct (tick_from k fuel (S level) _) as [[st3 evs3] |] eqn:Et; simpl; [| done].
  intros [= <- <-]. split; [done |]. simpl. apply fires_fresh_app; [done |].
  apply Z.eqb_eq in En. rewrite En in Et.
  eapply (IH (S level)); [| | | exact Et].
  - exact (wheel_ok_set_hand st1 level 0 Hok1).
  - apply lower_hands_zero_next. by eapply lower_hands_zero_hands.
  - intros ent cl cn lv r new Hq.
    destruct (Hp1 _ _ _ _ _ _ Hq) as (Hl & Hrem & Hle & Hcl).
    split; [by apply linked_set_hand |]. split; [done |]. split; [done |].
    destruct Hcl as [? | [-> _]]; lia.
Qed.

(** The last re-scheduling before a call.  Take a tick from a state that
    satisfies the invariant, and in it a reference [ent] that the drain of
    bucket [cn] of level [cl] finds with a remaining time [old] other than
    0 and re-schedules into bucket [r] of level [lv] with remaining time
    [new].  If the handler of [ent] is called later in this tick, with
    nothing happening to [ent] in between, then the re-scheduling went
    into the bucket being drained and left no remaining time. *)
Theorem requeued_fires_via_current_bucket (fuel : nat) (st st' : state)
    (evs : list event) :
  wheel_ok st ->
  ttimer_tick fuel st = Ok (st', evs) ->
  forall pre mid post cl cn ent old lv r new fn a,
    evs = pre ++ EvRequeue cl cn ent old lv r new :: mid
              ++ EvFire ent fn a :: post ->
    (forall ev, ev ∈ mid -> ev_ref ev <> Some ent) ->
    lv = cl /\ r = cn /\ new = 0.
Proof.
  intros Hok Ht pre mid post cl cn ent old lv r new fn a -> Hmid.
  eapply (fires_fresh_between (fun _ => None)); [| exact Hmid].
  eapply tick_from_fresh; [exact Hok | | | exact Ht].
  - intros l w Hl. lia.
  - done.
Qed.

(** ** Ticks that find nothing to do *)

Lemma succ_divmod (x : Z) :
  (x + 1) mod 256 = (x mod 256 + 1) mod 256 /\
  (x + 1) / 256 = if (x mod 256 + 1) mod 256 =? 0 then x / 256 + 1 else x / 256.
Proof.
  pose proof (divmod256 x) as D. pose proof (mod256_bound x) as B.
  destruct (Z.eq_dec (x mod 256) 255) as [E | E].
  - rewrite E. change ((255 + 1) mod 256) with 0. simpl.
    replace (x + 1) with (0 + (x / 256 + 1) * 256) by lia.
    rewrite Z.mod_add, Z.div_add by lia. done.
  - rewrite (Z.mod_small (x mod 256 + 1)) by lia.
    replace (x + 1) with ((x mod 256 + 1) + (x / 256) * 256) by lia.
    rewrite Z.mod_add, Z.div_add by lia.
    rewrite Z.mod_small, (Z.div_small (x mod 256 + 1)) by lia.
    destruct (Z.eqb_spec (x mod 256 + 1) 0); [lia |]. split; lia.
Qed.

Lemma hands_of_succ (H : Z) :
  hands_of (H + 1) =
  let n0 := (H mod 256 + 1) mod 256 in
  let n1 := ((H / 256) mod 256 + 1) mod 256 in
  let n2 := ((H / 256 / 256) mod 256 + 1) mod 256 in
  if n0 =? 0 then
    if n1 =? 0 then [0; 0; n2] else [0; n1; (H / 256 / 256) mod 256]
  else [n0; (H / 256) mod 256; (H / 256 / 256) mod 256].
Proof.
  unfold hands_of. cbn zeta.
  destruct (succ_divmod H) as [M0 D0]. rewrite M0, D0.
  destruct (Z.eqb_spec ((H mod 256 + 1) mod 256) 0) as [E0 | E0]; [| done].
  destruct (succ_divmod (H / 256)) as [M1 D1]. rewrite E0, M1, D1.
  destruct (Z.eqb_spec (((H / 256) mod 256 + 1) mod 256) 0) as [E1 | E1]; [| done].
  destruct (succ_divmod (H / 256 / 256)) as [M2 _]. by rewrite E1, M2.
Qed.

Lemma hands_of_low_zero (X b : Z) :
  hands_of X = [0; 0; b] -> X mod 16777216 = 65536 * b.
Proof.
  unfold hands_of. intros [= E0 E1 E2].
  pose proof (divmod256 X) as D0. pose proof (divmod256 (X / 256)) as D1.
  pose proof (divmod256 (X / 256 / 256)) as D2.
  pose proof (mod256_bound (X / 256 / 256)) as B2.
  symmetry. apply (Z.mod_unique_pos _ _ (X / 256 / 256 / 256)); lia.
Qed.

Lemma drain_empty fuel level n st w :
  wheel (tm st) !! level = Some w -> bucket_get w n = [] ->
  drain fuel level n st = Ok (st, []).
Proof. intros Hw Hb. destruct fuel; simpl; by rewrite Hw, Hb. Qed.

Lemma all_empty_get (w : twheel_t) (n : Z) :
  all_empty w = true -> bucket_get w n = [].
Proof.
  unfold all_empty, bucket_get. intros H%bool_decide_eq_true.
  destruct (bucket w !! n) as [v |] eqn:E; [| done]. exact (H _ _ E).
Qed.

Lemma only_bucket_get (b0 : Z) (w : twheel_t) (n : Z) :
  only_bucket b0 w = true -> n <> b0 -> bucket_get w n = [].
Proof.
  unfold only_bucket, bucket_get. intros H%bool_decide_eq_true Hne.
  destruct (bucket w !! n) as [v |] eqn:E; [| done].
  by destruct (H _ _ E) as [-> | ->].
Qed.

Lemma quiet_inv (b0 : Z) (st : state) :
  quiet b0 st = true ->
  exists w0 w1 w2,
    wheel (tm st) = [w0; w1; w2] /\ levels (tm st) = 3%nat /\
    all_empty w0 = true /\ all_empty w1 = true /\ only_bucket b0 w2 = true.
Proof.
  unfold quiet. destruct (wheel (tm st)) as [| w0 [| w1 [| w2 [| ? ?]]]]; try done.
  intros H. apply andb_true_iff in H as [H Hlv].
  apply andb_true_iff in H as [H H2]. apply andb_true_iff in H as [H0 H1].
  apply bool_decide_eq_true in Hlv. by exists w0, w1, w2.
Qed.

Lemma tick_from_empty k fuel level st w :
  wheel (tm st) !! level = Some w -> 0 <= hand w < 256 ->
  bucket_get w ((hand w + 1) mod 256) = [] ->
  tick_from k fuel level st =
  let n := (hand w + 1) mod 256 in
  if (n =? 0) && (S level <? levels (tm st))%nat then
    match k with
    | O => Err OutOfFuel
    | S k' =>
        '(st3, evs') ← tick_from k' fuel (S level) (set_hand level n st);
        Ok (st3, EvVisit level n :: evs')
    end
  else Ok (set_hand level n st, [EvVisit level n]).
Proof.
  intros Hw Hh Hb. cbn zeta.
  assert (En : MOD_BY_BUCKETS (u32 (hand w + 1)) = (hand w + 1) mod 256)
    by (rewrite MOD_BY_BUCKETS_mod, u32_small by lia; done).
  destruct k; simpl; rewrite Hw, En, (drain_empty _ _ _ _ _ Hw Hb); simpl;
    destruct (_ && _); done.
Qed.

Lemma quiet_tick fuel b0 H st :
  quiet b0 st = true -> hand <$> wheel (tm st) = hands_of H ->
  hands_of (H + 1) <> [0; 0; b0] ->
  exists evs,
    ttimer_tick fuel st = Ok (with_hands (hands_of (H + 1)) st, evs) /\
    Forall (fun ev => ev_ref ev = None) evs.
Proof.
  intros (w0 & w1 & w2 & Hw & Hlv & Q0 & Q1 & Q2)%quiet_inv Hh Hne.
  destruct st as [[lv lr ws] m]. simpl in *. subst ws lv.
  destruct w0 as [h0 b0'], w1 as [h1 b1'], w2 as [h2 b2'].
  unfold hands_of in Hh. injection Hh as -> -> ->.
  rewrite hands_of_succ in Hne |- *. cbn zeta in Hne |- *.
  pose proof (mod256_bound H) as B0. pose proof (mod256_bound (H / 256)) as B1.
  pose proof (mod256_bound (H / 256 / 256)) as B2.
  unfold ttimer_tick. cbn [tm levels].
  erewrite tick_from_empty;
    [| reflexivity | exact B0 | apply (all_empty_get _ _ Q0)].
  cbn [hand levels tm]. cbn zeta.
  destruct (Z.eqb_spec ((H mod 256 + 1) mod 256) 0) as [E0 | E0];
    [| eexists; split; [reflexivity | by repeat constructor]].
  cbn [andb Nat.ltb Nat.leb].
  erewrite tick_from_empty;
    [| reflexivity | exact B1 | apply (all_empty_get _ _ Q1)].
  cbn [hand levels tm set_hand set_wheel]. cbn zeta.
  destruct (Z.eqb_spec (((H / 256) mod 256 + 1) mod 256) 0) as [E1 | E1];
    [| rewrite E0; eexists; split; [reflexivity | by repeat constructor]].
  cbn [andb Nat.ltb Nat.leb].
  erewrite tick_from_empty;
    [| reflexivity | exact B2
     | apply (only_bucket_get _ _ _ Q2); intros Eb; apply Hne;
       cbv beta iota; simpl in Eb; by rewrite Eb].
  cbn [hand levels tm set_hand set_wheel]. cbn zeta.
  rewrite andb_false_r, E0, E1.
  eexists; split; [reflexivity | by repeat constructor].
Qed.

Lemma with_hands_id st hs :
  hand <$> wheel (tm st) = hs -> with_hands hs st = st.
Proof.
  intros <-. destruct st as [[lv lr ws] m]. unfold with_hands, set_wheel. simpl.
  do 2 f_equal. induction ws as [| [h b] ws IH]; [done |].
  cbn [fmap list_fmap zip_with hand bucket]. by f_equal.
Qed.

Lemma quiet_with_hands b0 X st :
  quiet b0 st = true ->
  quiet b0 (with_hands (hands_of X) st) = true /\
  hand <$> wheel (tm (with_hands (hands_of X) st)) = hands_of X /\
  forall Y, with_hands (hands_of Y) (with_hands (hands_of X) st) =
            with_hands (hands_of Y) st.
Proof.
  intros Hq. pose proof Hq as (w0 & w1 & w2 & Hw & Hlv & Q0 & Q1 & Q2)%quiet_inv.
  destruct st as [[lv lr ws] m]. simpl in *. subst ws lv.
  unfold quiet, with_hands, hands_of in *. simpl.
  destruct w0, w1, w2. done.
Qed.

Lemma quiet_ticks fuel b0 (k : nat) H st :
  quiet b0 st = true -> hand <$> wheel (tm st) = hands_of H ->
  (forall i, 0 < i <= Z.of_nat k -> (H + i) mod 16777216 <> 65536 * b0) ->
  exists run,
    ticks fuel k st = Ok (with_hands (hands_of (H + Z.of_nat k)) st, run) /\
    Forall (Forall (fun ev => ev_ref ev = None)) run.
Proof.
  revert H st. induction k as [| k IH]; intros H st Hq Hh Hi.
  - exists []. simpl. rewrite Z.add_0_r, with_hands_id by done. done.
  - destruct (quiet_tick fuel b0 H st Hq Hh) as (evs & Ht & Hev).
    { intros E%hands_of_low_zero. apply (Hi 1); [lia | done]. }
    destruct (quiet_with_hands b0 (H + 1) st Hq) as (Hq1 & Hh1 & Hw1).
    destruct (IH (H + 1) _ Hq1 Hh1) as (run & Hr & Hrun).
    { intros i Hi'. replace (H + 1 + i) with (H + (1 + i)) by lia.
      apply Hi. lia. }
    exists (evs :: run). cbn [ticks]. rewrite Ht. simpl. rewrite Hr. simpl.
    rewrite Hw1. replace (H + 1 + Z.of_nat k) with (H + Z.of_nat (S k)) by lia.
    split; [done | by constructor].
Qed.

Lemma ticks_app fuel k1 k2 st :
  ticks fuel (k1 + k2) st =
  '(st1, r1) ← ticks fuel k1 st;
  '(st2, r2) ← ticks fuel k2 st1;
  Ok (st2, r1 ++ r2).
Proof.
  revert st. induction k1 as [| k1 IH]; intros st; simpl.
  - by destruct (ticks fuel k2 st) as [[? ?] |].
  - destruct (ttimer_tick fuel st) as [[st1 evs] |]; simpl; [| done].
    rewrite IH. destruct (ticks fuel k1 st1) as [[st2 r1] |]; simpl; [| done].
    by destruct (ticks fuel k2 st2) as [[? ?] |].
Qed.

Lemma ticks_length fuel k st st' run :
  ticks fuel k st = Ok (st', run) -> length run = k.
Proof.
  revert st run. induction k as [| k IH]; intros st run; simpl.
  - by intros [= <- <-].
  - destruct (ttimer_tick fuel st) as [[st1 evs] |]; simpl; [| done].
    destruct (ticks fuel k st1) as [[st2 r] |] eqn:E; simpl; [| done].
    intros [= <- <-]. simpl. by rewrite (IH _ _ E).
Qed.

Lemma fire_ticks_from_quiet i ent run :
  Forall (Forall (fun ev => ev_ref ev = None)) run ->
  fire_ticks_from i ent run = [].
Proof.
  intros H. revert i. induction H as [| evs run Hevs _ IH]; intros i; simpl;
    [done |].
  replace (fires_of ent evs) with false; [apply IH |].
  symmetry. unfold fires_of. apply not_true_is_false. intros Hex.
  apply existsb_exists in Hex as (ev & Hin & Hev).
  rewrite Forall_forall in Hevs. apply list_elem_of_In, Hevs in Hin.
  by destruct ev.
Qed.

Lemma fire_ticks_from_app i ent r1 r2 :
  fire_ticks_from i ent (r1 ++ r2) =
  fire_ticks_from i ent r1 ++ fire_ticks_from (i + Z.of_nat (length r1)) ent r2.
Proof.
  revert i. induction r1 as [| evs r1 IH]; intros i; simpl.
  - by rewrite Z.add_0_r.
  - rewrite IH. replace (i + 1 + Z.of_nat (length r1))
      with (i + Z.pos (Pos.of_succ_nat (length r1))) by lia.
    by destruct (fires_of ent evs).
Qed.

Lemma fire_ticks_from_shift i k ent run :
  fire_ticks_from (k + i) ent run = (fun x => k + x) <$> fire_ticks_from i ent run.
Proof.
  revert i. induction run as [| evs run IH]; intros i; simpl; [done |].
  replace (k + i + 1) with (k + (i + 1)) by lia. rewrite IH.
  by destruct (fires_of ent evs).
Qed.

(** [k] ticks that find nothing to do, then [k2] more. *)
Lemma ticks_skip fuel b0 H k k2 st st' run2 ent :
  quiet b0 st = true -> hand <$> wheel (tm st) = hands_of H ->
  0 <= k -> 0 <= k2 ->
  (forall i, 0 < i <= k -> (H + i) mod 16777216 <> 65536 * b0) ->
  ticks fuel (Z.to_nat k2) (with_hands (hands_of (H + k)) st) = Ok (st', run2) ->
  exists run,
    ticks fuel (Z.to_nat (k + k2)) st = Ok (st', run) /\
    fire_ticks ent run = (fun x => k + x) <$> fire_ticks ent run2.
Proof.
  intros Hq Hh Hk Hk2 Hi H2.
  destruct (quiet_ticks fuel b0 (Z.to_nat k) H st Hq Hh) as (run1 & H1 & Hrun1).
  { intros i Hi'. apply Hi. lia. }
  rewrite Z2Nat.id in H1 by done.
  exists (run1 ++ run2). rewrite Z2Nat.inj_add, ticks_app, H1 by done. simpl.
  rewrite H2. simpl. split; [done |].
  unfold fire_ticks. rewrite fire_ticks_from_app, fire_ticks_from_quiet by done.
  rewrite (ticks_length _ _ _ _ _ H1), Z2Nat.id by done. simpl.
  by rewrite (Z.add_comm 1 k), fire_ticks_from_shift.
Qed.

(** ** Where the walk of ttimer_start goes wrong *)

Lemma start_place_level_ok (t : ttimer_t) (timeout : Z) lv r rem :
  start_place t timeout = Ok (lv, r, rem) -> is_Some (wheel t !! lv).
Proof.
  rewrite start_place_eq. cbn zeta.
  destruct (wheel t !! 0%nat) as [w0 |] eqn:E0; [| done].
  destruct (0 <? _); [| intros [= <- _ _]; eauto].
  destruct (wheel t !! 1%nat) as [w1 |] eqn:E1; [| done].
  destruct (0 <? _); [| intros [= <- _ _]; eauto].
  destruct (wheel t !! 2%nat) as [w2 |] eqn:E2; [| done].
  destruct (0 <? _); intros [= <- _ _]; eauto.
Qed.

(** With all MAX_LEVELS levels allocated, ttimer_start stays inside
    [wheel[]]. *)
Lemma ttimer_start_in_bounds st ent timeout :
  length (wheel (tm st)) = WHEEL_MAX_LEVELS ->
  ttimer_start st ent timeout <> Err OutOfBounds.
Proof.
  intros Hlen. unfold ttimer_start.
  destruct (ASSERT (0 <? timeout)) as [[] | f] eqn:E1; simpl;
    [| destruct (0 <? timeout); simpl in E1; congruence].
  destruct (ASSERT (negb _)) as [[] | f] eqn:E2; simpl;
    [| destruct (negb _); simpl in E2; congruence].
  destruct (ASSERT (bool_decide _)) as [[] | f] eqn:E3; simpl;
    [| destruct (bool_decide _); simpl in E3; congruence].
  destruct (start_place_total (tm st) timeout Hlen) as [[[lv r] rem] Hp].
  rewrite Hp. simpl.
  destruct (start_place_level_ok _ _ _ _ _ Hp) as [w ->]. done.
Qed.

(** C3 fails on the code: the walk is bounded by the constant
    WHEEL_MAX_LEVELS, not by [timer->levels].  A wheel created for a
    maximum timeout of 255 has one level; starting a timeout of 256 on it,
    or one of 255 after a tick, reads [wheel[1]]. *)
Theorem ttimer_start_walks_past_levels :
  exists t,
    ttimer_create true 255 0 = Some t /\
    levels t = 1%nat /\ length (wheel t) = 1%nat /\
    ttimer_start (mk_state t idle_store) 0%nat 256 = Err OutOfBounds /\
    exists st1 evs,
      ttimer_tick 0 (mk_state t idle_store) = Ok (st1, evs) /\
      ttimer_start st1 0%nat 255 = Err OutOfBounds.
Proof.
  eexists. split; [reflexivity |]. split; [reflexivity |].
  split; [reflexivity |]. split; [reflexivity |].
  eexists _, _. split; reflexivity.
Qed.

(** C8 fails on the code, by the defect of C3.  A wheel created for a
    maximum timeout of 255 has one level, and with every reference idle the
    linkage invariant holds of it.  Starting a timeout of 256 on it meets
    the three preconditions of ttimer_start; the sequence that consists of
    this call does not end in a state of the wheel, because the walk leaves
    [wheel[]] and the entry is inserted there.  The same holds of a tick
    followed by a start of 255. *)
Theorem start_in_order_leaves_wheel :
  let ent := 0%nat in
  exists t,
    ttimer_create true 255 0 = Some t /\ levels t = 1%nat /\
    let st := mk_state t idle_store in
    links_ok st /\
    scheduled (mem st ent) = false /\ func (mem st ent) <> None /\
    (forall fuel, exec_ops fuel [OpStart ent 256] st = Err OutOfBounds) /\
    (forall fuel, exec_ops fuel [OpTick; OpStart ent 255] st = Err OutOfBounds) /\
    (forall fuel, exists st1,
       exec_ops fuel [OpTick] st = Ok st1 /\ links_ok st1 /\
       scheduled (mem st1 ent) = false /\ func (mem st1 ent) <> None).
Proof.
  intros ent. eexists. split; [reflexivity |]. split; [reflexivity |].
  cbn zeta.
  assert (Hl : links_ok (mk_state (mk_timer 1 0 (replicate 1 (mk_wheel 0 ∅)))
                                  idle_store)).
  { by apply (links_ok_create _ _ 255 0). }
  split; [exact Hl |]. split; [reflexivity |]. split; [discriminate |].
  split; [intros fuel; reflexivity |].
  split; [intros fuel; destruct fuel; reflexivity |].
  intros fuel. eexists. split; [destruct fuel; reflexivity |].
  split; [| split; [reflexivity | discriminate]].
  apply (links_ok_set_hand _ 0%nat 1 Hl).
Qed.

(** Evaluation of a run in phases: [k] ticks that find nothing to do,
    skipped with [ticks_skip], and then [k2] ticks that are computed.  The
    state reached is named [name]. *)
Ltac skip_then_run fuel b0 H k k2 st ent name Hname :=
  let r := eval vm_compute in
             (ticks fuel (Z.to_nat k2) (with_hands (hands_of (H + k)) st)) in
  lazymatch r with
  | Ok (?s, ?run2) =>
      pose (name := s);
      let fr := eval vm_compute in (fire_ticks ent run2) in
      assert (Hname : exists run,
                 ticks fuel (Z.to_nat (k + k2)) st = Ok (name, run) /\
                 fire_ticks ent run = (fun x => k + x) <$> fr);
      [ destruct (ticks_skip fuel b0 H k k2 st name run2 ent)
          as (run & Hrun & Hfire);
        [ vm_compute; reflexivity | vm_compute; reflexivity | lia | lia
        | let i := fresh "i" in let Hi := fresh "Hi" in
          intros i Hi;
          destruct (Z_lt_le_dec (H + i) 16777216);
          [ rewrite Z.mod_small by lia; lia
          | replace (H + i) with (H + i - 16777216 + 1 * 16777216) by lia;
            rewrite Z.mod_add by lia; rewrite Z.mod_small by lia; lia ]
        | vm_compute; reflexivity
        | exists run; split; [exact Hrun |];
          rewrite Hfire; vm_compute; reflexivity ]
      | ]
  | _ => fail "the run faults"
  end.

(** C1 fails on the code.  A three-level wheel is created and ticked
    2^24 - 1 times, so that every hand is at 255.  A timeout of 131073 is
    then started: it is within the span 256^3 of the three levels.  Its
    handler is not called in the 131073 ticks that follow, the reference
    is still scheduled after them, and the handler is called 65536 ticks
    late. *)
Theorem expiry_late_after_wrap :
  let ent := 0%nat in
  exists t st1, ttimer_create true 16777216 0 = Some t /\ levels t = 3%nat /\
    (exists run, ticks 2 (Z.to_nat 16777215) (mk_state t idle_store) = Ok (st1, run)) /\
    hand <$> wheel (tm st1) = [255; 255; 255] /\
  exists st2, ttimer_start st1 ent 131073 = Ok st2 /\
  exists st3,
    (exists run, ticks 2 (Z.to_nat 131073) st2 = Ok (st3, run) /\
                 fire_ticks ent run = []) /\
    scheduled (mem st3 ent) = true /\
  exists st4,
    (exists run, ticks 2 (Z.to_nat 65536) st3 = Ok (st4, run) /\
                 fire_ticks ent run = [65536]) /\
    scheduled (mem st4 ent) = false.
Proof.
  intros ent.
  pose (st0 := mk_state (mk_timer 3 0 (replicate 3 (mk_wheel 0 ∅))) idle_store).
  skip_then_run 2%nat (-1) 0 16777215 0 st0 ent st1 HA.
  let r := eval vm_compute in (ttimer_start st1 ent 131073) in
  lazymatch r with Ok ?s => pose (st2 := s) end.
  skip_then_run 2%nat 2 16777215 131072 1 st2 ent st3 HC.
  skip_then_run 2%nat 3 131072 65535 1 st3 ent st4 HD.
  exists (tm st0), st1. split; [reflexivity |]. split; [reflexivity |].
  split; [destruct HA as (run & HA & _); by exists run |].
  split; [vm_compute; reflexivity |].
  exists st2. split; [vm_compute; reflexivity |].
  exists st3. split; [exact HC |]. split; [vm_compute; reflexivity |].
  exists st4. split; [exact HD |]. vm_compute; reflexivity.
Qed.

Lemma ticks_join fuel k1 k2 st st1 st2 ent f1 f2 :
  0 <= k1 -> 0 <= k2 ->
  (exists run, ticks fuel (Z.to_nat k1) st = Ok (st1, run) /\
               fire_ticks ent run = f1) ->
  (exists run, ticks fuel (Z.to_nat k2) st1 = Ok (st2, run) /\
               fire_ticks ent run = f2) ->
  exists run, ticks fuel (Z.to_nat (k1 + k2)) st = Ok (st2, run) /\
              fire_ticks ent run = f1 ++ ((fun x => k1 + x) <$> f2).
Proof.
  intros Hk1 Hk2 (r1 & H1 & <-) (r2 & H2 & <-).
  exists (r1 ++ r2). rewrite Z2Nat.inj_add, ticks_app, H1 by done. simpl.
  rewrite H2. simpl. split; [done |].
  unfold fire_ticks. rewrite fire_ticks_from_app.
  rewrite (ticks_length _ _ _ _ _ H1), Z2Nat.id by done.
  by rewrite (Z.add_comm 1 k1), fire_ticks_from_shift.
Qed.

(** C4 fails on the code.  A three-level wheel is created and ticked
    131072 times, which leaves the hand of level 2 at 2.  A timeout of
    256^3 + 19 is then started.  Its handler is not called in the
    256^3 + 19 ticks that follow, the reference is still scheduled after
    them, and the handler is called 65536 ticks late. *)
Theorem clamped_expiry_late :
  let ent := 0%nat in
  let timeout := 256 ^ 3 + 19 in
  exists t st1, ttimer_create true (256 ^ 4) 0 = Some t /\ levels t = 3%nat /\
    (exists run, ticks 2 (Z.to_nat 131072) (mk_state t idle_store) = Ok (st1, run)) /\
    hand <$> wheel (tm st1) = [0; 0; 2] /\
  exists st2, ttimer_start st1 ent timeout = Ok st2 /\
  exists st3,
    (exists run, ticks 2 (Z.to_nat timeout) st2 = Ok (st3, run) /\
                 fire_ticks ent run = []) /\
    scheduled (mem st3 ent) = true /\
  exists st4,
    (exists run, ticks 2 (Z.to_nat 65536) st3 = Ok (st4, run) /\
                 fire_ticks ent run = [65536]) /\
    scheduled (mem st4 ent) = false.
Proof.
  intros ent timeout.
  pose (st0 := mk_state (mk_timer 3 0 (replicate 3 (mk_wheel 0 ∅))) idle_store).
  skip_then_run 2%nat (-1) 0 131072 0 st0 ent st1 HA.
  let r := eval vm_compute in (ttimer_start st1 ent timeout) in
  lazymatch r with Ok ?s => pose (st2 := s) end.
  skip_then_run 2%nat 2 131072 16777215 1 st2 ent st3a HC.
  skip_then_run 2%nat 3 131072 0 19 st3a ent st3 HC'.
  skip_then_run 2%nat 3 131091 65516 20 st3 ent st4 HD.
  exists (tm st0), st1. split; [reflexivity |]. split; [reflexivity |].
  split; [destruct HA as (run & HA & _); by exists run |].
  split; [vm_compute; reflexivity |].
  exists st2. split; [vm_compute; reflexivity |].
  exists st3. split.
  { exact (ticks_join 2 (16777215 + 1) (0 + 19) st2 st3a st3 ent _ _
             ltac:(lia) ltac:(lia) HC HC'). }
  split; [vm_compute; reflexivity |].
  exists st4. split; [exact HD |]. vm_compute; reflexivity.
Qed.

(** The repository's test [ttimer_overflow] in the model: on a fresh
    three-level wheel, a timeout of 256^2 + 17 and then one of 256^3 + 19
    are each called back on their last tick and on no earlier one.  (The
    second is started with the hand of level 2 at 1.) *)
Lemma ttimer_overflow_test :
  let ent := 0%nat in
  exists t st1, ttimer_create true (256 ^ 4) 0 = Some t /\
    ttimer_start (mk_state t idle_store) ent (256 ^ 2 + 17) = Ok st1 /\
  exists st2,
    (exists run, ticks 2 (Z.to_nat (256 ^ 2 + 17)) st1 = Ok (st2, run) /\
                 fire_ticks ent run = [256 ^ 2 + 17]) /\
    hand <$> wheel (tm st2) = [17; 0; 1] /\
  exists st3, ttimer_start st2 ent (256 ^ 3 + 19) = Ok st3 /\
  exists st4,
    (exists run, ticks 2 (Z.to_nat (256 ^ 3 + 19)) st3 = Ok (st4, run) /\
                 fire_ticks ent run = [256 ^ 3 + 19]) /\
    scheduled (mem st4 ent) = false.
Proof.
  intros ent.
  pose (st0 := mk_state (mk_timer 3 0 (replicate 3 (mk_wheel 0 ∅))) idle_store).
  let r := eval vm_compute in (ttimer_start st0 ent (256 ^ 2 + 17)) in
  lazymatch r with Ok ?s => pose (st1 := s) end.
  skip_then_run 2%nat 1 0 65535 18 st1 ent st2 HA.
  let r := eval vm_compute in (ttimer_start st2 ent (256 ^ 3 + 19)) in
  lazymatch r with Ok ?s => pose (st3 := s) end.
  skip_then_run 2%nat 1 65553 16777198 37 st3 ent st4 HB.
  exists (tm st0), st1. split; [reflexivity |].
  split; [vm_compute; reflexivity |].
  exists st2. split; [exact HA |]. split; [vm_compute; reflexivity |].
  exists st3. split; [vm_compute; reflexivity |].
  exists st4. split; [exact HB |]. vm_compute; reflexivity.
Qed.

(** ** Instances *)

Lemma ticks_wheel_ok fuel k st st' run :
  wheel_ok st -> ticks fuel k st = Ok (st', run) -> wheel_ok st'.
Proof.
  intros Hok Ht.
  eapply (ticks_invariant_ev wheel_ok (fun _ => True)); [| exact Hok | exact Ht].
  intros f s s' evs Hs Hstep. split; [by eapply ttimer_tick_wheel_ok |].
  by apply Forall_true.
Qed.

Lemma wheel_ok_fresh : wheel_ok fresh_wheel.
Proof. by apply (wheel_ok_create _ _ 16777216 0). Qed.

Lemma ttimer_stop_cancels_witness :
  exists st,
    ttimer_start fresh_wheel 0%nat 5 = Ok st /\
    scheduled (mem st 0%nat) = true /\
    exists st',
      ttimer_stop st 0%nat = (true, st') /\
      scheduled (mem st' 0%nat) = false /\
      (forall l b, ~ linked st' 0%nat l b) /\
      (forall e, e <> 0%nat ->
         mem st' e = mem st e /\ forall l b, linked st' e l b <-> linked st e l b) /\
      hand <$> wheel (tm st') = hand <$> wheel (tm st) /\
      ttimer_stop st' 0%nat = (false, st') /\
      forall fuel k st'' evs,
        ticks fuel k st' = Ok (st'', evs) ->
        forall fn a, EvFire 0%nat fn a ∉ concat evs.
Proof.
  eexists. split; [reflexivity |]. split; [reflexivity |].
  apply (proj1 (ttimer_stop_cancels _ 0%nat)). reflexivity.
Defined.

Lemma links_ok_preserved_witness :
  links_ok fresh_wheel /\
  (forall ent timeout st',
      ttimer_start fresh_wheel ent timeout = Ok st' -> links_ok st') /\
  (forall ent, links_ok (ttimer_stop fresh_wheel ent).2) /\
  (forall fuel st' evs,
      ttimer_tick fuel fresh_wheel = Ok (st', evs) -> links_ok st') /\
  (forall fuel ops st', exec_ops fuel ops fresh_wheel = Ok st' -> links_ok st').
Proof.
  assert (H : links_ok fresh_wheel)
    by (by apply (links_ok_create _ _ 16777216 0)).
  split; [exact H | exact (links_ok_preserved fresh_wheel H)].
Defined.

(** A state that the test ttimer_overflow goes through: its second timer,
    256^3 + 19 ticks started with the hands at 17, 0, 1, is in bucket 1 of
    level 2 and the hands are at 255, 255, 0, so that the next tick works
    on all three levels.  The state is named [name]. *)
Ltac before_cascade name Hok :=
  let ent := constr:(0%nat) in
  let st1 := fresh "st1" in let st2 := fresh "st2" in let st3 := fresh "st3" in
  let HA := fresh "HA" in let HB := fresh "HB" in
  let r := eval vm_compute in (ttimer_start fresh_wheel ent (256 ^ 2 + 17)) in
  lazymatch r with Ok ?s => pose (st1 := s) end;
  skip_then_run 2%nat 1 0 65535 18 st1 ent st2 HA;
  let r := eval vm_compute in (ttimer_start st2 ent (256 ^ 3 + 19)) in
  lazymatch r with Ok ?s => pose (st3 := s) end;
  skip_then_run 2%nat 1 65553 16777198 0 st3 ent name HB;
  assert (Hok : wheel_ok name);
  [ let runA := fresh "runA" in let runB := fresh "runB" in
    destruct HA as (runA & HA & _); destruct HB as (runB & HB & _);
    eapply ticks_wheel_ok; [| exact HB];
    eapply (ttimer_start_wheel_ok st2 ent (256 ^ 3 + 19)); [| vm_compute; reflexivity];
    eapply ticks_wheel_ok; [| exact HA];
    eapply (ttimer_start_wheel_ok fresh_wheel ent (256 ^ 2 + 17));
      [exact wheel_ok_fresh | vm_compute; reflexivity]
  | ].

Lemma ttimer_tick_terminates_witness :
  exists st,
    wheel_ok st /\ hand <$> wheel (tm st) = [255; 255; 0] /\
    exists fuel0 st' evs,
      (forall fuel, (fuel0 <= fuel)%nat -> ttimer_tick fuel st = Ok (st', evs)) /\
      wheel_ok st' /\
      (exists c, visited_levels evs = seq 0 c /\ (1 <= c <= levels (tm st))%nat) /\
      NoDup (visited_levels evs) /\
      Forall ev_decreasing evs /\
      evs = [EvVisit 0 0; EvVisit 1 0; EvVisit 2 1;
             EvRequeue 2 1 0%nat 65572 2 1 36;
             EvRequeue 2 1 0%nat 36 0 36 0].
Proof.
  before_cascade st Hok.
  exists st. split; [exact Hok |]. split; [vm_compute; reflexivity |].
  destruct (ttimer_tick_terminates st Hok)
    as (fuel0 & st' & evs & Hrun & Hok' & Hc & Hnd & Hdec).
  exists fuel0, st', evs.
  split; [exact Hrun |]. split; [exact Hok' |]. split; [exact Hc |].
  split; [exact Hnd |]. split; [exact Hdec |].
  pose proof (Hrun (fuel0 `max` 2)%nat ltac:(lia)) as H1.
  let r := eval vm_compute in (ttimer_tick 2 st) in
  lazymatch r with
  | Ok ?p =>
      pose proof (tick_from_fuel_mono (levels (tm st)) 2 (fuel0 `max` 2)%nat 0 st p
                    ltac:(vm_compute; reflexivity) ltac:(lia)) as H2
  end.
  unfold ttimer_tick in H1. rewrite H2 in H1. by injection H1 as _ <-.
Defined.

(** The boundary case: a timeout of 256^3 started with the hand of
    level 2 at 1.  On its last tick the entry is put back into the bucket
    being drained with no time remaining, and then called. *)
Lemma requeued_fires_via_current_bucket_witness :
  let ent := 0%nat in
  exists st st' evs,
    wheel_ok st /\
    ttimer_tick 2 st = Ok (st', evs) /\
    evs = [EvVisit 0 0; EvVisit 1 0; EvVisit 2 1]
            ++ EvRequeue 2 1 ent 65536 2 1 0 :: [] ++ EvFire ent 1 0 :: [] /\
    (2%nat = 2%nat /\ 1 = 1 /\ 0 = 0).
Proof.
  intros ent.
  skip_then_run 2%nat (-1) 0 65536 0 fresh_wheel ent st1 HA.
  let r := eval vm_compute in (ttimer_start st1 ent 16777216) in
  lazymatch r with Ok ?s => pose (st2 := s) end.
  skip_then_run 2%nat 1 65536 16777215 0 st2 ent st3 HB.
  assert (Hok : wheel_ok st3).
  { destruct HA as (runA & HA & _). destruct HB as (runB & HB & _).
    eapply ticks_wheel_ok; [| exact HB].
    eapply (ttimer_start_wheel_ok st1 ent 16777216); [| vm_compute; reflexivity].
    eapply ticks_wheel_ok; [exact wheel_ok_fresh | exact HA]. }
  let r := eval vm_compute in (ttimer_tick 2 st3) in
  lazymatch r with Ok (?s, ?e) => pose (st4 := s); pose (evs := e) end.
  assert (Ht : ttimer_tick 2 st3 = Ok (st4, evs)) by (vm_compute; reflexivity).
  exists st3, st4, evs. split; [exact Hok |]. split; [exact Ht |].
  split; [reflexivity |].
  apply (requeued_fires_via_current_bucket 2 st3 st4 evs Hok Ht
           [EvVisit 0 0; EvVisit 1 0; EvVisit 2 1] [] [] 2%nat 1 ent 65536
           2%nat 1 0 1 0 eq_refl).
  intros ev Hin. by apply elem_of_nil in Hin.
Defined.

(** C9 fails on the code.  On a wheel of three levels as ttimer_create
    returns it, a timeout of 2 * 256^3 + 65536 is started, and goes to
    bucket 1 of level 2.  The 65535 ticks that follow call nothing.  The
    next tick drains that bucket: the entry, with 256^3 + 65536 remaining,
    is put back into the bucket being drained with 65536 remaining, not 0;
    it is drained again and put back with 0 remaining; and its handler is
    called, all in this tick. *)
Theorem requeued_with_time_left_is_called :
  let ent := 0%nat in
  let timeout := 2 * 256 ^ 3 + 65536 in
  exists t st1,
    ttimer_create true (256 ^ 4) 0 = Some t /\
    ttimer_start (mk_state t idle_store) ent timeout = Ok st1 /\
  exists st2,
    (exists run, ticks 3 (Z.to_nat 65535) st1 = Ok (st2, run) /\
                 fire_ticks ent run = []) /\
    wheel_ok st2 /\
  exists st3,
    ttimer_tick 3 st2 =
      Ok (st3, [EvVisit 0 0; EvVisit 1 0; EvVisit 2 1;
                EvRequeue 2 1 ent (256 ^ 3 + 65536) 2 1 65536;
                EvRequeue 2 1 ent 65536 2 1 0;
                EvFire ent 1 0]) /\
    scheduled (mem st3 ent) = false.
Proof.
  intros ent timeout.
  let r := eval vm_compute in (ttimer_start fresh_wheel ent timeout) in
  lazymatch r with Ok ?s => pose (st1 := s) end.
  skip_then_run 3%nat 1 0 65535 0 st1 ent st2 HA.
  let r := eval vm_compute in (ttimer_tick 3 st2) in
  lazymatch r with Ok (?s, ?e) => pose (st3 := s) end.
  exists (tm fresh_wheel), st1. split; [reflexivity |].
  split; [vm_compute; reflexivity |].
  exists st2. split; [exact HA |]. split.
  { destruct HA as (run & HA & _). eapply ticks_wheel_ok; [| exact HA].
    eapply (ttimer_start_wheel_ok fresh_wheel ent timeout);
      [exact wheel_ok_fresh | vm_compute; reflexivity]. }
  exists st3. split; vm_compute; reflexivity.
Qed.

(** ** Timers that fire on time *)

Lemma place3_level0 h1 h2 R :
  0 < R < 256 -> place3 0 h1 h2 R = (0%nat, R, 0).
Proof.
  intros HR. unfold place3. cbn zeta. rewrite Z.add_0_l.
  rewrite (Z.div_small R), (Z.mod_small R) by lia. done.
Qed.

Lemma place3_level1 h2 R :
  256 <= R < 65536 -> place3 0 0 h2 R = (1%nat, R / 256, R mod 256).
Proof.
  intros HR. unfold place3. cbn zeta. rewrite !Z.add_0_l.
  assert (1 <= R / 256) by (apply Z.div_le_lower_bound; lia).
  assert (R / 256 < 256) by (apply Z.div_lt_upper_bound; lia).
  destruct (Z.ltb_spec 0 (R / 256)); [| lia].
  rewrite (Z.div_small (R / 256)), (Z.mod_small (R / 256)) by lia. done.
Qed.

Lemma place3_chain h R :
  65536 <= R < 131072 -> 0 <= h < 256 ->
  place3 0 0 h R = (2%nat, (h + 1) mod 256, R - 65536).
Proof.
  intros HR Hh. unfold place3. cbn zeta. rewrite !Z.add_0_l.
  pose proof (divmod256 R) as D0. pose proof (mod256_bound R) as B0.
  assert (256 <= R / 256 < 512)
    by (split; [apply Z.div_le_lower_bound | apply Z.div_lt_upper_bound]; lia).
  pose proof (divmod256 (R / 256)) as D1. pose proof (mod256_bound (R / 256)) as B1.
  assert (R / 256 / 256 = 1)
    by (apply Z.le_antisymm;
        [enough (R / 256 / 256 < 2) by lia; apply Z.div_lt_upper_bound
        | apply Z.div_le_lower_bound]; lia).
  destruct (Z.ltb_spec 0 (R / 256)); [| lia].
  destruct (Z.ltb_spec 0 (R / 256 / 256)); [| lia].
  rewrite H0.
  destruct (Z.eq_dec h 255) as [-> | Hne].
  - change ((255 + 1) / 256) with 1. change ((255 + 1) mod 256) with 0. simpl.
    do 2 f_equal. lia.
  - rewrite (Z.div_small (h + 1)), (Z.mod_small (h + 1)) by lia. simpl.
    do 2 f_equal. lia.
Qed.

Lemma place3_due h0 h1 h2 t lv b rem :
  0 <= h0 < 256 -> 0 <= h1 < 256 -> 0 <= h2 < 256 ->
  1 <= t <= 16777216 ->
  h0 + 256 * h1 + 65536 * h2 + t < 16777216 + 131072 ->
  place3 h0 h1 h2 t = (lv, b, rem) ->
  0 <= b < 256 /\ rem_range lv rem /\
  visit_in lv b h0 h1 h2 + after_visit lv rem = t.
Proof.
  intros H0 H1 H2 Ht Hsum. unfold place3. cbn zeta.
  remember (h0 + t) as s0 eqn:S0.
  pose proof (mod256_bound s0) as B0. pose proof (divmod256 s0) as D0.
  destruct (Z.ltb_spec 0 (s0 / 256)) as [Q0 | Q0].
  2:{ intros [= <- <- <-]. simpl. split; [done |]. split; [done |].
      replace (s0 mod 256 - h0 - 1) with (t - 1) by lia.
      rewrite Z.mod_small by lia. lia. }
  remember (h1 + s0 / 256) as s1 eqn:S1.
  pose proof (mod256_bound s1) as B1. pose proof (divmod256 s1) as D1.
  destruct (Z.ltb_spec 0 (s1 / 256)) as [Q1 | Q1].
  2:{ intros [= <- <- <-]. simpl. split; [done |]. split; [done |].
      replace (s1 mod 256 - h1 - 1) with (s0 / 256 - 1) by lia.
      rewrite Z.mod_small by lia. lia. }
  remember (h2 + s1 / 256) as s2 eqn:S2.
  pose proof (mod256_bound s2) as B2. pose proof (divmod256 s2) as D2.
  destruct (Z.ltb_spec 0 (s2 / 256)) as [Q2 | Q2].
  - intros [= <- <- <-]. simpl. split; [done |].
    assert (Hq2 : s2 / 256 = 1) by lia.
    assert (Hr2 : s2 mod 256 <= 1) by lia.
    rewrite Hq2. split; [lia |].
    destruct (Z.eq_dec (s2 mod 256) 0) as [E | E].
    + rewrite E.
      replace (0 - h2 - 1) with ((255 - h2) + (-1) * 256) by lia.
      rewrite Z.mod_add, Z.mod_small by lia.
      destruct (Z.leb_spec 65536 (s0 mod 256 + 256 * (s1 mod 256) + 65536 * 0
                                  + 16777216 * (1 - 1))); lia.
    + assert (E1 : s2 mod 256 = 1) by lia. rewrite E1.
      assert (1 <= h2) by lia.
      replace (1 - h2 - 1) with ((256 - h2) + (-1) * 256) by lia.
      rewrite Z.mod_add, Z.mod_small by lia.
      destruct (Z.leb_spec 65536 (s0 mod 256 + 256 * (s1 mod 256) + 65536 * 1
                                  + 16777216 * (1 - 1))); lia.
  - intros [= <- <- <-]. simpl. split; [done |]. split; [lia |].
    replace (s2 mod 256 - h2 - 1) with (s1 / 256 - 1) by lia.
    rewrite Z.mod_small by lia.
    destruct (Z.leb_spec 65536 (s0 mod 256 + 256 * (s1 mod 256))); lia.
Qed.

Lemma hands3 (t : ttimer_t) h0 h1 h2 :
  hand <$> wheel t = [h0; h1; h2] ->
  exists w0 w1 w2,
    wheel t = [w0; w1; w2] /\ hand w0 = h0 /\ hand w1 = h1 /\ hand w2 = h2.
Proof.
  destruct (wheel t) as [| w0 [| w1 [| w2 [| ? ?]]]]; try done.
  intros [= <- <- <-]. by exists w0, w1, w2.
Qed.

Lemma start_place_hands (t : ttimer_t) h0 h1 h2 timeout :
  hand <$> wheel t = [h0; h1; h2] ->
  start_place t timeout = Ok (place3 h0 h1 h2 timeout).
Proof.
  intros (w0 & w1 & w2 & Hw & <- & <- & <-)%hands3.
  rewrite start_place_eq, Hw. unfold place3. simpl.
  repeat case_match; done.
Qed.

Lemma fire_count_app ent evs evs' :
  fire_count ent (evs ++ evs') = (fire_count ent evs + fire_count ent evs')%nat.
Proof.
  induction evs as [| ev evs IH]; simpl; [done |].
  destruct ev; rewrite IH; lia.
Qed.

Lemma fire_count_other ent evs :
  Forall (fun ev => ev_ref ev <> Some ent) evs -> fire_count ent evs = 0%nat.
Proof.
  induction 1 as [| ev evs Hev _ IH]; simpl; [done |].
  destruct ev as [| | e fn a]; try done.
  rewrite bool_decide_eq_false_2; [done |]. simpl in Hev. congruence.
Qed.

Lemma drain_step_ev_ref level n e st st' ev :
  drain_step level n e st = Ok (st', ev) -> ev_ref ev = Some e.
Proof.
  intros H. apply drain_step_Ok in H as (_ & H).
  by destruct H as [(_ & fn & _ & _ & ->) | (_ & lv & r & new & _ & _ & ->)].
Qed.

Lemma placed_linked st ent lv b rem :
  placed st ent lv b rem -> linked st ent lv b.
Proof. intros [H _]. by apply H. Qed.

Lemma drain_step_placed_other level n e st st' ev ent lv b rem :
  e <> ent -> drain_step level n e st = Ok (st', ev) ->
  placed st ent lv b rem -> placed st' ent lv b rem.
Proof.
  intros Hne H [Hl Hr]. split.
  - intros l b'.
    destruct (linked_after_drain_step level n e st st' ev ent l b' ltac:(congruence) H)
      as [-> _]. apply Hl.
  - destruct (linked_after_drain_step level n e st st' ev ent 0%nat 0 ltac:(congruence) H)
      as [_ ->]. done.
Qed.

Lemma drain_step_gone_other level n e st st' ev ent :
  e <> ent -> drain_step level n e st = Ok (st', ev) ->
  gone st ent -> gone st' ent.
Proof.
  intros Hne H [Hl Hs]. split.
  - intros l b'.
    destruct (linked_after_drain_step level n e st st' ev ent l b' ltac:(congruence) H)
      as [-> _]. apply Hl.
  - destruct (linked_after_drain_step level n e st st' ev ent 0%nat 0 ltac:(congruence) H)
      as [_ ->]. done.
Qed.

(** A drain leaves alone an entry that is not in its bucket. *)
Lemma drain_keeps (X : state -> Prop) ent level n :
  (forall s, X s -> ~ linked s ent level n) ->
  (forall s e s' ev,
      X s -> e <> ent -> drain_step level n e s = Ok (s', ev) -> X s') ->
  forall fuel st st' evs,
    X st -> drain fuel level n st = Ok (st', evs) ->
    X st' /\ fire_count ent evs = 0%nat.
Proof.
  intros Hnl Hstep fuel st st' evs HX Hd.
  destruct (drain_invariant_ev X (fun ev => ev_ref ev <> Some ent) level n)
    with (fuel := fuel) (st := st) (st' := st') (evs := evs) as [HX' Hev];
    try done.
  - intros s e s' ev Hs Hl Hds.
    assert (Hne : e <> ent) by (intros ->; by apply (Hnl s)).
    split; [by eapply Hstep |].
    rewrite (drain_step_ev_ref _ _ _ _ _ _ Hds). congruence.
  - split; [done | by apply fire_count_other].
Qed.

Lemma drain_keeps_placed ent lv b rem level n fuel st st' evs :
  (lv, b) <> (level, n) -> placed st ent lv b rem ->
  drain fuel level n st = Ok (st', evs) ->
  placed st' ent lv b rem /\ fire_count ent evs = 0%nat.
Proof.
  intros Hne. apply (drain_keeps (fun s => placed s ent lv b rem)).
  - intros s [Hl _] H. apply Hl in H as [-> ->]. done.
  - intros s e s' ev Hp He Hs. by eapply drain_step_placed_other.
Qed.

Lemma drain_keeps_gone ent level n fuel st st' evs :
  gone st ent -> drain fuel level n st = Ok (st', evs) ->
  gone st' ent /\ fire_count ent evs = 0%nat.
Proof.
  apply (drain_keeps (fun s => gone s ent)).
  - intros s [Hl _]. apply Hl.
  - intros s e s' ev Hp He Hs. by eapply drain_step_gone_other.
Qed.

(** What the iteration for [ent] itself does. *)
Lemma drain_step_self level n ent st st1 ev h0 h1 h2 :
  hand <$> wheel (tm st) = [h0; h1; h2] ->
  drain_step level n ent st = Ok (st1, ev) ->
  let R := remaining (mem st ent) in
  (R = 0 /\ gone st1 ent /\ fire_count ent [ev] = 1%nat) \/
  (R <> 0 /\ exists lv r new,
      place3 h0 h1 h2 R = (lv, r, new) /\ placed st1 ent lv r new /\
      fire_count ent [ev] = 0%nat).
Proof.
  intros Hh H. cbn zeta. apply drain_step_Ok in H as (_ & H).
  destruct H as [(Hz & fn & _ & -> & ->) | (Hnz & lv & r & new & Hp & Hst & ->)].
  - left. split; [done |]. split; [split |].
    + intros l b Hl. apply linked_set_ref, linked_remove in Hl. by destruct Hl.
    + simpl. by rewrite fn_lookup_insert.
    + simpl. by rewrite bool_decide_eq_true_2.
  - right. split; [done |]. exists lv, r, new.
    rewrite (start_place_hands _ h0 h1 h2) in Hp
      by (rewrite <- Hh; apply (hands_remove st ent)).
    injection Hp as Hp. split; [done |]. split; [| done].
    apply ttimer_start_Ok in Hst as (_ & _ & _ & lv' & r' & rem' & Hp' & Hlv & ->).
    rewrite (start_place_hands _ h0 h1 h2) in Hp'
      by (rewrite <- Hh; apply (hands_remove st ent)).
    rewrite Hp in Hp'. injection Hp' as <- <- <-. split.
    + intros l b. rewrite linked_set_ref, linked_insert by done.
      rewrite linked_set_ref, linked_remove. split; [| tauto].
      intros [(_ & ? & ?) | [? _]]; done.
    + simpl. by rewrite fn_lookup_insert.
Qed.

(** The drain of the bucket that [ent] is in. *)
Lemma drain_focus ent level n h0 h1 h2 fuel st R st' evs :
  (level <= 2)%nat ->
  wheel_ok st -> hand <$> wheel (tm st) = [h0; h1; h2] ->
  focus_hands level n h0 h1 h2 ->
  placed st ent level n R -> rem_range level R ->
  drain fuel level n st = Ok (st', evs) ->
  let R1 := after_visit level R in
  (R1 = 0 /\ gone st' ent /\ fire_count ent evs = 1%nat) \/
  (0 < R1 < 256 /\ placed st' ent 0 R1 0 /\ fire_count ent evs = 0%nat) \/
  (256 <= R1 < 65536 /\ placed st' ent 1 (R1 / 256) (R1 mod 256) /\
   fire_count ent evs = 0%nat).
Proof.
  intros Hlevel. revert st R evs.
  induction fuel as [| fuel IH]; intros st R evs Hok Hh Hf Hpl Hrng Hd;
    pose proof (placed_linked _ _ _ _ _ Hpl) as (w & Hw & Hin);
    simpl in Hd; rewrite Hw in Hd;
    destruct (bucket_get w n) as [| e l] eqn:Eb;
    try (by apply elem_of_nil in Hin); [done |].
  destruct (drain_step level n e st) as [[st1 ev] |] eqn:Es; simpl in Hd; [| done].
  destruct (drain fuel level n st1) as [[st2 evs'] |] eqn:Ed; simpl in Hd; [| done].
  injection Hd as <- <-.
  assert (Hl : linked st e level n).
  { exists w. rewrite Eb. split; [done | by left]. }
  pose proof (drain_step_wheel_ok _ _ _ _ _ _ Hok Hl Es) as Hok1.
  pose proof (drain_step_hands _ _ _ _ _ _ Es) as Hh1. rewrite Hh in Hh1.
  change (ev :: evs') with ([ev] ++ evs'). rewrite fire_count_app. cbn zeta.
  cbn zeta in IH.
  destruct (decide (e = ent)) as [-> | Hne].
  2:{ rewrite (fire_count_other ent [ev]).
      2:{ constructor; [| done].
          rewrite (drain_step_ev_ref _ _ _ _ _ _ Es). congruence. }
      eapply (IH st1 R); eauto. by eapply drain_step_placed_other. }
  destruct Hpl as [_ HR].
  destruct (drain_step_self _ _ _ _ _ _ _ _ _ Hh Es)
    as [(Hz & Hg & Hc) | (Hnz & lv & r & new & Hp3 & Hpl1 & Hc)];
    rewrite HR in *; rewrite Hc.
  - destruct (drain_keeps_gone _ _ _ _ _ _ _ Hg Ed) as [Hg2 ->].
    left. rewrite Hz. split; [destruct level as [| [| ?]]; reflexivity |]. by split.
  - assert (Hcont : forall lv' b' rem',
        (lv', b') <> (level, n) -> placed st1 ent lv' b' rem' ->
        placed st2 ent lv' b' rem' /\ fire_count ent evs' = 0%nat).
    { intros lv' b' rem' Hne Hp. by eapply drain_keeps_placed. }
    destruct level as [| [| level]]; simpl in Hrng, Hf |- *.
    + lia.
    + subst h0. rewrite place3_level0 in Hp3 by lia. injection Hp3 as <- <- <-.
      destruct (Hcont 0%nat R 0 ltac:(congruence) Hpl1) as [Hp2 ->].
      right. left. split; [lia |]. by split.
    + assert (level = 0%nat) as -> by lia.
      destruct Hf as (-> & -> & Hh2 & Hn).
      destruct (Z.leb_spec 65536 R) as [Hbig | Hsmall].
      * rewrite place3_chain in Hp3 by lia. injection Hp3 as <- <- <-.
        rewrite <- Hn in Hpl1.
        specialize (IH st1 (R - 65536) evs' Hok1 Hh1
                      ltac:(simpl; done) Hpl1 ltac:(simpl; lia) Ed).
        simpl in IH. destruct (Z.leb_spec 65536 (R - 65536)); [lia |].
        exact IH.
      * destruct (Z_lt_le_dec R 256) as [Hlt | Hge].
        -- rewrite place3_level0 in Hp3 by lia. injection Hp3 as <- <- <-.
           destruct (Hcont 0%nat R 0 ltac:(congruence) Hpl1) as [Hp2 ->].
           right. left. split; [lia |]. by split.
        -- rewrite place3_level1 in Hp3 by lia. injection Hp3 as <- <- <-.
           destruct (Hcont 1%nat (R / 256) (R mod 256) ltac:(congruence) Hpl1)
             as [Hp2 ->].
           right. right. split; [lia |]. by split.
Qed.

Lemma mod_step (b h : Z) :
  0 <= b < 256 -> 0 <= h < 256 ->
  (b = (h + 1) mod 256 /\ (b - h - 1) mod 256 = 0) \/
  (b <> (h + 1) mod 256 /\
   (b - (h + 1) mod 256 - 1) mod 256 = (b - h - 1) mod 256 - 1 /\
   1 <= (b - h - 1) mod 256).
Proof.
  intros Hb Hh.
  destruct (Z.eq_dec h 255) as [-> | Hne].
  - change ((255 + 1) mod 256) with 0.
    destruct (Z.eq_dec b 0) as [-> | Hb0]; [left; done | right].
    split; [done |].
    replace (b - 255 - 1) with (b + (-1) * 256) by lia.
    rewrite Z.mod_add, !Z.mod_small by lia. lia.
  - rewrite (Z.mod_small (h + 1)) by lia.
    destruct (Z_lt_le_dec b (h + 1)) as [Hlt | Hge].
    + right. split; [lia |].
      replace (b - (h + 1) - 1) with ((b - h - 2 + 256) + (-1) * 256) by lia.
      replace (b - h - 1) with ((b - h - 1 + 256) + (-1) * 256) by lia.
      rewrite !Z.mod_add, !Z.mod_small by lia. lia.
    + destruct (Z.eq_dec b (h + 1)) as [-> | Hne'].
      * left. split; [done |]. by replace (h + 1 - h - 1) with 0 by lia.
      * right. split; [done |]. rewrite !Z.mod_small by lia. lia.
Qed.

Lemma MOD_u32_succ (h : Z) :
  0 <= h < 256 -> MOD_BY_BUCKETS (u32 (h + 1)) = (h + 1) mod 256.
Proof. intros Hh. by rewrite MOD_BY_BUCKETS_mod, u32_small by lia. Qed.

Lemma tick_from_inv k fuel level st st' evs w :
  wheel (tm st) !! level = Some w -> 0 <= hand w < 256 ->
  tick_from k fuel level st = Ok (st', evs) ->
  let n := (hand w + 1) mod 256 in
  exists st1 e1,
    drain fuel level n st = Ok (st1, e1) /\
    ((((n =? 0) && (S level <? levels (tm st1))%nat) = false /\
      st' = set_hand level n st1 /\ evs = EvVisit level n :: e1) \/
     (n = 0 /\ (S level < levels (tm st1))%nat /\
      exists k' e3,
        k = S k' /\
        tick_from k' fuel (S level) (set_hand level 0 st1) = Ok (st', e3) /\
        evs = EvVisit level 0 :: e1 ++ e3)).
Proof.
  intros Hw Hh Ht. cbn zeta.
  destruct k as [| k]; simpl in Ht; rewrite Hw, (MOD_u32_succ _ Hh) in Ht;
    destruct (drain fuel level _ st) as [[st1 e1] |] eqn:Ed; simpl in Ht; try done;
    exists st1, e1; (split; [done |]);
    destruct ((_ =? 0) && _) eqn:Ec; try done;
    try (left; injection Ht as <- <-; done).
  right. apply andb_true_iff in Ec as [En Elt].
  apply Z.eqb_eq in En. apply Nat.ltb_lt in Elt. rewrite En in *.
  destruct (tick_from k fuel (S level) _) as [[st3 e3] |] eqn:Et; simpl in Ht;
    [| done].
  injection Ht as <- <-. split; [done |]. split; [done |]. by exists k, e3.
Qed.

Lemma drain_wheel_ok fuel level n st st' evs :
  wheel_ok st -> drain fuel level n st = Ok (st', evs) -> wheel_ok st'.
Proof.
  intros Hok Hd.
  destruct (drain_invariant_ev wheel_ok (fun _ => True) level n)
    with (fuel := fuel) (st := st) (st' := st') (evs := evs) as [H _]; try done.
  intros s e s' ev Hs Hl Hds. split; [by eapply drain_step_wheel_ok | done].
Qed.

Lemma drain_hands fuel level n st st' evs :
  drain fuel level n st = Ok (st', evs) ->
  hand <$> wheel (tm st') = hand <$> wheel (tm st).
Proof.
  intros Hd.
  destruct (drain_invariant_ev
              (fun s => hand <$> wheel (tm s) = hand <$> wheel (tm st))
              (fun _ => True) level n)
    with (fuel := fuel) (st := st) (st' := st') (evs := evs) as [H _]; try done.
  intros s e s' ev Hs Hl Hds. split; [| done].
  by rewrite (drain_step_hands _ _ _ _ _ _ Hds).
Qed.

Lemma hands_set_hand level n st hs :
  hand <$> wheel (tm st) = hs ->
  hand <$> wheel (tm (set_hand level n st)) = <[level := n]> hs.
Proof.
  intros <-. simpl. apply list_eq. intros i.
  rewrite list_lookup_fmap.
  destruct (decide (level = i)) as [-> | Hne].
  - rewrite list_lookup_alter_eq.
    destruct (wheel (tm st) !! i) as [w |] eqn:Ew; simpl.
    + rewrite list_lookup_insert_eq; [done |].
      rewrite length_fmap. by eapply lookup_lt_Some.
    + symmetry. apply lookup_ge_None. rewrite length_insert, length_fmap.
      by apply lookup_ge_None.
  - rewrite list_lookup_alter_ne, list_lookup_insert_ne by done.
    by rewrite list_lookup_fmap.
Qed.

Lemma placed_set_hand level n st ent lv b rem :
  placed (set_hand level n st) ent lv b rem <-> placed st ent lv b rem.
Proof.
  unfold placed. simpl. split; intros [Hl Hr]; (split; [| done]);
    intros l b'; rewrite <- Hl; by rewrite linked_set_hand.
Qed.

Lemma gone_set_hand level n st ent :
  gone (set_hand level n st) ent <-> gone st ent.
Proof.
  unfold gone. simpl. split; intros [Hl Hs]; (split; [| done]);
    intros l b H; apply (Hl l b); by apply linked_set_hand in H || apply linked_set_hand.
Qed.

Lemma hands_bounds st h0 h1 h2 :
  wheel_ok st -> hand <$> wheel (tm st) = [h0; h1; h2] ->
  levels (tm st) = 3%nat /\ 0 <= h0 < 256 /\ 0 <= h1 < 256 /\ 0 <= h2 < 256.
Proof.
  intros (Hlen & _ & Hh & _) (w0 & w1 & w2 & Hw & <- & <- & <-)%hands3.
  rewrite Hw in Hlen, Hh. split; [done |]. unfold WHEEL_BUCKETS in Hh.
  split; [apply (Hh 0%nat); done |].
  split; [apply (Hh 1%nat); done | apply (Hh 2%nat); done].
Qed.

Lemma visit_status ent fuel level n x hs st st1 e1 s :
  wheel_ok st -> hand <$> wheel (tm st) = hs ->
  has_status st ent s -> not_at s level n -> n = x mod 256 ->
  drain fuel level n st = Ok (st1, e1) ->
  wheel_ok (set_hand level n st1) /\
  hand <$> wheel (tm (set_hand level n st1)) = <[level := n]> hs /\
  has_status (set_hand level n st1) ent s /\ fire_count ent e1 = 0%nat.
Proof.
  intros Hok Hh Hs Hna Hn Hd.
  split; [| split].
  - rewrite Hn, <- MOD_BY_BUCKETS_mod. apply wheel_ok_set_hand.
    by eapply drain_wheel_ok.
  - apply hands_set_hand. by rewrite (drain_hands _ _ _ _ _ _ Hd).
  - destruct s as [lv b rem |]; simpl in *.
    + rewrite placed_set_hand. by eapply drain_keeps_placed.
    + rewrite gone_set_hand. by eapply drain_keeps_gone.
Qed.

Lemma visit_focus ent fuel level n x h0 h1 h2 st st1 e1 rem :
  (level <= 2)%nat ->
  wheel_ok st -> hand <$> wheel (tm st) = [h0; h1; h2] ->
  focus_hands level n h0 h1 h2 ->
  placed st ent level n rem -> rem_range level rem -> n = x mod 256 ->
  drain fuel level n st = Ok (st1, e1) ->
  wheel_ok (set_hand level n st1) /\
  hand <$> wheel (tm (set_hand level n st1)) = <[level := n]> [h0; h1; h2] /\
  exists s,
    has_status (set_hand level n st1) ent s /\
    let R1 := after_visit level rem in
    (R1 = 0 /\ s = Gone /\ fire_count ent e1 = 1%nat) \/
    (0 < R1 < 256 /\ s = Placed 0 R1 0 /\ fire_count ent e1 = 0%nat) \/
    (256 <= R1 < 65536 /\ s = Placed 1 (R1 / 256) (R1 mod 256) /\
     fire_count ent e1 = 0%nat).
Proof.
  intros Hlevel Hok Hh Hf Hpl Hrng Hn Hd.
  split; [| split].
  - rewrite Hn, <- MOD_BY_BUCKETS_mod. apply wheel_ok_set_hand.
    by eapply drain_wheel_ok.
  - apply hands_set_hand. by rewrite (drain_hands _ _ _ _ _ _ Hd).
  - destruct (drain_focus ent level n h0 h1 h2 fuel st rem st1 e1)
      as [(H1 & Hg & Hc) | [(H1 & Hp & Hc) | (H1 & Hp & Hc)]]; try done.
    + exists Gone. simpl. rewrite gone_set_hand. split; [done |]. by left.
    + eexists (Placed _ _ _). simpl. rewrite placed_set_hand.
      split; [exact Hp |]. right. by left.
    + eexists (Placed _ _ _). simpl. rewrite placed_set_hand.
      split; [exact Hp |]. right. by right.
Qed.

Lemma tick3_inv fuel st st' evs h0 h1 h2 :
  wheel_ok st -> hand <$> wheel (tm st) = [h0; h1; h2] ->
  ttimer_tick fuel st = Ok (st', evs) ->
  let n0 := (h0 + 1) mod 256 in
  let n1 := (h1 + 1) mod 256 in
  let n2 := (h2 + 1) mod 256 in
  exists st1 e1,
    drain fuel 0 n0 st = Ok (st1, e1) /\
    ((n0 <> 0 /\ st' = set_hand 0 n0 st1 /\ evs = EvVisit 0 n0 :: e1) \/
     (n0 = 0 /\ exists st2 e2,
        drain fuel 1 n1 (set_hand 0 n0 st1) = Ok (st2, e2) /\
        ((n1 <> 0 /\ st' = set_hand 1 n1 st2 /\
          evs = EvVisit 0 n0 :: e1 ++ EvVisit 1 n1 :: e2) \/
         (n1 = 0 /\ exists st3 e3,
            drain fuel 2 n2 (set_hand 1 n1 st2) = Ok (st3, e3) /\
            st' = set_hand 2 n2 st3 /\
            evs = EvVisit 0 n0 :: e1 ++ EvVisit 1 n1 :: e2
                    ++ EvVisit 2 n2 :: e3)))).
Proof.
  intros Hok Hh Ht. cbn zeta.
  destruct (hands_bounds _ _ _ _ Hok Hh) as (Hlv & B0 & B1 & B2).
  pose proof Hh as (w0 & w1 & w2 & Hw & E0 & E1 & E2)%hands3.
  unfold ttimer_tick in Ht. rewrite Hlv in Ht.
  destruct (tick_from_inv 3 fuel 0 st st' evs w0 ltac:(by rewrite Hw)
              ltac:(by rewrite E0) Ht) as (st1 & e1 & Hd1 & Hc1).
  rewrite E0 in Hd1, Hc1. exists st1, e1. split; [done |].
  pose proof (drain_wheel_ok _ _ _ _ _ _ Hok Hd1) as Hok1.
  pose proof (drain_hands _ _ _ _ _ _ Hd1) as Hh1. rewrite Hh in Hh1.
  destruct (hands_bounds _ _ _ _ Hok1 Hh1) as (Hlv1 & _).
  rewrite Hlv1 in Hc1.
  destruct Hc1 as [(Ec & -> & ->) | (En0 & _ & k' & e3 & [= <-] & Ht1 & ->)].
  { left. split; [| done]. intros En. rewrite En in Ec. done. }
  right. split; [done |]. rewrite En0.
  assert (Hok1' : wheel_ok (set_hand 0 0 st1))
    by exact (wheel_ok_set_hand st1 0 0 Hok1).
  pose proof (hands_set_hand 0 0 _ _ Hh1) as Hh1'.
  change (<[0%nat:=0]> [h0; h1; h2]) with [0; h1; h2] in Hh1'.
  pose proof Hh1' as (w0' & w1' & w2' & Hw' & E0' & E1' & E2')%hands3.
  destruct (tick_from_inv 2 fuel 1 (set_hand 0 0 st1) st' e3 w1'
              ltac:(by rewrite Hw') ltac:(by rewrite E1') Ht1)
    as (st2 & e2 & Hd2 & Hc2).
  rewrite E1' in Hd2, Hc2. exists st2, e2. split; [done |].
  pose proof (drain_wheel_ok _ _ _ _ _ _ Hok1' Hd2) as Hok2.
  pose proof (drain_hands _ _ _ _ _ _ Hd2) as Hh2. rewrite Hh1' in Hh2.
  destruct (hands_bounds _ _ _ _ Hok2 Hh2) as (Hlv2 & _).
  rewrite Hlv2 in Hc2.
  destruct Hc2 as [(Ec & -> & ->) | (En1 & _ & k'' & e3' & [= <-] & Ht2 & ->)].
  { left. split; [| done]. intros En. rewrite En in Ec. done. }
  right. split; [done |]. rewrite En1.
  assert (Hok2' : wheel_ok (set_hand 1 0 st2))
    by exact (wheel_ok_set_hand st2 1 0 Hok2).
  pose proof (hands_set_hand 1 0 _ _ Hh2) as Hh2'.
  change (<[1%nat:=0]> [0; h1; h2]) with [0; 0; h2] in Hh2'.
  pose proof Hh2' as (w0'' & w1'' & w2'' & Hw'' & E0'' & E1'' & E2'')%hands3.
  destruct (tick_from_inv 1 fuel 2 (set_hand 1 0 st2) st' e3' w2''
              ltac:(by rewrite Hw'') ltac:(by rewrite E2'') Ht2)
    as (st3 & e3 & Hd3 & Hc3).
  rewrite E2'' in Hd3, Hc3. exists st3, e3. split; [done |].
  pose proof (drain_wheel_ok _ _ _ _ _ _ Hok2' Hd3) as Hok3.
  pose proof (drain_hands _ _ _ _ _ _ Hd3) as Hh3. rewrite Hh2' in Hh3.
  destruct (hands_bounds _ _ _ _ Hok3 Hh3) as (Hlv3 & _).
  rewrite Hlv3 in Hc3.
  destruct Hc3 as [(Ec & -> & ->) | (_ & Hlt & _)]; [done | lia].
Qed.

Lemma visit_any ent fuel level n x h0 h1 h2 st st1 e1 s :
  (level <= 2)%nat ->
  wheel_ok st -> hand <$> wheel (tm st) = [h0; h1; h2] ->
  focus_hands level n h0 h1 h2 ->
  has_status st ent s -> status_ok s -> n = x mod 256 ->
  drain fuel level n st = Ok (st1, e1) ->
  wheel_ok (set_hand level n st1) /\
  hand <$> wheel (tm (set_hand level n st1)) = <[level := n]> [h0; h1; h2] /\
  has_status (set_hand level n st1) ent (visit_result level n s).1 /\
  fire_count ent e1 = (visit_result level n s).2 /\
  status_ok (visit_result level n s).1.
Proof.
  intros Hlevel Hok Hh Hf Hs Hsok Hn Hd.
  destruct s as [lv b rem |]; simpl.
  2:{ destruct (visit_status ent fuel level n x _ st st1 e1 Gone Hok Hh Hs
                  ltac:(done) Hn Hd) as (? & ? & ? & ?). done. }
  destruct Hsok as (Hlv & Hb & Hrng).
  destruct (decide ((lv, b) = (level, n))) as [[= -> ->] | Hne].
  2:{ destruct (visit_status ent fuel level n x _ st st1 e1 (Placed lv b rem)
                  Hok Hh Hs Hne Hn Hd) as (? & ? & ? & ?). done. }
  destruct (visit_focus ent fuel level n x h0 h1 h2 st st1 e1 rem)
    as (Hok' & Hh' & s' & Hs' & Hout); try done.
  split; [done |]. split; [done |]. cbn zeta in Hout |- *.
  pose proof (mod256_bound (after_visit level rem)) as Bm.
  destruct Hout as [(H1 & -> & Hc) | [(H1 & -> & Hc) | (H1 & -> & Hc)]].
  - rewrite H1. simpl. done.
  - destruct (Z.eqb_spec (after_visit level rem) 0); [lia |].
    destruct (Z.ltb_spec (after_visit level rem) 256); [| lia].
    simpl. split; [exact Hs' |]. split; [exact Hc |].
    split; [lia |]. split; [lia | done].
  - destruct (Z.eqb_spec (after_visit level rem) 0); [lia |].
    destruct (Z.ltb_spec (after_visit level rem) 256); [lia |].
    simpl. split; [exact Hs' |]. split; [exact Hc |].
    split; [lia |]. split; [| exact Bm].
    split; [apply Z.div_pos; lia | apply Z.div_lt_upper_bound; lia].
Qed.

Lemma fire_count_visit ent level n evs :
  fire_count ent (EvVisit level n :: evs) = fire_count ent evs.
Proof. done. Qed.

Lemma tick_status ent fuel st st' evs h0 h1 h2 s :
  wheel_ok st -> hand <$> wheel (tm st) = [h0; h1; h2] ->
  has_status st ent s -> status_ok s ->
  ttimer_tick fuel st = Ok (st', evs) ->
  wheel_ok st' /\
  hand <$> wheel (tm st') = next_hands h0 h1 h2 /\
  has_status st' ent (tick_result h0 h1 h2 s).1 /\
  fire_count ent evs = (tick_result h0 h1 h2 s).2.
Proof.
  intros Hok Hh Hs Hsok Ht.
  destruct (hands_bounds _ _ _ _ Hok Hh) as (_ & B0 & B1 & B2).
  destruct (tick3_inv _ _ _ _ _ _ _ Hok Hh Ht) as (st1 & e1 & Hd1 & Hc).
  unfold tick_result, next_hands. cbn zeta in Hc |- *.
  destruct (visit_any ent fuel 0 _ (h0 + 1) h0 h1 h2 st st1 e1 s
              ltac:(lia) Hok Hh ltac:(done) Hs Hsok eq_refl Hd1)
    as (Hok1 & Hh1 & Hs1 & Hc1 & Hsok1).
  destruct Hc as [(Hn0 & -> & ->) | (Hn0 & st2 & e2 & Hd2 & Hc)].
  { destruct (Z.eqb_spec ((h0 + 1) mod 256) 0); [done |].
    rewrite fire_count_visit. done. }
  rewrite Hn0 in *. rewrite Z.eqb_refl.
  change (<[0%nat:=0]> [h0; h1; h2]) with [0; h1; h2] in Hh1.
  destruct (visit_any ent fuel 1 _ (h1 + 1) 0 h1 h2 _ st2 e2 _
              ltac:(lia) Hok1 Hh1 ltac:(done) Hs1 Hsok1 eq_refl Hd2)
    as (Hok2 & Hh2 & Hs2 & Hc2 & Hsok2).
  destruct Hc as [(Hn1 & -> & ->) | (Hn1 & st3 & e3 & Hd3 & -> & ->)].
  { destruct (Z.eqb_spec ((h1 + 1) mod 256) 0); [done |].
    rewrite fire_count_visit, fire_count_app, fire_count_visit, Hc1, Hc2. done. }
  rewrite Hn1 in *. rewrite Z.eqb_refl.
  change (<[1%nat:=0]> [0; h1; h2]) with [0; 0; h2] in Hh2.
  destruct (visit_any ent fuel 2 _ (h2 + 1) 0 0 h2 _ st3 e3 _
              ltac:(lia) Hok2 Hh2 ltac:(done) Hs2 Hsok2 eq_refl Hd3)
    as (Hok3 & Hh3 & Hs3 & Hc3 & Hsok3).
  rewrite fire_count_visit, fire_count_app, fire_count_visit, fire_count_app,
    fire_count_visit, Hc1, Hc2, Hc3.
  split; [done |]. split; [done |]. split; [done |]. cbn [snd]. lia.
Qed.

Lemma succ_mod_cases (h : Z) :
  0 <= h < 256 ->
  (h = 255 /\ (h + 1) mod 256 = 0) \/ (h < 255 /\ (h + 1) mod 256 = h + 1).
Proof.
  intros Hh. destruct (Z.eq_dec h 255) as [-> | Hne]; [by left | right].
  rewrite Z.mod_small by lia. lia.
Qed.

Lemma visit_result_gone level n : visit_result level n Gone = (Gone, 0%nat).
Proof. done. Qed.

Lemma visit_result_miss level n lv b rem :
  (lv, b) <> (level, n) ->
  visit_result level n (Placed lv b rem) = (Placed lv b rem, 0%nat).
Proof. intros Hne. unfold visit_result. by rewrite decide_False. Qed.

Lemma visit_result_hit lv b rem :
  visit_result lv b (Placed lv b rem) =
  if after_visit lv rem =? 0 then (Gone, 1%nat)
  else if after_visit lv rem <? 256 then (Placed 0 (after_visit lv rem) 0, 0%nat)
  else (Placed 1 (after_visit lv rem / 256) (after_visit lv rem mod 256), 0%nat).
Proof. unfold visit_result. by rewrite decide_True. Qed.

Ltac visits :=
  repeat (rewrite ?visit_result_gone, ?visit_result_miss by congruence;
          cbn [fst snd]).

Ltac still_placed lv b rem h0 h1 h2 :=
  exists lv, b, rem, h0, h1, h2;
  split; [reflexivity |]; split; [repeat split; lia |]; split; [reflexivity |].

(** A tick brings the entry one tick nearer to its call. *)
Lemma tick_result_due h0 h1 h2 lv b rem :
  0 <= h0 < 256 -> 0 <= h1 < 256 -> 0 <= h2 < 256 ->
  status_ok (Placed lv b rem) ->
  let d := visit_in lv b h0 h1 h2 + after_visit lv rem in
  let r := tick_result h0 h1 h2 (Placed lv b rem) in
  (d = 1 /\ r = (Gone, 1%nat)) \/
  (1 < d /\ exists lv' b' rem' h0' h1' h2',
      r = (Placed lv' b' rem', 0%nat) /\ status_ok (Placed lv' b' rem') /\
      next_hands h0 h1 h2 = [h0'; h1'; h2'] /\
      d - 1 = visit_in lv' b' h0' h1' h2' + after_visit lv' rem').
Proof.
  intros B0 B1 B2 (Hlv & Hb & Hrng). cbn zeta.
  unfold tick_result, next_hands. cbn zeta.
  pose proof (mod256_bound (h2 + 1)) as Bn2.
  destruct lv as [| [| [| lv]]]; [| | | lia]; simpl in Hrng.
  - (* level 0 *)
    subst rem.
    destruct (mod_step b h0 Hb B0) as [[Eb Em] | (Eb & Em & Em1)].
    + rewrite <- Eb, visit_result_hit. simpl after_visit. simpl Z.eqb.
      visits. left. split; [simpl; lia |]. by repeat case_match.
    + visits. right. split; [simpl; lia |].
      destruct ((h0 + 1) mod 256 =? 0); [destruct ((h1 + 1) mod 256 =? 0) |];
        visits; [still_placed 0%nat b 0 ((h0 + 1) mod 256) ((h1 + 1) mod 256)
                   ((h2 + 1) mod 256)
                | still_placed 0%nat b 0 ((h0 + 1) mod 256) ((h1 + 1) mod 256) h2
                | still_placed 0%nat b 0 ((h0 + 1) mod 256) h1 h2];
        simpl; lia.
  - (* level 1 *)
    pose proof (mod256_bound (b - h1 - 1)) as Bz.
    visits.
    destruct (succ_mod_cases h0 B0) as [[E0 En0] | [E0 En0]]; rewrite En0.
    2:{ destruct (Z.eqb_spec (h0 + 1) 0); [lia |]. right.
        split; [simpl; lia |].
        still_placed 1%nat b rem (h0 + 1) h1 h2. simpl. lia. }
    rewrite Z.eqb_refl.
    destruct (mod_step b h1 Hb B1) as [[Eb Em] | (Eb & Em & Em1)].
    + rewrite <- Eb, visit_result_hit. simpl after_visit.
      destruct (Z.eqb_spec rem 0) as [-> | Hr].
      * visits. left. split; [simpl; lia |]. by repeat case_match.
      * destruct (Z.ltb_spec rem 256); [| lia]. visits. right.
        split; [simpl; lia |].
        destruct (b =? 0);
          [still_placed 0%nat rem 0 0 b ((h2 + 1) mod 256)
          | still_placed 0%nat rem 0 0 b h2];
          unfold visit_in, after_visit;
          rewrite (Z.mod_small (rem - 0 - 1)) by lia; lia.
    + visits. right. split; [simpl; lia |].
      destruct ((h1 + 1) mod 256 =? 0); visits;
        [still_placed 1%nat b rem 0 ((h1 + 1) mod 256) ((h2 + 1) mod 256)
        | still_placed 1%nat b rem 0 ((h1 + 1) mod 256) h2];
        simpl; lia.
  - (* level 2 *)
    assert (Ha : 0 <= after_visit 2 rem < 65536).
    { simpl. destruct (Z.leb_spec 65536 rem); lia. }
    pose proof (mod256_bound (b - h2 - 1)) as Bz.
    visits.
    destruct (succ_mod_cases h0 B0) as [[E0 En0] | [E0 En0]]; rewrite En0.
    2:{ destruct (Z.eqb_spec (h0 + 1) 0); [lia |]. right.
        split; [unfold visit_in; lia |].
        still_placed 2%nat b rem (h0 + 1) h1 h2. unfold visit_in. lia. }
    rewrite Z.eqb_refl.
    destruct (succ_mod_cases h1 B1) as [[E1 En1] | [E1 En1]]; rewrite En1.
    2:{ destruct (Z.eqb_spec (h1 + 1) 0); [lia |]. right.
        split; [unfold visit_in; lia |].
        still_placed 2%nat b rem 0 (h1 + 1) h2. unfold visit_in. lia. }
    rewrite Z.eqb_refl.
    destruct (mod_step b h2 Hb B2) as [[Eb Em] | (Eb & Em & Em1)].
    + rewrite <- Eb, visit_result_hit.
      remember (after_visit 2 rem) as R1 eqn:ER1.
      destruct (Z.eqb_spec R1 0) as [-> | Hr].
      * left. split; [unfold visit_in; lia | done].
      * right. split; [unfold visit_in; lia |].
        destruct (Z.ltb_spec R1 256); cbn [fst snd].
        -- still_placed 0%nat R1 0 0 0 b.
           unfold visit_in, after_visit.
           rewrite (Z.mod_small (R1 - 0 - 1)) by lia. lia.
        -- pose proof (divmod256 R1). pose proof (mod256_bound R1).
           assert (1 <= R1 / 256) by (apply Z.div_le_lower_bound; lia).
           assert (R1 / 256 < 256) by (apply Z.div_lt_upper_bound; lia).
           still_placed 1%nat (R1 / 256) (R1 mod 256) 0 0 b.
           unfold visit_in, after_visit.
           rewrite (Z.mod_small (R1 / 256 - 0 - 1)) by lia. lia.
    + visits. right. split; [unfold visit_in; lia |].
      still_placed 2%nat b rem 0 0 ((h2 + 1) mod 256).
      unfold visit_in. lia.
Qed.

Lemma place3_level h0 h1 h2 t lv b rem :
  place3 h0 h1 h2 t = (lv, b, rem) -> (lv <= 2)%nat.
Proof. unfold place3. cbn zeta. repeat case_match; intros [= <- _ _]; lia. Qed.

(** One tick on a state in which [ent] is due in [d] ticks. *)
Lemma tick_due ent fuel st st' evs d :
  wheel_ok st -> due st ent d ->
  ttimer_tick fuel st = Ok (st', evs) ->
  (d = 1 /\ gone st' ent /\ fire_count ent evs = 1%nat) \/
  (1 < d /\ due st' ent (d - 1) /\ fire_count ent evs = 0%nat).
Proof.
  intros Hok (h0 & h1 & h2 & lv & b & rem & Hh & Hs & Hsok & ->) Ht.
  destruct (hands_bounds _ _ _ _ Hok Hh) as (_ & B0 & B1 & B2).
  destruct (tick_status ent fuel st st' evs h0 h1 h2 _ Hok Hh Hs Hsok Ht)
    as (_ & Hh' & Hs' & Hc).
  destruct (tick_result_due h0 h1 h2 lv b rem B0 B1 B2 Hsok)
    as [[Hd Hr] | (Hd & lv' & b' & rem' & h0' & h1' & h2' & Hr & Hok' & Hn & Hd')];
    rewrite Hr in Hs', Hc; cbn [fst snd] in Hs', Hc.
  - by left.
  - right. split; [done |]. split; [| done].
    exists h0', h1', h2', lv', b', rem'. by rewrite Hh', Hn.
Qed.

(** ttimer_start makes the entry due in [timeout] ticks, when the time of
    the hands plus the timeout stays below 256^3 + 2 * 256^2. *)
Lemma ttimer_start_due st ent timeout h0 h1 h2 :
  wheel_ok st -> hand <$> wheel (tm st) = [h0; h1; h2] ->
  scheduled (mem st ent) = false -> func (mem st ent) <> None ->
  1 <= timeout <= 16777216 ->
  h0 + 256 * h1 + 65536 * h2 + timeout < 16777216 + 131072 ->
  exists st1,
    ttimer_start st ent timeout = Ok st1 /\ wheel_ok st1 /\ due st1 ent timeout.
Proof.
  intros Hok Hh Hfree Hf Ht Hsum.
  destruct (hands_bounds _ _ _ _ Hok Hh) as (_ & B0 & B1 & B2).
  destruct (place3 h0 h1 h2 timeout) as [[lv b] rem] eqn:Ep.
  pose proof (place3_level _ _ _ _ _ _ _ Ep) as Hlv.
  destruct (place3_due _ _ _ _ _ _ _ B0 B1 B2 Ht Hsum Ep) as (Hb & Hrng & Hd).
  assert (Hsome : is_Some (wheel (tm st) !! lv)).
  { apply hands3 in Hh as (w0 & w1 & w2 & -> & _).
    destruct lv as [| [| [| lv]]]; [by eexists .. | lia]. }
  assert (Hst : ttimer_start st ent timeout =
                Ok (set_ref ent (mk_ref rem (func (mem st ent)) (arg (mem st ent)) true)
                      (LIST_INSERT_HEAD lv b ent st))).
  { apply ttimer_start_Ok. split; [lia |]. split; [done |]. split; [done |].
    exists lv, b, rem. split; [| done].
    by rewrite (start_place_hands _ h0 h1 h2), Ep. }
  eexists. split; [exact Hst |].
  split; [by eapply ttimer_start_wheel_ok |].
  exists h0, h1, h2, lv, b, rem. split; [rewrite <- Hh; exact (hands_insert st lv b ent) |].
  split; [| done]. split.
  - intros l b'. rewrite linked_set_ref, linked_insert by done.
    split; [| tauto]. intros [(_ & ? & ?) | Hl]; [done |].
    destruct Hok as (_ & _ & _ & _ & _ & _ & Hsch).
    assert (scheduled (mem st ent) = true) by (apply Hsch; eauto). congruence.
  - simpl. by rewrite fn_lookup_insert.
Qed.

Lemma ttimer_tick_total st :
  wheel_ok st ->
  exists fuel0 st' evs,
    forall fuel, (fuel0 <= fuel)%nat -> ttimer_tick fuel st = Ok (st', evs).
Proof.
  intros Hok. pose proof Hok as (Hlen & Hlv & _).
  destruct (tick_from_total (levels (tm st)) 0 st Hok) as
      (fuel0 & st' & evs & Ht & _); [intros l w Hl; lia | lia | lia |].
  exists fuel0, st', evs. intros fuel Hle.
  by apply (tick_from_fuel_mono _ fuel0).
Qed.

(** Any number of ticks returns, with one amount of fuel for all. *)
Lemma ticks_total k st :
  wheel_ok st ->
  exists fuel0 st' run,
    forall fuel, (fuel0 <= fuel)%nat -> ticks fuel k st = Ok (st', run).
Proof.
  revert st. induction k as [| k IH]; intros st Hok.
  - by exists 0%nat, st, [].
  - destruct (ttimer_tick_total st Hok) as (f1 & st1 & evs & H1).
    assert (Hok1 : wheel_ok st1).
    { eapply ttimer_tick_wheel_ok; [exact Hok | apply (H1 f1); lia]. }
    destruct (IH st1 Hok1) as (f2 & st2 & run & H2).
    exists (f1 `max` f2)%nat, st2, (evs :: run). intros fuel Hle. simpl.
    rewrite H1 by lia. simpl. rewrite H2 by lia. done.
Qed.

Lemma ticks_S fuel k st :
  ticks fuel (S k) st =
  '(st1, evs) ← ttimer_tick fuel st;
  '(st2, rest) ← ticks fuel k st1;
  Ok (st2, evs :: rest).
Proof. done. Qed.

(** An entry that is due in [k] ticks is called on the [k]-th of them and
    on none before. *)
Lemma ticks_due ent fuel k st st' run :
  wheel_ok st -> due st ent (Z.of_nat (S k)) ->
  ticks fuel (S k) st = Ok (st', run) ->
  exists quiet_run evs,
    run = quiet_run ++ [evs] /\
    Forall (fun e => fire_count ent e = 0%nat) quiet_run /\
    fire_count ent evs = 1%nat /\ gone st' ent.
Proof.
  revert st run. induction k as [| k IH]; intros st run Hok Hdue Ht;
    rewrite ticks_S in Ht;
    destruct (ttimer_tick fuel st) as [[st1 evs1] |] eqn:E1;
      cbn [mbind res_bind] in Ht; try done;
    destruct (tick_due ent fuel st st1 evs1 _ Hok Hdue E1)
      as [(Hd & Hg & Hc) | (Hd & Hdue1 & Hc)]; try lia.
  - simpl in Ht. injection Ht as <- <-. by exists [], evs1.
  - assert (Hok1 : wheel_ok st1) by (by eapply ttimer_tick_wheel_ok).
    destruct (ticks fuel (S k) st1) as [[st2 rest] |] eqn:E2;
      cbn [mbind res_bind] in Ht; [| done].
    injection Ht as <- <-.
    replace (Z.of_nat (S (S k)) - 1) with (Z.of_nat (S k)) in Hdue1 by lia.
    destruct (IH st1 rest Hok1 Hdue1 E2) as (q & evs & -> & Hq & Hf & Hg).
    exists (evs1 :: q), evs. split; [done |]. split; [by constructor | done].
Qed.

(** On a three-level wheel whose hands show the time [H], a timer started
    with a timeout [1 <= t <= 256^3] such that [H + t < 256^3 + 2 * 256^2]
    is called on the [t]-th tick exactly: ttimer_start accepts it, the [t]
    ticks return, none of the first [t - 1] calls the handler, the [t]-th
    calls it once, and the entry is then on no list and not scheduled. *)
Theorem timer_fires_on_time st ent timeout h0 h1 h2 :
  wheel_ok st -> hand <$> wheel (tm st) = [h0; h1; h2] ->
  scheduled (mem st ent) = false -> func (mem st ent) <> None ->
  1 <= timeout <= 16777216 ->
  h0 + 256 * h1 + 65536 * h2 + timeout < 16777216 + 131072 ->
  exists st1 fuel0 st2 quiet_run evs,
    ttimer_start st ent timeout = Ok st1 /\
    (forall fuel, (fuel0 <= fuel)%nat ->
       ticks fuel (Z.to_nat timeout) st1 = Ok (st2, quiet_run ++ [evs])) /\
    length quiet_run = Z.to_nat (timeout - 1) /\
    Forall (fun e => fire_count ent e = 0%nat) quiet_run /\
    fire_count ent evs = 1%nat /\ gone st2 ent.
Proof.
  intros Hok Hh Hfree Hf Ht Hsum.
  destruct (ttimer_start_due st ent timeout h0 h1 h2 Hok Hh Hfree Hf Ht Hsum)
    as (st1 & Hst & Hok1 & Hdue).
  destruct (ticks_total (Z.to_nat timeout) st1 Hok1) as (fuel0 & st2 & run & Hrun).
  destruct (Z.to_nat timeout) as [| k] eqn:Ek; [lia |].
  replace timeout with (Z.of_nat (S k)) in Hdue by lia.
  destruct (ticks_due ent fuel0 k st1 st2 run Hok1 Hdue (Hrun fuel0 ltac:(lia)))
    as (q & evs & -> & Hq & Hc & Hg).
  exists st1, fuel0, st2, q, evs. split; [done |]. split; [done |].
  split; [| done].
  pose proof (ticks_length _ _ _ _ _ (Hrun fuel0 ltac:(lia))) as Hlen.
  rewrite length_app in Hlen. simpl in Hlen. lia.
Qed.

(** The random test of the repository: a fresh wheel with three levels and
    any timeout up to 65536. *)
Corollary fresh_wheel_fires_on_time (ent : ref_id) (timeout : Z) :
  1 <= timeout <= 65536 ->
  exists st1 fuel0 st2 quiet_run evs,
    ttimer_start fresh_wheel ent timeout = Ok st1 /\
    (forall fuel, (fuel0 <= fuel)%nat ->
       ticks fuel (Z.to_nat timeout) st1 = Ok (st2, quiet_run ++ [evs])) /\
    length quiet_run = Z.to_nat (timeout - 1) /\
    Forall (fun e => fire_count ent e = 0%nat) quiet_run /\
    fire_count ent evs = 1%nat /\ gone st2 ent.
Proof.
  intros Ht.
  apply (timer_fires_on_time fresh_wheel ent timeout 0 0 0);
    [exact wheel_ok_fresh | done | done | done | lia | lia].
Qed.

(** ** What ttimer_start refuses *)

Lemma start_place_fault (t : ttimer_t) (timeout : Z) f :
  start_place t timeout = Err f -> f = OutOfBounds.
Proof. rewrite start_place_eq. cbn zeta. repeat case_match; congruence. Qed.

Lemma ASSERT_Ok_iff (b : bool) : ASSERT b = Ok tt <-> b = true.
Proof. destruct b; simpl; split; congruence. Qed.

Lemma ttimer_start_fault st ent timeout f :
  ttimer_start st ent timeout = Err f ->
  (f = AssertFailed /\
   (timeout <= 0 \/ scheduled (mem st ent) = true \/ func (mem st ent) = None)) \/
  (f = OutOfBounds /\
   0 < timeout /\ scheduled (mem st ent) = false /\ func (mem st ent) <> None).
Proof.
  unfold ttimer_start.
  destruct (Z.ltb_spec 0 timeout) as [Ht | Ht]; simpl;
    [| intros [= <-]; left; split; [done | left; lia]].
  destruct (scheduled (mem st ent)) eqn:Es; simpl;
    [intros [= <-]; left; split; [done | right; by left] |].
  case_bool_decide as Hf; simpl;
    [| intros [= <-]; left; split; [done | right; right];
       by destruct (func (mem st ent)); [destruct Hf |]].
  destruct (start_place (tm st) timeout) as [[[lv r] rem] | f'] eqn:Ep; simpl.
  - destruct (wheel (tm st) !! lv); simpl; [done |].
    intros [= <-]. by right.
  - intros [= <-]. apply start_place_fault in Ep as ->. by right.
Qed.

(** ttimer_start stops at an assertion exactly when the timeout is not
    positive, the entry is already scheduled or no handler is set; and
    its walk never needs more than the WHEEL_MAX_LEVELS steps it has. *)
Theorem ttimer_start_asserts (st : state) (ent : ref_id) (timeout : Z) :
  (ttimer_start st ent timeout = Err AssertFailed <->
   timeout <= 0 \/ scheduled (mem st ent) = true \/ func (mem st ent) = None) /\
  ttimer_start st ent timeout <> Err OutOfFuel.
Proof.
  split; [split |].
  - intros [[_ H] | [[=] _]]%ttimer_start_fault. done.
  - intros H. unfold ttimer_start.
    destruct (Z.ltb_spec 0 timeout) as [Ht | Ht]; simpl; [| done].
    destruct (scheduled (mem st ent)) eqn:Es; simpl; [done |].
    case_bool_decide as Hf; simpl; [| done].
    destruct H as [H | [H | H]]; [lia | done | done].
  - intros [[[=] _] | [[=] _]]%ttimer_start_fault.
Qed.

Lemma start_place_out_of_bounds (t : ttimer_t) (timeout : Z) :
  (forall level w, wheel t !! level = Some w -> 0 <= hand w < WHEEL_BUCKETS) ->
  (1 <= length (wheel t) <= 3)%nat ->
  start_place t timeout = Err OutOfBounds <->
  (length (wheel t) < 3)%nat /\
  256 ^ Z.of_nat (length (wheel t)) <= hands_value (hand <$> wheel t) + timeout.
Proof.
  intros Hh Hlen. rewrite start_place_eq. unfold WHEEL_BUCKETS in Hh.
  destruct (wheel t) as [| w0 [| w1 [| w2 [| ? ?]]]]; simpl in Hlen; try lia;
    cbn [lookup list_lookup length fmap list_fmap hands_value]; cbn zeta.
  - pose proof (Hh 0%nat w0 eq_refl) as H0.
    change (256 ^ Z.of_nat 1) with 256.
    pose proof (divmod256 (hand w0 + timeout)) as D0.
    pose proof (mod256_bound (hand w0 + timeout)) as B0.
    destruct (Z.ltb_spec 0 ((hand w0 + timeout) / 256)); split;
      try done; intros; try split; lia.
  - pose proof (Hh 0%nat w0 eq_refl) as H0.
    pose proof (Hh 1%nat w1 eq_refl) as H1.
    change (256 ^ Z.of_nat 2) with 65536.
    remember (hand w0 + timeout) as s0 eqn:S0.
    pose proof (divmod256 s0) as D0. pose proof (mod256_bound s0) as B0.
    remember (hand w1 + s0 / 256) as s1 eqn:S1.
    pose proof (divmod256 s1) as D1. pose proof (mod256_bound s1) as B1.
    destruct (Z.ltb_spec 0 (s0 / 256)); [| split; [done | intros; lia]].
    destruct (Z.ltb_spec 0 (s1 / 256)); split; try done; intros;
      try split; lia.
  - split; [| lia]. repeat case_match; done.
Qed.

Lemma ttimer_start_overflows st ent timeout :
  wheel_ok st ->
  0 < timeout -> scheduled (mem st ent) = false -> func (mem st ent) <> None ->
  ttimer_start st ent timeout = Err OutOfBounds <-> start_overflows st timeout.
Proof.
  intros Hok Ht Hfree Hf.
  pose proof Hok as (Hlen & Hlv & Hh & _ & _ & _ & Hsch).
  unfold WHEEL_MAX_LEVELS in *.
  pose proof (start_place_out_of_bounds (tm st) timeout Hh ltac:(lia)) as Hp.
  rewrite <- Hlen in Hp. unfold start_overflows, WHEEL_MAX_LEVELS.
  rewrite <- Hp. unfold ttimer_start.
  destruct (Z.ltb_spec 0 timeout); [| lia]. rewrite Hfree.
  rewrite bool_decide_eq_true_2 by done. simpl.
  destruct (start_place (tm st) timeout) as [[[lv r] rem] | f] eqn:Ep; simpl.
  - destruct (start_place_level_ok _ _ _ _ _ Ep) as [w ->]. simpl.
    split; done.
  - apply start_place_fault in Ep as ->. done.
Qed.

Lemma ttimer_start_fits st ent timeout :
  wheel_ok st ->
  0 < timeout -> scheduled (mem st ent) = false -> func (mem st ent) <> None ->
  ~ start_overflows st timeout ->
  exists st' lv r,
    ttimer_start st ent timeout = Ok st' /\ wheel_ok st' /\
    scheduled (mem st' ent) = true /\
    forall l n, linked st' ent l n <-> l = lv /\ n = r.
Proof.
  intros Hok Ht Hfree Hf Hno.
  pose proof Hok as (_ & _ & _ & _ & _ & _ & Hsch).
  destruct (ttimer_start st ent timeout) as [st' | f] eqn:Es.
  2:{ pose proof Es as Es'.
      apply ttimer_start_fault in Es as [[_ [? | [? | ?]]] | [-> _]];
        [lia | congruence | done |].
      destruct Hno. by apply (ttimer_start_overflows st ent). }
  pose proof (ttimer_start_wheel_ok _ _ _ _ Hok Es) as Hok'.
  apply ttimer_start_Ok in Es as (_ & _ & _ & lv & r & rem & _ & Hsome & ->).
  eexists _, lv, r. split; [done |]. split; [done |]. split.
  - simpl. by rewrite fn_lookup_insert.
  - intros l n. rewrite linked_set_ref, linked_insert by done.
    split; [| tauto]. intros [(_ & ? & ?) | Hl]; [done |].
    assert (scheduled (mem st ent) = true) by (apply Hsch; eauto). congruence.
Qed.

(** For a timeout of at most [TIME_MAX - 255], so that the sums of the
    walk do not overflow [time_t]: on a wheel with fewer than
    WHEEL_MAX_LEVELS levels, ttimer_start reads past the end of [wheel[]]
    exactly when the time shown by the hands plus the timeout does not fit
    into the levels; otherwise, and always with all three levels, it links
    the entry into one bucket and marks it scheduled. *)
Theorem ttimer_start_out_of_bounds (st : state) (ent : ref_id) (timeout : Z) :
  wheel_ok st ->
  0 < timeout <= TIME_MAX - 255 ->
  scheduled (mem st ent) = false -> func (mem st ent) <> None ->
  (ttimer_start st ent timeout = Err OutOfBounds <-> start_overflows st timeout) /\
  (~ start_overflows st timeout ->
   exists st' lv r,
     ttimer_start st ent timeout = Ok st' /\ wheel_ok st' /\
     scheduled (mem st' ent) = true /\
     forall l n, linked st' ent l n <-> l = lv /\ n = r).
Proof.
  intros Hok [Ht _] Hfree Hf.
  split; [by apply ttimer_start_overflows | by apply ttimer_start_fits].
Qed.

Lemma ttimer_start_out_of_bounds_witness :
  exists t,
    ttimer_create true 255 0 = Some t /\
    let st := mk_state t idle_store in
    (ttimer_start st 0%nat 256 = Err OutOfBounds <-> start_overflows st 256) /\
    (~ start_overflows st 256 ->
     exists st' lv r,
       ttimer_start st 0%nat 256 = Ok st' /\ wheel_ok st' /\
       scheduled (mem st' 0%nat) = true /\
       forall l n, linked st' 0%nat l n <-> l = lv /\ n = r).
Proof.
  eexists. split; [reflexivity |].
  apply (ttimer_start_out_of_bounds _ 0%nat 256);
    [by apply (wheel_ok_create _ _ 255 0) | unfold TIME_MAX; lia
    | reflexivity | discriminate].
Defined.

(** ** Starting and stopping *)

Lemma linked_bucket_at st ent level n :
  linked st ent level n <-> ent ∈ bucket_at st level n.
Proof.
  unfold linked, bucket_at. split.
  - by intros (w & -> & Hin).
  - destruct (wheel (tm st) !! level) as [w |]; [eauto |].
    by intros ?%elem_of_nil.
Qed.

Lemma bucket_at_set_ref st ent v level n :
  bucket_at (set_ref ent v st) level n = bucket_at st level n.
Proof. done. Qed.

Lemma bucket_at_remove st ent level n :
  bucket_at (LIST_REMOVE ent st) level n =
  filter (fun x => x <> ent) (bucket_at st level n).
Proof.
  unfold bucket_at, LIST_REMOVE. simpl. rewrite list_lookup_fmap.
  destruct (wheel (tm st) !! level) as [w |]; simpl; [| done].
  apply bucket_get_unlink.
Qed.

Lemma bucket_at_insert st lv r ent level n :
  is_Some (wheel (tm st) !! lv) ->
  bucket_at (LIST_INSERT_HEAD lv r ent st) level n =
  if decide (level = lv /\ n = r) then ent :: bucket_at st level n
  else bucket_at st level n.
Proof.
  intros [w0 Hw0]. unfold bucket_at, LIST_INSERT_HEAD. simpl.
  destruct (decide (lv = level)) as [-> | Hne].
  - rewrite list_lookup_alter_eq, Hw0. simpl. rewrite bucket_get_push.
    destruct (decide (n = r)) as [-> | Hn].
    + by rewrite decide_True.
    + rewrite decide_False; [done | intros [_ ?]; done].
  - rewrite list_lookup_alter_ne by done.
    rewrite decide_False; [done | intros [? _]; done].
Qed.

(** Stopping a timer that was just started undoes the start: ttimer_stop
    returns true, and every bucket list, every hand, [levels], [lastrun] and
    every other reference are as before the start; of the entry itself
    only [remaining] may differ. *)
Theorem ttimer_start_stop_roundtrip (st st1 : state) (ent : ref_id) (timeout : Z) :
  wheel_ok st ->
  ttimer_start st ent timeout = Ok st1 ->
  exists st2,
    ttimer_stop st1 ent = (true, st2) /\
    levels (tm st2) = levels (tm st) /\
    lastrun (tm st2) = lastrun (tm st) /\
    hand <$> wheel (tm st2) = hand <$> wheel (tm st) /\
    (forall level n, bucket_at st2 level n = bucket_at st level n) /\
    (forall e, e <> ent -> mem st2 e = mem st e) /\
    func (mem st2 ent) = func (mem st ent) /\
    arg (mem st2 ent) = arg (mem st ent) /\
    scheduled (mem st2 ent) = scheduled (mem st ent).
Proof.
  intros Hok (Ht & Hfree & Hf & lv & r & rem & Hp & Hlv & ->)%ttimer_start_Ok.
  destruct Hok as (_ & _ & _ & _ & _ & _ & Hsch).
  assert (Hnl : forall l n, ent ∉ bucket_at st l n).
  { intros l n Hin%linked_bucket_at.
    assert (scheduled (mem st ent) = true) by (apply Hsch; eauto). congruence. }
  unfold ttimer_stop. cbn [mem set_ref]. rewrite fn_lookup_insert. cbn [scheduled].
  eexists. split; [reflexivity |].
  split; [done |]. split; [done |].
  split; [| split; [| split; [| split; [| split]]]].
  - cbn [tm set_ref]. rewrite hands_remove. cbn [tm set_ref].
    apply hands_insert.
  - intros level n. rewrite bucket_at_set_ref, bucket_at_remove.
    rewrite bucket_at_set_ref, bucket_at_insert by done.
    case_decide.
    + rewrite filter_cons_False by (intros ?; done).
      by apply filter_not_in.
    + by apply filter_not_in.
  - intros e He. simpl.
    rewrite !(fn_lookup_insert_ne _ ent e) by (intros ->; done). done.
  - cbn [mem set_ref]. by rewrite fn_lookup_insert.
  - cbn [mem set_ref]. by rewrite fn_lookup_insert.
  - cbn [mem set_ref]. by rewrite fn_lookup_insert.
Qed.

Lemma ttimer_start_stop_roundtrip_witness :
  exists st1 st2,
    ttimer_start fresh_wheel 7%nat 70000 = Ok st1 /\
    ttimer_stop st1 7%nat = (true, st2) /\
    levels (tm st2) = levels (tm fresh_wheel) /\
    lastrun (tm st2) = lastrun (tm fresh_wheel) /\
    hand <$> wheel (tm st2) = hand <$> wheel (tm fresh_wheel) /\
    (forall level n, bucket_at st2 level n = bucket_at fresh_wheel level n) /\
    (forall e, e <> 7%nat -> mem st2 e = mem fresh_wheel e) /\
    func (mem st2 7%nat) = func (mem fresh_wheel 7%nat) /\
    arg (mem st2 7%nat) = arg (mem fresh_wheel 7%nat) /\
    scheduled (mem st2 7%nat) = scheduled (mem fresh_wheel 7%nat).
Proof.
  eexists.
  destruct (ttimer_start_stop_roundtrip fresh_wheel _ 7%nat 70000 wheel_ok_fresh
              eq_refl) as (st2 & H).
  exists st2. split; [reflexivity | exact H].
Defined.

(** ** The hands count the ticks *)

Lemma hands_value_bound (hs : list Z) :
  Forall (fun h => 0 <= h < 256) hs ->
  0 <= hands_value hs < 256 ^ Z.of_nat (length hs).
Proof.
  induction 1 as [| h hs Hh _ IH]; [simpl; lia |].
  cbn [hands_value length]. rewrite Nat2Z.inj_succ, Z.pow_succ_r by lia. lia.
Qed.

Lemma hands_succ_length (hs : list Z) : length (hands_succ hs) = length hs.
Proof.
  induction hs as [| h hs IH]; [done |]. simpl.
  destruct (_ =? 0); simpl; by rewrite ?IH.
Qed.

Lemma hands_value_succ (hs : list Z) :
  Forall (fun h => 0 <= h < 256) hs ->
  hands_value (hands_succ hs) = (hands_value hs + 1) mod 256 ^ Z.of_nat (length hs).
Proof.
  induction 1 as [| h hs Hh Hhs IH]; [done |].
  pose proof (hands_value_bound hs Hhs) as Hb.
  cbn [hands_succ hands_value length].
  rewrite Nat2Z.inj_succ, Z.pow_succ_r by lia.
  destruct (succ_mod_cases h Hh) as [[-> ->] | [Hlt ->]].
  - simpl Z.eqb. cbn [hands_value]. rewrite IH.
    replace (255 + 256 * hands_value hs + 1) with (256 * (hands_value hs + 1)) by lia.
    rewrite Z.mul_mod_distr_l by lia. lia.
  - destruct (Z.eqb_spec (h + 1) 0); [lia |]. cbn [hands_value].
    rewrite Z.mod_small by lia. lia.
Qed.

Lemma hands_in_range st :
  wheel_ok st -> Forall (fun h => 0 <= h < 256) (hand <$> wheel (tm st)).
Proof.
  intros (_ & _ & Hh & _). apply Forall_fmap, Forall_lookup.
  intros i w Hw. exact (Hh i w Hw).
Qed.

Lemma drain_levels fuel level n st st' evs :
  drain fuel level n st = Ok (st', evs) -> levels (tm st') = levels (tm st).
Proof.
  intros Hd.
  destruct (drain_invariant_ev
              (fun s => levels (tm s) = levels (tm st))
              (fun _ => True) level n)
    with (fuel := fuel) (st := st) (st' := st') (evs := evs) as [H _]; try done.
  intros s e s' ev Hs Hl Hds. split; [| done]. rewrite <- Hs.
  apply drain_step_Ok in Hds as (_ & Hds).
  destruct Hds as [(_ & fn & _ & -> & _) | (_ & lv & r & new & _ & Hst & _)];
    [done |].
  by apply ttimer_start_Ok in Hst as (_ & _ & _ & ? & ? & ? & _ & _ & ->).
Qed.

(** From the label [next] for [wheel[level]] on, ttimer_tick adds one to
    the number that the hands from [level] up show. *)
Lemma tick_from_hands k fuel level st st' evs :
  wheel_ok st ->
  tick_from k fuel level st = Ok (st', evs) ->
  hand <$> wheel (tm st') =
  take level (hand <$> wheel (tm st))
    ++ hands_succ (drop level (hand <$> wheel (tm st))).
Proof.
  revert level st st' evs.
  induction k as [| k IH]; intros level st st' evs Hok Ht;
    (destruct (wheel (tm st) !! level) as [w |] eqn:Hw;
       [| by (simpl in Ht; rewrite Hw in Ht)]);
    pose proof Hok as (Hlen & _ & Hh & _);
    pose proof (Hh _ _ Hw) as Hhw; unfold WHEEL_BUCKETS in Hhw;
    destruct (tick_from_inv _ _ _ _ _ _ _ Hw Hhw Ht) as (st1 & e1 & Hd & Hc);
    cbn zeta in Hd, Hc;
    pose proof (drain_hands _ _ _ _ _ _ Hd) as Hh1;
    pose proof (drain_levels _ _ _ _ _ _ Hd) as Hl1;
    pose proof (drain_wheel_ok _ _ _ _ _ _ Hok Hd) as Hok1;
    assert (Hdrop : drop level (hand <$> wheel (tm st))
                    = hand w :: drop (S level) (hand <$> wheel (tm st)))
      by (apply drop_S; by rewrite list_lookup_fmap, Hw);
    (destruct Hc as [(Ec & -> & _) | (En & Hlt & k' & e3 & Hk & Ht' & _)];
       [| try done]).
  1,2: rewrite (hands_set_hand level _ st1 _ Hh1), Hdrop; cbn [hands_succ];
       rewrite <- (take_drop_middle (hand <$> wheel (tm st)) level (hand w))
         at 1 by (by rewrite list_lookup_fmap, Hw);
       (rewrite insert_app_r_alt, length_take, length_fmap;
          [| rewrite length_take, length_fmap; lia]);
       assert (Hlv : (level < length (wheel (tm st)))%nat)
         by (by eapply lookup_lt_Some);
       replace (level - level `min` length (wheel (tm st)))%nat with 0%nat by lia;
       cbn [insert list_insert]; f_equal;
       apply andb_false_iff in Ec as [Ec | Ec];
       try (by rewrite Ec);
       apply Nat.ltb_ge in Ec; rewrite Hl1, Hlen in Ec;
       rewrite (drop_ge _ (S level)) by (rewrite length_fmap; lia);
       by destruct (_ =? 0).
  injection Hk as <-.
  assert (Hok2 : wheel_ok (set_hand level 0 st1))
    by exact (wheel_ok_set_hand st1 level 0 Hok1).
  rewrite (IH _ _ _ _ Hok2 Ht').
  rewrite (hands_set_hand level 0 st1 _ Hh1), Hdrop. cbn [hands_succ].
  rewrite En. simpl Z.eqb. cbv iota.
  assert (Hlv : (level < length (wheel (tm st)))%nat)
    by (by eapply lookup_lt_Some).
  rewrite (take_S_r _ _ 0)
    by (rewrite list_lookup_insert_eq; [done | by rewrite length_fmap]).
  rewrite take_insert_ge, drop_insert_lt by lia.
  by rewrite <- app_assoc.
Qed.

Lemma ttimer_tick_hands fuel st st' evs :
  wheel_ok st -> ttimer_tick fuel st = Ok (st', evs) ->
  hand <$> wheel (tm st') = hands_succ (hand <$> wheel (tm st)).
Proof.
  intros Hok Ht. rewrite (tick_from_hands _ _ _ _ _ _ Hok Ht).
  by rewrite take_0, drop_0.
Qed.

Lemma ttimer_tick_levels fuel st st' evs :
  ttimer_tick fuel st = Ok (st', evs) -> levels (tm st') = levels (tm st).
Proof.
  apply (tick_from_invariant (fun s => levels (tm s) = levels (tm st)));
    [| done | done].
  intros level n s ent s' ev Hs Hl Hds. rewrite <- Hs.
  apply drain_step_Ok in Hds as (_ & Hds).
  destruct Hds as [(_ & fn & _ & -> & _) | (_ & lv & r & new & _ & Hst & _)];
    [done |].
  by apply ttimer_start_Ok in Hst as (_ & _ & _ & ? & ? & ? & _ & _ & ->).
Qed.

Lemma exec_op_hands fuel st o st' :
  wheel_ok st -> exec_op fuel st o = Ok st' ->
  levels (tm st') = levels (tm st) /\
  hand <$> wheel (tm st') =
    match o with
    | OpTick => hands_succ (hand <$> wheel (tm st))
    | _ => hand <$> wheel (tm st)
    end.
Proof.
  intros Hok. destruct o as [ent timeout | ent |]; simpl.
  - intros (_ & _ & _ & lv & r & rem & _ & _ & ->)%ttimer_start_Ok.
    split; [done |]. exact (hands_insert st lv r ent).
  - intros [= <-]. unfold ttimer_stop.
    destruct (scheduled (mem st ent)); [| done].
    split; [done |]. exact (hands_remove st ent).
  - destruct (ttimer_tick fuel st) as [[s evs] |] eqn:Et; simpl; [| done].
    intros [= <-]. split; [by eapply ttimer_tick_levels |].
    by eapply ttimer_tick_hands.
Qed.

(** The hands count the calls of ttimer_tick: after any sequence of
    ttimer_start, ttimer_stop and ttimer_tick calls, the hands read as a
    number in base 256 have advanced by the number of ticks, modulo
    256^levels, whatever timers were pending. *)
Theorem hands_count_ticks (fuel : nat) (ops : list op) (st st' : state) :
  wheel_ok st ->
  exec_ops fuel ops st = Ok st' ->
  levels (tm st') = levels (tm st) /\
  hands_value (hand <$> wheel (tm st')) =
  (hands_value (hand <$> wheel (tm st)) + Z.of_nat (count_ticks ops))
    mod 256 ^ Z.of_nat (levels (tm st)).
Proof.
  revert st. induction ops as [| o ops IH]; intros st Hok; simpl.
  - intros [= <-]. split; [done |]. rewrite Z.add_0_r.
    pose proof (hands_value_bound _ (hands_in_range st Hok)) as Hb.
    rewrite length_fmap in Hb. destruct Hok as (-> & _).
    by rewrite Z.mod_small.
  - destruct (exec_op fuel st o) as [st1 |] eqn:Eo; simpl; [| done].
    intros Hrest.
    assert (Hok1 : wheel_ok st1)
      by (apply (exec_ops_wheel_ok fuel [o] st st1 Hok); simpl; by rewrite Eo).
    destruct (exec_op_hands _ _ _ _ Hok Eo) as [Hl Hh].
    destruct (IH st1 Hok1 Hrest) as [Hl' Hv]. split; [congruence |].
    rewrite Hv, Hl, Hh.
    destruct o as [ent timeout | ent |]; [done | done |].
    rewrite (hands_value_succ _ (hands_in_range st Hok)), length_fmap.
    destruct Hok as (<- & _).
    rewrite Z.add_mod_idemp_l by (apply Z.pow_nonzero; lia).
    f_equal. cbn [count_ticks]. lia.
Qed.

Lemma hands_count_ticks_witness :
  exists st',
    exec_ops 1 [OpStart 0%nat 3; OpTick; OpTick; OpStop 0%nat; OpTick] fresh_wheel
      = Ok st' /\
    levels (tm st') = levels (tm fresh_wheel) /\
    hands_value (hand <$> wheel (tm st')) =
    (hands_value (hand <$> wheel (tm fresh_wheel))
     + Z.of_nat (count_ticks [OpStart 0%nat 3; OpTick; OpTick; OpStop 0%nat; OpTick]))
      mod 256 ^ Z.of_nat (levels (tm fresh_wheel)).
Proof.
  eexists. split; [reflexivity |].
  apply (hands_count_ticks 1 _ fresh_wheel _ wheel_ok_fresh). reflexivity.
Defined.

(** ** ttimer_run_ticks in steps, and the invariant *)

Lemma ttimer_run_ticks_ticks fuel st (k : nat) :
  ttimer_run_ticks fuel st (lastrun (tm st) + Z.of_nat k) =
  '(st', run) ← ticks fuel k st;
  Ok (set_lastrun (lastrun (tm st) + Z.of_nat k) st', concat run).
Proof.
  unfold ttimer_run_ticks.
  replace (Z.to_nat (lastrun (tm st) + Z.of_nat k - lastrun (tm st))) with k by lia.
  rewrite run_loop_ticks.
  destruct (ticks fuel k st) as [[st' evs] |]; simpl; done.
Qed.

Lemma set_lastrun_twice x y st : set_lastrun x (set_lastrun y st) = set_lastrun x st.
Proof. done. Qed.

Lemma ttimer_run_ticks_compose_nat fuel st (k1 k2 : nat) :
  ttimer_run_ticks fuel st (lastrun (tm st) + Z.of_nat (k1 + k2)) =
  '(st1, evs1) ← ttimer_run_ticks fuel st (lastrun (tm st) + Z.of_nat k1);
  '(st2, evs2) ← ttimer_run_ticks fuel st1 (lastrun (tm st) + Z.of_nat (k1 + k2));
  Ok (st2, evs1 ++ evs2).
Proof.
  rewrite !ttimer_run_ticks_ticks, ticks_app.
  destruct (ticks fuel k1 st) as [[st1 r1] |] eqn:T1; simpl; [| done].
  pose proof (ttimer_run_ticks_ticks fuel
                (set_lastrun (lastrun (tm st) + Z.of_nat k1) st1) k2) as E.
  cbn [lastrun tm set_lastrun] in E.
  replace (lastrun (tm st) + Z.of_nat k1 + Z.of_nat k2)
    with (lastrun (tm st) + Z.of_nat (k1 + k2)) in E by lia.
  rewrite E, ticks_lastrun. unfold lift_lastrun.
  destruct (ticks fuel k2 st1) as [[st2 r2] |] eqn:T2; simpl; [| done].
  by rewrite concat_app.
Qed.

(** Advancing to [now1] and then to [now2] is advancing to [now2] at
    once: the same fault if a tick faults, and otherwise the same
    callbacks in the same order and the same final state. *)
Theorem ttimer_run_ticks_compose (fuel : nat) (st : state) (now1 now2 : Z) :
  lastrun (tm st) <= now1 <= now2 ->
  ttimer_run_ticks fuel st now2 =
  '(st1, evs1) ← ttimer_run_ticks fuel st now1;
  '(st2, evs2) ← ttimer_run_ticks fuel st1 now2;
  Ok (st2, evs1 ++ evs2).
Proof.
  intros Hle.
  pose proof (ttimer_run_ticks_compose_nat fuel st
                (Z.to_nat (now1 - lastrun (tm st))) (Z.to_nat (now2 - now1))) as E.
  replace (lastrun (tm st) + Z.of_nat (Z.to_nat (now1 - lastrun (tm st))
                                       + Z.to_nat (now2 - now1)))
    with now2 in E by lia.
  replace (lastrun (tm st) + Z.of_nat (Z.to_nat (now1 - lastrun (tm st))))
    with now1 in E by lia.
  exact E.
Qed.

Lemma ttimer_run_ticks_compose_witness :
  ttimer_run_ticks 1 fresh_wheel 5 =
  '(st1, evs1) ← ttimer_run_ticks 1 fresh_wheel 2;
  '(st2, evs2) ← ttimer_run_ticks 1 st1 5;
  Ok (st2, evs1 ++ evs2).
Proof. apply ttimer_run_ticks_compose. simpl. lia. Defined.

Lemma ttimer_setfunc_wheel_ok st ent handler a :
  wheel_ok st -> scheduled (mem st ent) = false ->
  wheel_ok (ttimer_setfunc st ent handler a).
Proof.
  intros (Hlen & Hlv & Hh & Hl & Hnd & Hone & Hsch) Hfree.
  assert (Hnl : forall l n, ~ linked st ent l n).
  { intros l n H.
    assert (scheduled (mem st ent) = true) by (apply Hsch; eauto). congruence. }
  unfold ttimer_setfunc.
  split; [done |]. split; [done |]. split; [done |].
  split; [| split; [done | split; [done |]]].
  - intros e level n H%linked_set_ref.
    destruct (decide (e = ent)) as [-> | Hne]; [by destruct (Hnl _ _ H) |].
    simpl. rewrite fn_lookup_insert_ne by done. by eapply Hl.
  - intros e. simpl. destruct (decide (e = ent)) as [-> | Hne].
    + rewrite fn_lookup_insert. simpl. split; [done |].
      intros (l & n & H%linked_set_ref). by destruct (Hnl _ _ H).
    + rewrite fn_lookup_insert_ne by done. apply Hsch.
Qed.

Lemma ttimer_run_ticks_wheel_ok fuel st now st' evs :
  wheel_ok st -> ttimer_run_ticks fuel st now = Ok (st', evs) -> wheel_ok st'.
Proof.
  intros Hok. destruct (Z_le_gt_dec now (lastrun (tm st))) as [Hle | Hgt].
  - unfold ttimer_run_ticks.
    replace (Z.to_nat (now - lastrun (tm st))) with 0%nat by lia. simpl.
    replace (lastrun (tm st) <? now) with false
      by (symmetry; apply Z.ltb_ge; lia).
    simpl. by intros [= <- _].
  - replace now with (lastrun (tm st) + Z.of_nat (Z.to_nat (now - lastrun (tm st))))
      by lia.
    rewrite ttimer_run_ticks_ticks.
    destruct (ticks fuel _ st) as [[st1 run] |] eqn:Et; simpl; [| done].
    intros [= <- _]. exact (ticks_wheel_ok _ _ _ _ _ Hok Et).
Qed.

Lemma ttimer_run_ticks_total st now :
  wheel_ok st ->
  exists fuel0 st' evs,
    (forall fuel, (fuel0 <= fuel)%nat ->
       ttimer_run_ticks fuel st now = Ok (st', evs)) /\
    wheel_ok st'.
Proof.
  intros Hok.
  destruct (ticks_total (Z.to_nat (now - lastrun (tm st))) st Hok)
    as (fuel0 & st1 & run & Hrun).
  exists fuel0, (set_lastrun now st1), (concat run).
  assert (E : forall fuel, (fuel0 <= fuel)%nat ->
            ttimer_run_ticks fuel st now = Ok (set_lastrun now st1, concat run)).
  { intros fuel Hle. specialize (Hrun fuel Hle).
    destruct (Z_le_gt_dec now (lastrun (tm st))) as [Hn | Hn].
    - replace (Z.to_nat (now - lastrun (tm st))) with 0%nat in Hrun by lia.
      injection Hrun as <- <-. unfold ttimer_run_ticks.
      replace (Z.to_nat (now - lastrun (tm st))) with 0%nat by lia. simpl.
      replace (lastrun (tm st) <? now) with false
        by (symmetry; apply Z.ltb_ge; lia).
      done.
    - replace now
        with (lastrun (tm st) + Z.of_nat (Z.to_nat (now - lastrun (tm st)))) at 1
        by lia.
      rewrite ttimer_run_ticks_ticks, Hrun. simpl.
      by replace (lastrun (tm st) + Z.of_nat (Z.to_nat (now - lastrun (tm st))))
        with now by lia. }
  split; [exact E |].
  eapply ttimer_run_ticks_wheel_ok; [exact Hok | exact (E fuel0 ltac:(lia))].
Qed.

(** The state invariant: [levels] is the length of [wheel[]] and between 1
    and MAX_LEVELS; every hand is a bucket index; every linked reference
    has a handler, remaining time 0 on level 0, below 256 on level 1 and
    not negative on level 2; and the lists are consistent with the
    [scheduled] flags.  From a state that satisfies it, each operation
    returns and keeps it: ttimer_start when its three preconditions hold,
    the timeout is at most [TIME_MAX - 255] and the walk stays inside
    [wheel[]], which it does unless fewer than WHEEL_MAX_LEVELS levels are
    allocated and the time shown by the hands plus the timeout does not
    fit into them (then the call is out of bounds and the invariant is
    lost); ttimer_stop; ttimer_tick and ttimer_run_ticks, with any fuel
    from some bound on, and also with less fuel if they return with it;
    and ttimer_setfunc on a reference that is not scheduled. *)
Theorem wheel_ok_preserved (st : state) :
  wheel_ok st ->
  (forall ent timeout,
      0 < timeout <= TIME_MAX - 255 ->
      scheduled (mem st ent) = false -> func (mem st ent) <> None ->
      ~ start_overflows st timeout ->
      exists st', ttimer_start st ent timeout = Ok st' /\ wheel_ok st') /\
  (forall ent, wheel_ok (ttimer_stop st ent).2) /\
  (exists fuel0 st' evs,
      (forall fuel, (fuel0 <= fuel)%nat -> ttimer_tick fuel st = Ok (st', evs)) /\
      wheel_ok st') /\
  (forall now, exists fuel0 st' evs,
      (forall fuel, (fuel0 <= fuel)%nat ->
         ttimer_run_ticks fuel st now = Ok (st', evs)) /\
      wheel_ok st') /\
  (forall ent handler a,
      scheduled (mem st ent) = false -> wheel_ok (ttimer_setfunc st ent handler a)) /\
  (forall fuel st' evs, ttimer_tick fuel st = Ok (st', evs) -> wheel_ok st') /\
  (forall fuel now st' evs,
      ttimer_run_ticks fuel st now = Ok (st', evs) -> wheel_ok st').
Proof.
  intros Hok. split; [| split; [| split; [| split; [| split; [| split]]]]].
  - intros ent timeout [Ht _] Hfree Hf Hno.
    destruct (ttimer_start_fits st ent timeout Hok Ht Hfree Hf Hno)
      as (st' & lv & r & Hst & Hok' & _).
    by exists st'.
  - intros ent. by apply ttimer_stop_wheel_ok.
  - destruct (ttimer_tick_total st Hok) as (fuel0 & st' & evs & Hrun).
    exists fuel0, st', evs. split; [exact Hrun |].
    eapply ttimer_tick_wheel_ok; [exact Hok | exact (Hrun fuel0 ltac:(lia))].
  - intros now. by apply ttimer_run_ticks_total.
  - intros ent handler a. by apply ttimer_setfunc_wheel_ok.
  - intros fuel st' evs. by apply ttimer_tick_wheel_ok.
  - intros fuel now st' evs. by apply ttimer_run_ticks_wheel_ok.
Qed.

Lemma wheel_ok_preserved_witness :
  exists st,
    wheel_ok st /\ hand <$> wheel (tm st) = [255; 255; 0] /\
    scheduled (mem st 0%nat) = true /\
    (forall ent timeout,
        0 < timeout <= TIME_MAX - 255 ->
        scheduled (mem st ent) = false -> func (mem st ent) <> None ->
        ~ start_overflows st timeout ->
        exists st', ttimer_start st ent timeout = Ok st' /\ wheel_ok st') /\
    (forall ent, wheel_ok (ttimer_stop st ent).2) /\
    (exists fuel0 st' evs,
        (forall fuel, (fuel0 <= fuel)%nat -> ttimer_tick fuel st = Ok (st', evs)) /\
        wheel_ok st') /\
    (forall now, exists fuel0 st' evs,
        (forall fuel, (fuel0 <= fuel)%nat ->
           ttimer_run_ticks fuel st now = Ok (st', evs)) /\
        wheel_ok st') /\
    (forall ent handler a,
        scheduled (mem st ent) = false ->
        wheel_ok (ttimer_setfunc st ent handler a)) /\
    (forall fuel st' evs, ttimer_tick fuel st = Ok (st', evs) -> wheel_ok st') /\
    (forall fuel now st' evs,
        ttimer_run_ticks fuel st now = Ok (st', evs) -> wheel_ok st').
Proof.
  before_cascade st Hok.
  exists st. split; [exact Hok |]. split; [vm_compute; reflexivity |].
  split; [vm_compute; reflexivity |].
  exact (wheel_ok_preserved st Hok).
Defined.

(** ** What ticks do to a reference *)

Lemma drain_fold (R : state -> list event -> Prop) (level : nat) (n : Z) :
  (forall st ent st' ev acc,
      R st acc -> linked st ent level n ->
      drain_step level n ent st = Ok (st', ev) -> R st' (acc ++ [ev])) ->
  forall fuel st st' evs acc,
    R st acc -> drain fuel level n st = Ok (st', evs) -> R st' (acc ++ evs).
Proof.
  intros Hstep fuel. induction fuel as [| fuel IH]; intros st st' evs acc HR; simpl;
    destruct (wheel (tm st) !! level) as [w |] eqn:Ew; try done;
    destruct (bucket_get w n) as [| ent l] eqn:Eb; try done;
    try (intros [= <- <-]; by rewrite app_nil_r).
  destruct (drain_step level n ent st) as [[st1 ev] |] eqn:Es; simpl; [| done].
  destruct (drain fuel level n st1) as [[st2 evs'] |] eqn:Ed; simpl; [| done].
  intros [= <- <-].
  rewrite (cons_middle ev), app_assoc. eapply IH; [| exact Ed].
  eapply Hstep; [exact HR | | exact Es].
  exists w. rewrite Eb. split; [done | by left].
Qed.

Lemma tick_from_fold (R : state -> list event -> Prop) :
  (forall level n st ent st' ev acc,
      R st acc -> linked st ent level n ->
      drain_step level n ent st = Ok (st', ev) -> R st' (acc ++ [ev])) ->
  (forall level n st acc, R st acc -> R st (acc ++ [EvVisit level n])) ->
  (forall level n st acc, R st acc -> R (set_hand level n st) acc) ->
  forall k fuel level st st' evs acc,
    R st acc -> tick_from k fuel level st = Ok (st', evs) -> R st' (acc ++ evs).
Proof.
  intros Hstep Hvisit Hhand k fuel.
  induction k as [| k IH]; intros level st st' evs acc HR; simpl;
    destruct (wheel (tm st) !! level) as [w |] eqn:Ew; try done;
    destruct (drain fuel level _ st) as [[st1 evs1] |] eqn:Ed; simpl; try done;
    pose proof (drain_fold R level _ (Hstep level _) _ _ _ _ _
                  (Hvisit level (MOD_BY_BUCKETS (u32 (hand w + 1))) _ _ HR) Ed)
      as HR1;
    destruct (_ && _); try done;
    try (intros [= <- <-]; rewrite (cons_middle (EvVisit _ _)), app_assoc;
         by apply Hhand).
  destruct (tick_from k fuel (S level) _) as [[st3 evs3] |] eqn:Et; simpl; [| done].
  intros [= <- <-].
  rewrite (cons_middle (EvVisit _ _)), !app_assoc.
  eapply IH; [| exact Et]. by apply Hhand.
Qed.

Lemma ticks_fold (R : state -> list event -> Prop) :
  (forall fuel st st' evs acc,
      R st acc -> ttimer_tick fuel st = Ok (st', evs) -> R st' (acc ++ evs)) ->
  forall fuel k st st' run acc,
    R st acc -> ticks fuel k st = Ok (st', run) -> R st' (acc ++ concat run).
Proof.
  intros Htick fuel k. induction k as [| k IH]; intros st st' run acc HR; simpl.
  - intros [= <- <-]. by rewrite app_nil_r.
  - destruct (ttimer_tick fuel st) as [[st1 evs1] |] eqn:Et; simpl; [| done].
    destruct (ticks fuel k st1) as [[st2 rest] |] eqn:Ek; simpl; [| done].
    intros [= <- <-]. simpl. rewrite app_assoc.
    eapply IH; [| exact Ek]. by eapply Htick.
Qed.

Lemma fire_count_snoc ent acc ev :
  fire_count ent (acc ++ [ev]) = (fire_count ent acc + fire_count ent [ev])%nat.
Proof. apply fire_count_app. Qed.

Lemma accounted_drain_step ent st0 level n st e st' ev acc :
  accounted ent st0 st acc ->
  drain_step level n e st = Ok (st', ev) ->
  accounted ent st0 st' (acc ++ [ev]).
Proof.
  intros (Hf & Ha & Hev & Hc) Hds.
  destruct (decide (e = ent)) as [-> | Hne].
  - apply drain_step_Ok in Hds as (Hs & Hds). cbn zeta in Hds.
    destruct Hc as [[Hsame Hz] | (_ & Hfalse & _)]; [| congruence].
    destruct Hds as [(_ & fn & Hfn & -> & ->) | (_ & lv & r & new & _ & Hst & ->)].
    + split; [by (simpl; rewrite fn_lookup_insert) |].
      split; [by (simpl; rewrite fn_lookup_insert) |].
      split.
      * apply Forall_app. split; [done |]. constructor; [| done].
        intros fn' a' [= <- <-]. by rewrite <- Hf, <- Ha.
      * right. split; [congruence |].
        split; [by (simpl; rewrite fn_lookup_insert) |].
        rewrite fire_count_snoc, Hz. simpl. by rewrite bool_decide_eq_true_2.
    + apply ttimer_start_Ok in Hst as (_ & _ & _ & lv' & r' & rem' & _ & _ & ->).
      unfold accounted. simpl. rewrite !fn_lookup_insert. simpl.
      split; [done |]. split; [done |]. split.
      * apply Forall_app. split; [done |]. by constructor.
      * left. split; [congruence |]. by rewrite fire_count_snoc, Hz.
  - destruct (linked_after_drain_step level n e st st' ev ent 0%nat 0
                ltac:(congruence) Hds) as [_ Hm].
    pose proof (drain_step_ev_ref _ _ _ _ _ _ Hds) as Hr.
    assert (Hz : fire_count ent [ev] = 0%nat).
    { apply fire_count_other. constructor; [| done]. rewrite Hr. congruence. }
    unfold accounted. rewrite Hm, fire_count_snoc, Hz, !Nat.add_0_r.
    split; [done |]. split; [done |]. split; [| done].
    apply Forall_app. split; [done |]. constructor; [| done].
    intros fn a ->. simpl in Hr. congruence.
Qed.

Lemma accounted_tick ent st0 fuel st st' evs acc :
  accounted ent st0 st acc ->
  ttimer_tick fuel st = Ok (st', evs) ->
  accounted ent st0 st' (acc ++ evs).
Proof.
  apply (tick_from_fold (accounted ent st0)).
  - intros level n s e s' ev a HR _. by apply accounted_drain_step.
  - intros level n s a (Hf & Ha & Hev & Hc).
    unfold accounted. rewrite fire_count_snoc. simpl. rewrite Nat.add_0_r.
    split; [done |]. split; [done |]. split; [| done].
    apply Forall_app. split; [done |]. by constructor.
  - intros level n s a HR. exact HR.
Qed.

Lemma accounted_refl ent st : accounted ent st st [].
Proof. split; [done |]. split; [done |]. split; [done |]. by left. Qed.

Lemma ticks_accounted ent fuel k st st' run :
  ticks fuel k st = Ok (st', run) -> accounted ent st st' (concat run).
Proof.
  intros Ht.
  exact (ticks_fold (accounted ent st) (accounted_tick ent st)
           fuel k st st' run [] (accounted_refl ent st) Ht).
Qed.

(** What ticks do to a reference.  Its handler is called once if the
    reference was scheduled and is not any more, and not at all otherwise;
    a reference that was not scheduled is not scheduled afterwards; each
    call is made with the function and the argument that the reference
    holds; and [func] and [arg] are left as they are.  So no scheduled
    timer is dropped without its callback, and none that is not scheduled
    is called. *)
Theorem ticks_account (fuel : nat) (k : nat) (st st' : state)
    (run : list (list event)) (ent : ref_id) :
  ticks fuel k st = Ok (st', run) ->
  fire_count ent (concat run) =
    (if scheduled (mem st ent) && negb (scheduled (mem st' ent))
     then 1 else 0)%nat /\
  (scheduled (mem st' ent) = true -> scheduled (mem st ent) = true) /\
  func (mem st' ent) = func (mem st ent) /\
  arg (mem st' ent) = arg (mem st ent) /\
  (forall fn a, EvFire ent fn a ∈ concat run ->
                func (mem st ent) = Some fn /\ arg (mem st ent) = a).
Proof.
  intros Ht.
  destruct (ticks_accounted ent _ _ _ _ _ Ht) as (Hf & Ha & Hev & Hc).
  split; [| split; [| split; [done | split; [done |]]]].
  - destruct Hc as [[E1 E2] | (Hs & E1 & E2)]; rewrite E2.
    + rewrite E1. by destruct (scheduled (mem st ent)).
    + by rewrite Hs, E1.
  - destruct Hc as [[E1 E2] | (Hs & E1 & E2)]; congruence.
  - intros fn a Hin. rewrite Forall_forall in Hev.
    exact (Hev _ Hin fn a eq_refl).
Qed.

Lemma ticks_account_witness :
  exists st1 st' run,
    ttimer_start fresh_wheel 0%nat 2 = Ok st1 /\
    ticks 1 3 st1 = Ok (st', run) /\
    fire_count 0%nat (concat run) =
      (if scheduled (mem st1 0%nat) && negb (scheduled (mem st' 0%nat))
       then 1 else 0)%nat /\
    (scheduled (mem st' 0%nat) = true -> scheduled (mem st1 0%nat) = true) /\
    func (mem st' 0%nat) = func (mem st1 0%nat) /\
    arg (mem st' 0%nat) = arg (mem st1 0%nat) /\
    (forall fn a, EvFire 0%nat fn a ∈ concat run ->
                  func (mem st1 0%nat) = Some fn /\ arg (mem st1 0%nat) = a).
Proof.
  eexists _, _, _. split; [reflexivity |].
  assert (H : ticks 1 3
               (set_ref 0%nat (mk_ref 0 (Some 1) 0 true)
                  (LIST_INSERT_HEAD 0 2 0%nat fresh_wheel)) = Ok
               (ltac:(let r := eval vm_compute in
                        (ticks 1 3 (set_ref 0%nat (mk_ref 0 (Some 1) 0 true)
                                      (LIST_INSERT_HEAD 0 2 0%nat fresh_wheel))) in
                      lazymatch r with Ok ?p => exact p end)))
    by (vm_compute; reflexivity).
  split; [exact H |]. exact (ticks_account _ _ _ _ _ 0%nat H).
Defined.

(** ** The test ttimer_random *)

Lemma fire_count_zero_no_fire evs :
  (forall e, fire_count e evs = 0%nat) ->
  Forall (fun ev => forall e fn a, ev <> EvFire e fn a) evs.
Proof.
  induction evs as [| ev evs IH]; intros H; [done |]. constructor.
  - intros e fn a ->. specialize (H e). simpl in H.
    rewrite bool_decide_eq_true_2 in H by done. lia.
  - apply IH. intros e. specialize (H e). destruct ev; simpl in H; lia.
Qed.

Lemma run_handlers_no_fire g evs :
  Forall (fun ev => forall e fn a, ev <> EvFire e fn a) evs ->
  run_handlers g evs = Ok g.
Proof.
  induction 1 as [| ev evs Hev _ IH]; [done |].
  destruct ev as [| | e fn a]; simpl; try done. by destruct (Hev e fn a).
Qed.

Lemma run_handlers_fire g evs :
  Forall (fun ev => forall e fn a, ev = EvFire e fn a ->
                    fn = timeout_handler_addr /\ a = setval_addr) evs ->
  run_handlers g evs = Ok g \/
  run_handlers g evs = Ok (mk_globals (setval g) (setval g)).
Proof.
  intros H. revert g. induction H as [| ev evs Hev _ IH]; intros g; [by left |].
  destruct ev as [| | e fn a]; simpl; try apply IH.
  destruct (Hev e fn a eq_refl) as [-> ->]. simpl.
  destruct (IH (mk_globals (setval g) (setval g))) as [-> | ->]; by right.
Qed.

Lemma run_handlers_fired g evs ent :
  Forall (fun ev => forall e fn a, ev = EvFire e fn a ->
                    fn = timeout_handler_addr /\ a = setval_addr) evs ->
  fire_count ent evs = 1%nat ->
  run_handlers g evs = Ok (mk_globals (setval g) (setval g)).
Proof.
  intros H. revert g. induction H as [| ev evs Hev Hevs IH]; intros g; [done |].
  destruct ev as [| | e fn a]; simpl; try apply IH.
  destruct (Hev e fn a eq_refl) as [-> ->]. simpl. intros _.
  destruct (run_handlers_fire (mk_globals (setval g) (setval g)) evs Hevs)
    as [-> | ->]; done.
Qed.

Lemma test_loop_app fuel k1 k2 st g :
  test_loop fuel (k1 + k2) st g =
  '(st1, g1) ← test_loop fuel k1 st g; test_loop fuel k2 st1 g1.
Proof.
  revert st g. induction k1 as [| k1 IH]; intros st g; simpl; [done |].
  destruct (ASSERT _); simpl; [| done].
  destruct (test_tick fuel st g) as [[st1 g1] |]; simpl; [| done].
  apply IH.
Qed.

(** Ticks in which no handler is called leave the globals alone. *)
Lemma test_loop_quiet fuel k st st' run g :
  ticks fuel k st = Ok (st', run) ->
  Forall (fun evs => forall e, fire_count e evs = 0%nat) run ->
  gotval g = 0 ->
  test_loop fuel k st g = Ok (st', g).
Proof.
  revert st run. induction k as [| k IH]; intros st run; simpl.
  - by intros [= <- <-].
  - destruct (ttimer_tick fuel st) as [[st1 evs] |] eqn:Et; simpl; [| done].
    destruct (ticks fuel k st1) as [[st2 rest] |] eqn:Ek; simpl; [| done].
    intros [= <- <-] Hq Hg. apply Forall_cons in Hq as [Hq1 Hq].
    rewrite Hg. simpl. unfold test_tick. rewrite Et. simpl.
    rewrite (run_handlers_no_fire g evs) by (by apply fire_count_zero_no_fire).
    simpl. by eapply IH.
Qed.

Lemma ttimer_start_levels st ent timeout st' :
  ttimer_start st ent timeout = Ok st' -> levels (tm st') = levels (tm st).
Proof. by intros (_ & _ & _ & ? & ? & ? & _ & _ & ->)%ttimer_start_Ok. Qed.

Lemma ticks_levels fuel k st st' run :
  ticks fuel k st = Ok (st', run) -> levels (tm st') = levels (tm st).
Proof.
  revert st run. induction k as [| k IH]; intros st run; simpl.
  - by intros [= <- <-].
  - destruct (ttimer_tick fuel st) as [[st1 evs] |] eqn:Et; simpl; [| done].
    destruct (ticks fuel k st1) as [[st2 rest] |] eqn:Ek; simpl; [| done].
    intros [= <- <-]. rewrite (IH _ _ Ek). by eapply ttimer_tick_levels.
Qed.

Lemma three_hands st :
  wheel_ok st -> levels (tm st) = 3%nat ->
  exists h0 h1 h2, hand <$> wheel (tm st) = [h0; h1; h2].
Proof.
  intros (Hlen & _) Hl. rewrite Hl in Hlen.
  destruct (wheel (tm st)) as [| w0 [| w1 [| w2 [| ? ?]]]]; try done.
  by eexists _, _, _.
Qed.

Lemma concat_Forall_count ent (run : list (list event)) :
  fire_count ent (concat run) = 0%nat ->
  Forall (fun evs => fire_count ent evs = 0%nat) run.
Proof.
  induction run as [| evs run IH]; simpl; [done |].
  rewrite fire_count_app. intros H. constructor; [lia | apply IH; lia].
Qed.

Lemma accounted_idle ent st0 st acc :
  accounted ent st0 st acc -> scheduled (mem st0 ent) = false ->
  scheduled (mem st ent) = false /\ fire_count ent acc = 0%nat.
Proof. intros (_ & _ & _ & [[E1 E2] | (Hs & _)]) H0; [| congruence]. by rewrite E1. Qed.

Lemma fire_count_pos e fn a evs :
  EvFire e fn a ∈ evs -> (1 <= fire_count e evs)%nat.
Proof.
  induction evs as [| ev evs IH]; [by intros ?%elem_of_nil |].
  intros [<- | Hin]%elem_of_cons.
  - simpl. rewrite bool_decide_eq_true_2 by done. lia.
  - specialize (IH Hin). destruct ev; simpl; lia.
Qed.

Lemma ttimer_start_mem st ent timeout st' :
  ttimer_start st ent timeout = Ok st' ->
  func (mem st' ent) = func (mem st ent) /\
  arg (mem st' ent) = arg (mem st ent) /\
  forall e, e <> ent -> mem st' e = mem st e.
Proof.
  intros (_ & _ & _ & lv & r & rem & _ & _ & ->)%ttimer_start_Ok. simpl.
  rewrite fn_lookup_insert. split; [done |]. split; [done |].
  intros e He. by rewrite (fn_lookup_insert_ne _ ent e) by congruence.
Qed.

Lemma ticks_split fuel k st st' run1 evs :
  ticks fuel (S k) st = Ok (st', run1 ++ [evs]) ->
  exists st1,
    ticks fuel k st = Ok (st1, run1) /\ ttimer_tick fuel st1 = Ok (st', evs).
Proof.
  replace (S k) with (k + 1)%nat by lia. rewrite ticks_app.
  destruct (ticks fuel k st) as [[st1 r1] |] eqn:E1; simpl; [| done].
  destruct (ttimer_tick fuel st1) as [[st2 e2] |] eqn:E2; simpl; [| done].
  intros [= <- Hr]. apply app_inj_tail in Hr as [-> ->]. by exists st1.
Qed.

Lemma random_round_ok ent rnd st :
  test_inv ent st -> 0 <= rnd ->
  exists fuel0 st2,
    (forall fuel, (fuel0 <= fuel)%nat ->
       random_round fuel ent rnd st = Ok (st2, mk_globals 2 2)) /\
    test_inv ent st2.
Proof.
  intros (Hok & Hl3 & Hfn & Harg & Hidle) Hrnd.
  pose proof (Z.mod_pos_bound rnd 65536 ltac:(lia)) as Hm.
  remember (rnd mod 65536 + 1) as t eqn:Et.
  destruct (three_hands st Hok Hl3) as (h0 & h1 & h2 & Hh).
  destruct (hands_bounds _ _ _ _ Hok Hh) as (_ & B0 & B1 & B2).
  destruct (timer_fires_on_time st ent t h0 h1 h2 Hok Hh (Hidle ent)
              ltac:(by rewrite Hfn) ltac:(lia) ltac:(lia))
    as (st1 & fuel0 & st2 & quiet_run & evs & Hst & Hrun & Hlen & Hq & Hc & Hg).
  destruct (ttimer_start_mem _ _ _ _ Hst) as (Hf1 & Ha1 & Hm1).
  pose proof (ttimer_start_wheel_ok _ _ _ _ Hok Hst) as Hok1.
  assert (Hk : Z.to_nat t = S (Z.to_nat (t - 1))) by lia.
  assert (Hothers : forall e, e <> ent -> scheduled (mem st1 e) = false).
  { intros e He. rewrite Hm1 by done. apply Hidle. }
  exists fuel0, st2. split.
  - intros fuel Hle. specialize (Hrun fuel Hle). rewrite Hk in Hrun.
    destruct (ticks_split _ _ _ _ _ _ Hrun) as (stm & E1 & E2).
    unfold random_round. cbn zeta. change (256 * 256) with 65536.
    rewrite <- Et, u32_small by lia. rewrite Hst. simpl.
    rewrite Hk. replace (S (Z.to_nat (t - 1))) with (Z.to_nat (t - 1) + 1)%nat by lia.
    rewrite test_loop_app.
    assert (Hquiet : Forall (fun evs => forall e, fire_count e evs = 0%nat) quiet_run).
    { apply Forall_forall. intros es Hes e.
      destruct (decide (e = ent)) as [-> | He].
      - rewrite Forall_forall in Hq. by apply Hq.
      - destruct (accounted_idle e st1 stm (concat quiet_run)
                    (ticks_accounted e _ _ _ _ _ E1) (Hothers e He)) as [_ Hz].
        apply concat_Forall_count in Hz. rewrite Forall_forall in Hz.
        by apply Hz. }
    rewrite (test_loop_quiet fuel _ st1 stm quiet_run (mk_globals 0 2) E1 Hquiet)
      by done.
    simpl. unfold test_tick. rewrite E2. simpl.
    assert (Hev : Forall (fun ev => forall e fn a, ev = EvFire e fn a ->
                     fn = timeout_handler_addr /\ a = setval_addr) evs).
    { apply Forall_forall. intros ev Hin e fn a ->.
      assert (Et1 : ticks fuel 1 stm = Ok (st2, [evs])) by (simpl; by rewrite E2).
      pose proof (ticks_accounted e _ _ _ _ _ Et1) as Hacc.
      destruct (decide (e = ent)) as [-> | He].
      - destruct Hacc as (_ & _ & Hfa & _). simpl in Hfa.
        rewrite app_nil_r, Forall_forall in Hfa.
        destruct (Hfa _ Hin fn a eq_refl) as [Hf Ha].
        destruct (ticks_accounted ent _ _ _ _ _ E1) as (Hf' & Ha' & _).
        rewrite Hf', Hf1, Hfn in Hf. rewrite Ha', Ha1, Harg in Ha.
        split; congruence.
      - assert (Hsm : scheduled (mem stm e) = false).
        { by destruct (accounted_idle e st1 stm _
                         (ticks_accounted e _ _ _ _ _ E1) (Hothers e He)). }
        destruct (accounted_idle e stm st2 _ Hacc Hsm) as [_ Hz].
        simpl in Hz. rewrite app_nil_r in Hz.
        pose proof (fire_count_pos _ _ _ _ Hin). lia. }
    rewrite (run_handlers_fired (mk_globals 0 2) evs ent Hev Hc). done.
  - specialize (Hrun fuel0 ltac:(lia)).
    split; [by eapply ticks_wheel_ok |].
    split; [by rewrite (ticks_levels _ _ _ _ _ Hrun), (ttimer_start_levels _ _ _ _ Hst) |].
    destruct (ticks_accounted ent _ _ _ _ _ Hrun) as (Hf' & Ha' & _).
    split; [congruence |]. split; [congruence |].
    intros e. destruct (decide (e = ent)) as [-> | He]; [by destruct Hg |].
    by destruct (accounted_idle e st1 st2 _
                   (ticks_accounted e _ _ _ _ _ Hrun) (Hothers e He)).
Qed.

Lemma random_rounds_ok ent rnds st g :
  test_inv ent st -> Forall (fun rnd => 0 <= rnd) rnds ->
  exists fuel0 st' g',
    forall fuel, (fuel0 <= fuel)%nat ->
      random_rounds fuel ent rnds st g = Ok (st', g').
Proof.
  intros Hinv Hr. revert st g Hinv.
  induction Hr as [| rnd rnds Hrnd _ IH]; intros st g Hinv.
  - by exists 0%nat, st, g.
  - destruct (random_round_ok ent rnd st Hinv Hrnd) as (f1 & st1 & H1 & Hinv1).
    destruct (IH st1 (mk_globals 2 2) Hinv1) as (f2 & st2 & g2 & H2).
    exists (f1 `max` f2)%nat, st2, g2. intros fuel Hle. simpl.
    rewrite H1 by lia. simpl. apply H2. lia.
Qed.

Lemma ttimer_setup_inv m0 maxtimeout now ent (st : state) :
  ttimer_setup true m0 maxtimeout now ent = Ok st ->
  (forall e, e <> ent -> scheduled (m0 e) = false) ->
  wheel_ok st /\ levels (tm st) = create_levels maxtimeout /\
  func (mem st ent) = Some timeout_handler_addr /\
  arg (mem st ent) = setval_addr /\
  forall e, scheduled (mem st e) = false.
Proof.
  unfold ttimer_setup. simpl. intros [= <-] Hm0.
  assert (Hidle : forall e,
             scheduled ((<[ent := mk_ref (remaining (m0 ent))
                                    (Some timeout_handler_addr) setval_addr false]> m0) e)
             = false).
  { intros e. destruct (decide (e = ent)) as [-> | He].
    - by rewrite fn_lookup_insert.
    - rewrite fn_lookup_insert_ne by done. by apply Hm0. }
  split; [| split; [done | split; [| split; [| exact Hidle]]]].
  - by apply (wheel_ok_create _ _ maxtimeout now).
  - simpl. by rewrite fn_lookup_insert.
  - simpl. by rewrite fn_lookup_insert.
Qed.

(** The test ttimer_random.  If the calloc of ttimer_create fails, the
    test stops at [assert(timer)] in ttimer_setup.  Otherwise it passes
    whatever values random() returns, and however many rounds it makes: no
    assertion of the test or of the library fails, no access is out of
    bounds, and every loop ends.  In each round the handler has not run
    before the last of the [steps] ticks and has run after it. *)
Theorem ttimer_random_passes (calloc_ok : bool) (m0 : store) (now : Z)
    (g : globals) (rnds : list Z) :
  (forall e, e <> 0%nat -> scheduled (m0 e) = false) ->
  Forall (fun rnd => 0 <= rnd) rnds ->
  exists fuel0, forall fuel, (fuel0 <= fuel)%nat ->
    ttimer_random fuel calloc_ok m0 now g rnds =
    if calloc_ok then Ok tt else Err AssertFailed.
Proof.
  intros Hm0 Hr. destruct calloc_ok; [| by exists 0%nat].
  unfold ttimer_random. cbn zeta.
  destruct (ttimer_setup true m0 (256 * 256) now 0%nat) as [st |] eqn:Es; [| done].
  destruct (ttimer_setup_inv _ _ _ _ _ Es Hm0) as (Hok & Hl & Hf & Ha & Hidle).
  destruct (random_rounds_ok 0%nat rnds st g ltac:(done) Hr) as (f & st' & g' & H).
  exists f. intros fuel Hle. simpl. by rewrite H.
Qed.

Lemma ttimer_random_passes_witness :
  (exists fuel0, forall fuel, (fuel0 <= fuel)%nat ->
     ttimer_random fuel true idle_store 1700000000 (mk_globals 0 0)
       [1804289383; 846930886; 65535] = Ok tt) /\
  (exists fuel0, forall fuel, (fuel0 <= fuel)%nat ->
     ttimer_random fuel false idle_store 1700000000 (mk_globals 0 0)
       [1804289383; 846930886; 65535] = Err AssertFailed).
Proof.
  split.
  - apply (ttimer_random_passes true); [reflexivity | repeat constructor; lia].
  - apply (ttimer_random_passes false); [reflexivity | repeat constructor; lia].
Defined.

(** ** ttimer_setfunc on a scheduled entry; ttimer_run_ticks to the deadline *)

(** ttimer_setfunc does not take the entry off its list.  Called on an
    entry that is linked, it leaves it linked but marks it not scheduled:
    ttimer_stop then returns false and removes nothing, and a tick that
    finds the entry at the head of the bucket it drains stops at
    [ASSERT(ent->scheduled)]. *)
Theorem ttimer_setfunc_linked (st : state) (ent : ref_id) (handler : option Z)
    (a : Z) (level : nat) (n : Z) :
  linked st ent level n ->
  let st1 := ttimer_setfunc st ent handler a in
  linked st1 ent level n /\
  scheduled (mem st1 ent) = false /\
  ~ links_ok st1 /\
  ttimer_stop st1 ent = (false, st1) /\
  (forall w rest fuel,
      wheel (tm st) !! 0%nat = Some w ->
      bucket_get w (MOD_BY_BUCKETS (u32 (hand w + 1))) = ent :: rest ->
      ttimer_tick (S fuel) st1 = Err AssertFailed).
Proof.
  intros Hl st1.
  assert (Hs : scheduled (mem st1 ent) = false)
    by (unfold st1, ttimer_setfunc; simpl; by rewrite fn_lookup_insert).
  split; [by apply linked_set_ref |]. split; [exact Hs |].
  split; [| split].
  - intros (_ & _ & Hsch).
    assert (scheduled (mem st1 ent) = true)
      by (apply Hsch; exists level, n; by apply linked_set_ref).
    congruence.
  - unfold ttimer_stop. by rewrite Hs.
  - intros w rest fuel Hw Hb. unfold ttimer_tick.
    assert (Hd : drain (S fuel) 0 (MOD_BY_BUCKETS (u32 (hand w + 1))) st1
                 = Err AssertFailed).
    { cbn [drain]. change (wheel (tm st1)) with (wheel (tm st)).
      rewrite Hw, Hb. unfold drain_step. by rewrite Hs. }
    destruct (levels (tm st1)); cbn [tick_from];
      change (wheel (tm st1)) with (wheel (tm st)); rewrite Hw; cbn zeta;
      by rewrite Hd.
Qed.

Lemma ttimer_setfunc_linked_witness :
  exists st,
    ttimer_start fresh_wheel 0%nat 1 = Ok st /\
    let st1 := ttimer_setfunc st 0%nat (Some 5) 0 in
    linked st1 0%nat 0%nat 1 /\
    scheduled (mem st1 0%nat) = false /\
    ~ links_ok st1 /\
    ttimer_stop st1 0%nat = (false, st1) /\
    (forall w rest fuel,
        wheel (tm st) !! 0%nat = Some w ->
        bucket_get w (MOD_BY_BUCKETS (u32 (hand w + 1))) = 0%nat :: rest ->
        ttimer_tick (S fuel) st1 = Err AssertFailed).
Proof.
  eexists. split; [reflexivity |].
  apply (ttimer_setfunc_linked _ 0%nat (Some 5) 0 0%nat 1).
  eexists. split; [reflexivity |]. vm_compute. by left.
Defined.

Lemma ticks_prefix fuel k1 k2 st st' run :
  ticks fuel (k1 + k2) st = Ok (st', run) ->
  exists st1 r1 r2,
    ticks fuel k1 st = Ok (st1, r1) /\ ticks fuel k2 st1 = Ok (st', r2) /\
    run = r1 ++ r2.
Proof.
  rewrite ticks_app.
  destruct (ticks fuel k1 st) as [[st1 r1] |] eqn:E1; simpl; [| done].
  destruct (ticks fuel k2 st1) as [[st2 r2] |] eqn:E2; simpl; [| done].
  intros [= <- <-]. by exists st1, r1, r2.
Qed.

Lemma fire_count_concat_zero ent (run : list (list event)) :
  Forall (fun evs => fire_count ent evs = 0%nat) run ->
  fire_count ent (concat run) = 0%nat.
Proof.
  induction 1 as [| evs run He _ IH]; simpl; [done |].
  rewrite fire_count_app. lia.
Qed.

(** The same for ttimer_run_ticks: started under the conditions of
    [timer_fires_on_time], the timer is not called by an advance to any
    time before [lastrun + timeout], after which it is still scheduled, and
    it is called once by the advance to [lastrun + timeout], after which it
    is not scheduled. *)
Theorem ttimer_run_ticks_fires_on_time (st : state) (ent : ref_id)
    (timeout h0 h1 h2 : Z) :
  wheel_ok st -> hand <$> wheel (tm st) = [h0; h1; h2] ->
  scheduled (mem st ent) = false -> func (mem st ent) <> None ->
  1 <= timeout <= 16777216 ->
  h0 + 256 * h1 + 65536 * h2 + timeout < 16777216 + 131072 ->
  exists st1 fuel0,
    ttimer_start st ent timeout = Ok st1 /\
    forall fuel, (fuel0 <= fuel)%nat ->
      (forall now, now < lastrun (tm st) + timeout ->
         exists st2 evs,
           ttimer_run_ticks fuel st1 now = Ok (st2, evs) /\
           fire_count ent evs = 0%nat /\ scheduled (mem st2 ent) = true) /\
      (exists st2 evs,
         ttimer_run_ticks fuel st1 (lastrun (tm st) + timeout) = Ok (st2, evs) /\
         fire_count ent evs = 1%nat /\ scheduled (mem st2 ent) = false).
Proof.
  intros Hok Hh Hfree Hf Ht Hsum.
  destruct (timer_fires_on_time st ent timeout h0 h1 h2 Hok Hh Hfree Hf Ht Hsum)
    as (st1 & fuel0 & st2 & q & evs & Hst & Hrun & Hlen & Hq & Hc & Hg).
  assert (Hlr : lastrun (tm st1) = lastrun (tm st))
    by (by apply ttimer_start_Ok in Hst as (_ & _ & _ & ? & ? & ? & _ & _ & ->)).
  assert (Hs1 : scheduled (mem st1 ent) = true).
  { apply ttimer_start_Ok in Hst as (_ & _ & _ & ? & ? & ? & _ & _ & ->).
    simpl. by rewrite fn_lookup_insert. }
  exists st1, fuel0. split; [done |]. intros fuel Hle.
  specialize (Hrun fuel Hle). split.
  - intros now Hnow.
    destruct (Z_le_gt_dec now (lastrun (tm st1))) as [Hbefore | Hafter].
    { exists (set_lastrun now st1), []. split; [| done].
      unfold ttimer_run_ticks.
      replace (Z.to_nat (now - lastrun (tm st1))) with 0%nat by lia. simpl.
      replace (lastrun (tm st1) <? now) with false
        by (symmetry; apply Z.ltb_ge; lia).
      done. }
    remember (Z.to_nat (now - lastrun (tm st1))) as k eqn:Ek.
    replace (Z.to_nat timeout) with (k + (Z.to_nat timeout - k))%nat in Hrun by lia.
    destruct (ticks_prefix _ _ _ _ _ _ Hrun) as (stk & r1 & r2 & E1 & E2 & Hr).
    replace now with (lastrun (tm st1) + Z.of_nat k) by lia.
    rewrite ttimer_run_ticks_ticks, E1. simpl.
    eexists _, _. split; [done |].
    assert (Hr1 : r1 = take k q).
    { pose proof (ticks_length _ _ _ _ _ E1) as L1.
      apply (f_equal (take k)) in Hr.
      rewrite take_app_le in Hr by lia.
      rewrite take_app_length' in Hr by done. done. }
    assert (Hz : fire_count ent (concat r1) = 0%nat).
    { apply fire_count_concat_zero. rewrite Hr1. by apply Forall_take. }
    split; [done |]. simpl.
    destruct (ticks_accounted ent _ _ _ _ _ E1)
      as (_ & _ & _ & [[-> _] | (_ & _ & H1)]); [done | lia].
  - replace (lastrun (tm st) + timeout)
      with (lastrun (tm st1) + Z.of_nat (Z.to_nat timeout)) by lia.
    rewrite ttimer_run_ticks_ticks, Hrun. simpl.
    eexists _, _. split; [done |]. rewrite concat_app, fire_count_app. simpl.
    rewrite app_nil_r, Hc, (fire_count_concat_zero _ _ Hq).
    split; [done |]. by destruct Hg.
Qed.

Lemma ttimer_run_ticks_fires_on_time_witness :
  exists st1 fuel0,
    ttimer_start fresh_wheel 3%nat 70000 = Ok st1 /\
    forall fuel, (fuel0 <= fuel)%nat ->
      (forall now, now < lastrun (tm fresh_wheel) + 70000 ->
         exists st2 evs,
           ttimer_run_ticks fuel st1 now = Ok (st2, evs) /\
           fire_count 3%nat evs = 0%nat /\ scheduled (mem st2 3%nat) = true) /\
      (exists st2 evs,
         ttimer_run_ticks fuel st1 (lastrun (tm fresh_wheel) + 70000) = Ok (st2, evs) /\
         fire_count 3%nat evs = 1%nat /\ scheduled (mem st2 3%nat) = false).
Proof.
  apply (ttimer_run_ticks_fires_on_time fresh_wheel 3%nat 70000 0 0 0);
    [exact wheel_ok_fresh | reflexivity | reflexivity | discriminate | lia | lia].
Defined.

(** ** Never early *)

Lemma mod65536_split (R : Z) :
  R mod 65536 = R mod 256 + 256 * ((R / 256) mod 256).
Proof.
  pose proof (divmod256 R) as D0. pose proof (mod256_bound R) as B0.
  pose proof (divmod256 (R / 256)) as D1.
  pose proof (mod256_bound (R / 256)) as B1.
  symmetry. apply (Z.mod_unique_pos _ _ (R / 256 / 256)); lia.
Qed.

Lemma mod65536_add (x k : Z) : (x + 65536 * k) mod 65536 = x mod 65536.
Proof. rewrite Z.mul_comm. apply Z.mod_add. lia. Qed.

(** Where ttimer_start puts an entry that the drain of bucket
    [(h2 + 1) mod 256] of the last level re-schedules: either back into
    that bucket, with the same remaining time modulo 256^2, or to a place
    where it waits for that time at least. *)
Lemma place3_stale h2 R lv r new :
  0 <= h2 < 256 -> 0 < R ->
  place3 0 0 h2 R = (lv, r, new) ->
  let n := (h2 + 1) mod 256 in
  status_wf lv r new /\
  (((lv, r) = (2%nat, n) /\ new mod 65536 = R mod 65536) \/
   ((lv, r) <> (2%nat, n) /\ R mod 65536 <= lower_bound lv r new 0 0 n)).
Proof.
  intros Hh HR Hp. cbn zeta.
  pose proof (mod256_bound (h2 + 1)) as Bn.
  destruct (Z_lt_le_dec R 256) as [H1 | H1].
  { rewrite place3_level0 in Hp by lia. injection Hp as <- <- <-.
    split; [repeat split; simpl; lia |]. right. split; [congruence |].
    unfold lower_bound, visit_in, low_part.
    rewrite (Z.mod_small (R - 0 - 1)), (Z.mod_small R) by lia. lia. }
  destruct (Z_lt_le_dec R 65536) as [H2 | H2].
  { rewrite place3_level1 in Hp by lia. injection Hp as <- <- <-.
    pose proof (mod256_bound R) as B0. pose proof (divmod256 R) as D0.
    assert (1 <= R / 256) by (apply Z.div_le_lower_bound; lia).
    assert (R / 256 < 256) by (apply Z.div_lt_upper_bound; lia).
    split; [repeat split; simpl; unfold WHEEL_BUCKETS; lia |].
    right. split; [congruence |].
    unfold lower_bound, visit_in, low_part.
    rewrite (Z.mod_small (R / 256 - 0 - 1)), (Z.mod_small R) by lia. lia. }
  unfold place3 in Hp. cbn zeta in Hp. rewrite !Z.add_0_l in Hp.
  pose proof (mod256_bound R) as B0. pose proof (divmod256 R) as D0.
  pose proof (mod256_bound (R / 256)) as B1. pose proof (divmod256 (R / 256)) as D1.
  assert (256 <= R / 256) by (apply Z.div_le_lower_bound; lia).
  assert (1 <= R / 256 / 256) by (apply Z.div_le_lower_bound; lia).
  destruct (Z.ltb_spec 0 (R / 256)); [| lia].
  destruct (Z.ltb_spec 0 (R / 256 / 256)); [| lia].
  remember (h2 + R / 256 / 256) as s2 eqn:S2.
  pose proof (mod256_bound s2) as B2. pose proof (divmod256 s2) as D2.
  assert (Hlow : forall k, (R mod 256 + 256 * ((R / 256) mod 256) + 65536 * k)
                           mod 65536 = R mod 65536).
  { intros k. by rewrite mod65536_add, <- mod65536_split, Z.mod_mod. }
  assert (Hcase : forall new',
             0 <= new' -> new' mod 65536 = R mod 65536 ->
             status_wf 2 (s2 mod 256) new' /\
             (((2%nat, s2 mod 256) = (2%nat, (h2 + 1) mod 256) /\
               new' mod 65536 = R mod 65536) \/
              ((2%nat, s2 mod 256) <> (2%nat, (h2 + 1) mod 256) /\
               R mod 65536 <=
                 lower_bound 2 (s2 mod 256) new' 0 0 ((h2 + 1) mod 256)))).
  { intros new' Hn0 Hnm. split; [repeat split; simpl; lia |].
    destruct (Z.eq_dec (s2 mod 256) ((h2 + 1) mod 256)) as [E | E].
    - left. split; [by rewrite E | done].
    - right. split; [congruence |].
      unfold lower_bound, visit_in, low_part. rewrite Hnm.
      pose proof (mod256_bound (s2 mod 256 - (h2 + 1) mod 256 - 1)). lia. }
  destruct (Z.ltb_spec 0 (s2 / 256)); injection Hp as <- <- <-.
  - apply Hcase.
    + assert (0 <= 16777216 * (s2 / 256 - 1)) by lia. lia.
    + replace (R mod 256 + 256 * ((R / 256) mod 256) + 65536 * (s2 mod 256)
               + 16777216 * (s2 / 256 - 1))
        with (R mod 256 + 256 * ((R / 256) mod 256)
              + 65536 * (s2 mod 256 + 256 * (s2 / 256 - 1))) by lia.
      apply Hlow.
  - apply Hcase; [lia |].
    replace (R mod 256 + 256 * ((R / 256) mod 256))
      with (R mod 256 + 256 * ((R / 256) mod 256) + 65536 * 0) by lia.
    apply Hlow.
Qed.

(** Where ttimer_start puts a timeout of at most 256^3, the entry waits
    for exactly the timeout at least. *)
Lemma place3_lower_bound h0 h1 h2 t lv b rem :
  0 <= h0 < 256 -> 0 <= h1 < 256 -> 0 <= h2 < 256 ->
  1 <= t <= 16777216 ->
  place3 h0 h1 h2 t = (lv, b, rem) ->
  status_wf lv b rem /\ lower_bound lv b rem h0 h1 h2 = t.
Proof.
  intros H0 H1 H2 Ht. unfold place3, lower_bound. cbn zeta.
  remember (h0 + t) as s0 eqn:S0.
  pose proof (mod256_bound s0) as B0. pose proof (divmod256 s0) as D0.
  destruct (Z.ltb_spec 0 (s0 / 256)) as [Q0 | Q0].
  2:{ intros [= <- <- <-]. simpl. split; [repeat split; lia |].
      replace (s0 mod 256 - h0 - 1) with (t - 1) by lia.
      rewrite Z.mod_small by lia. lia. }
  remember (h1 + s0 / 256) as s1 eqn:S1.
  pose proof (mod256_bound s1) as B1. pose proof (divmod256 s1) as D1.
  destruct (Z.ltb_spec 0 (s1 / 256)) as [Q1 | Q1].
  2:{ intros [= <- <- <-]. simpl.
      split; [repeat split; simpl; unfold WHEEL_BUCKETS; lia |].
      replace (s1 mod 256 - h1 - 1) with (s0 / 256 - 1) by lia.
      rewrite Z.mod_small by lia. lia. }
  remember (h2 + s1 / 256) as s2 eqn:S2.
  pose proof (mod256_bound s2) as B2. pose proof (divmod256 s2) as D2.
  assert (Hq : 1 <= s1 / 256 <= 256) by lia.
  assert (Hlow : forall k, (s0 mod 256 + 256 * (s1 mod 256) + 65536 * k)
                           mod 65536 = s0 mod 256 + 256 * (s1 mod 256)).
  { intros k. rewrite mod65536_add. apply Z.mod_small. lia. }
  destruct (Z.ltb_spec 0 (s2 / 256)) as [Q2 | Q2]; intros [= <- <- <-].
  - assert (Hq2 : s2 / 256 = 1) by lia. rewrite Hq2.
    split; [repeat split; simpl; lia |].
    unfold visit_in, low_part.
    replace (s0 mod 256 + 256 * (s1 mod 256) + 65536 * (s2 mod 256)
             + 16777216 * (1 - 1))
      with (s0 mod 256 + 256 * (s1 mod 256) + 65536 * (s2 mod 256)) by lia.
    rewrite Hlow.
    replace (s2 mod 256 - h2 - 1) with ((s1 / 256 - 1) + (-1) * 256) by lia.
    rewrite Z.mod_add, Z.mod_small by lia. lia.
  - split; [repeat split; simpl; lia |].
    unfold visit_in, low_part.
    replace (s0 mod 256 + 256 * (s1 mod 256))
      with (s0 mod 256 + 256 * (s1 mod 256) + 65536 * 0) at 1 by lia.
    rewrite Hlow.
    replace (s2 mod 256 - h2 - 1) with (s1 / 256 - 1) by lia.
    rewrite Z.mod_small by lia. lia.
Qed.

(** The drain of the bucket of the last level that [ent] is in, whatever
    its remaining time. *)
Lemma drain_focus_last ent n h2 fuel st R st' evs :
  wheel_ok st -> hand <$> wheel (tm st) = [0; 0; h2] ->
  0 <= h2 < 256 -> n = (h2 + 1) mod 256 ->
  placed st ent 2 n R -> 0 <= R ->
  drain fuel 2 n st = Ok (st', evs) ->
  (R mod 65536 = 0 /\ gone st' ent /\ fire_count ent evs = 1%nat) \/
  (fire_count ent evs = 0%nat /\
   exists lv b rem,
     placed st' ent lv b rem /\ status_wf lv b rem /\
     R mod 65536 <= lower_bound lv b rem 0 0 n).
Proof.
  intros Hok Hh Hh2 Hn. revert st R evs Hok Hh.
  induction fuel as [| fuel IH]; intros st R evs Hok Hh Hpl HR Hd;
    pose proof (placed_linked _ _ _ _ _ Hpl) as (w & Hw & Hin);
    simpl in Hd; rewrite Hw in Hd;
    destruct (bucket_get w n) as [| e l] eqn:Eb;
    try (by apply elem_of_nil in Hin); [done |].
  destruct (drain_step 2 n e st) as [[st1 ev] |] eqn:Es; simpl in Hd; [| done].
  destruct (drain fuel 2 n st1) as [[st2 evs'] |] eqn:Ed; simpl in Hd; [| done].
  injection Hd as <- <-.
  assert (Hl : linked st e 2 n).
  { exists w. rewrite Eb. split; [done | by left]. }
  pose proof (drain_step_wheel_ok _ _ _ _ _ _ Hok Hl Es) as Hok1.
  pose proof (drain_step_hands _ _ _ _ _ _ Es) as Hh1. rewrite Hh in Hh1.
  change (ev :: evs') with ([ev] ++ evs'). rewrite fire_count_app.
  destruct (decide (e = ent)) as [-> | Hne].
  2:{ rewrite (fire_count_other ent [ev]).
      2:{ constructor; [| done].
          rewrite (drain_step_ev_ref _ _ _ _ _ _ Es). congruence. }
      eapply (IH st1 R); eauto. by eapply drain_step_placed_other. }
  destruct Hpl as [_ Hrem].
  destruct (drain_step_self _ _ _ _ _ _ _ _ _ Hh Es)
    as [(Hz & Hg & Hc) | (Hnz & lv & r & new & Hp3 & Hpl1 & Hc)];
    rewrite Hrem in *; rewrite Hc.
  - destruct (drain_keeps_gone _ _ _ _ _ _ _ Hg Ed) as [Hg2 ->].
    left. rewrite Hz. done.
  - destruct (place3_stale h2 R lv r new Hh2 ltac:(lia) Hp3) as (Hwf & Hcase).
    cbn zeta in Hcase. rewrite <- Hn in Hcase.
    destruct Hcase as [([= -> ->] & Hm) | (Hne & Hlb)].
    + assert (0 <= new) by (by destruct Hwf as (_ & _ & ?)).
      destruct (IH st1 new evs' Hok1 Hh1 Hpl1 ltac:(done) Ed)
        as [(Hz & Hg & Hc') | (Hc' & lv' & b' & rem' & Hp' & Hwf' & Hlb')].
      * left. rewrite <- Hm. done.
      * right. split; [done |]. exists lv', b', rem'. rewrite <- Hm. done.
    + destruct (drain_keeps_placed ent lv r new 2 n fuel st1 st2 evs' Hne Hpl1 Ed)
        as [Hp2 ->].
      right. split; [done |]. by exists lv, r, new.
Qed.

Lemma low_part_after_visit lv rem :
  rem_range lv rem -> after_visit lv rem = low_part lv rem.
Proof.
  destruct lv as [| [| lv]]; simpl; try done. intros Hr.
  destruct (Z.leb_spec 65536 rem).
  - replace rem with ((rem - 65536) + 1 * 65536) at 2 by lia.
    rewrite Z.mod_add, Z.mod_small by lia. done.
  - by rewrite Z.mod_small by lia.
Qed.

Lemma status_wf_ok lv b rem :
  status_wf lv b rem -> (lv < 2)%nat \/ rem < 131072 ->
  status_ok (Placed lv b rem).
Proof.
  intros (Hlv & Hb & Hr) Hc. split; [done |]. split; [done |].
  destruct lv as [| [| lv]]; simpl in *; unfold WHEEL_BUCKETS in *; lia.
Qed.

Lemma status_ok_wf lv b rem :
  status_ok (Placed lv b rem) -> status_wf lv b rem.
Proof.
  intros (Hlv & Hb & Hr). split; [done |]. split; [done |].
  destruct lv as [| [| lv]]; simpl in *; unfold WHEEL_BUCKETS in *; lia.
Qed.

(** A tick on a state in which [ent] is not due before the [d]-th tick,
    [d] being more than one. *)
Lemma tick_due_from ent fuel st st' evs d :
  wheel_ok st -> due_from st ent d -> 1 < d ->
  ttimer_tick fuel st = Ok (st', evs) ->
  fire_count ent evs = 0%nat /\ due_from st' ent (d - 1).
Proof.
  intros Hok (h0 & h1 & h2 & lv & b & rem & Hh & Hpl & Hwf & Hd) Hd1 Ht.
  destruct (hands_bounds _ _ _ _ Hok Hh) as (_ & B0 & B1 & B2).
  destruct (decide ((lv < 2)%nat \/ rem < 131072)) as [Hsmall | Hbig].
  - (* the exact analysis applies *)
    pose proof (status_wf_ok _ _ _ Hwf Hsmall) as Hsok.
    destruct (tick_status ent fuel st st' evs h0 h1 h2 (Placed lv b rem)
                Hok Hh Hpl Hsok Ht) as (_ & Hh' & Hs' & Hc).
    unfold lower_bound in Hd.
    rewrite <- (low_part_after_visit lv rem) in Hd by (by destruct Hsok as (_ & _ & ?)).
    destruct (tick_result_due h0 h1 h2 lv b rem B0 B1 B2 Hsok)
      as [[He Hr] | (He & lv' & b' & rem' & h0' & h1' & h2' & Hr & Hok' & Hn & Hd')];
      [lia |].
    rewrite Hr in Hs', Hc. cbn [fst snd] in Hs', Hc. split; [done |].
    exists h0', h1', h2', lv', b', rem'. rewrite Hh', Hn.
    split; [done |]. split; [done |]. split; [by apply status_ok_wf |].
    unfold lower_bound.
    rewrite <- (low_part_after_visit lv' rem') by (by destruct Hok' as (_ & _ & ?)).
    lia.
  - (* on the last level, with a remaining time of 2 * 256^2 or more *)
    assert (lv = 2%nat) as -> by (destruct Hwf as (? & _); lia).
    destruct Hwf as (_ & Hb & Hrem). simpl in Hrem.
    unfold lower_bound, visit_in, low_part in Hd.
    pose proof (Z.mod_pos_bound rem 65536 ltac:(lia)) as Hlow.
    destruct (tick3_inv _ _ _ _ _ _ _ Hok Hh Ht) as (st1 & e1 & Hd1' & Hc).
    cbn zeta in Hd1', Hc.
    destruct (visit_status ent fuel 0 _ (h0 + 1) _ st st1 e1 (Placed 2 b rem)
                Hok Hh Hpl ltac:(simpl; congruence) eq_refl Hd1')
      as (Hok1 & Hh1 & Hs1 & Hc1).
    change (<[0%nat:=(h0 + 1) mod 256]> [h0; h1; h2])
      with [(h0 + 1) mod 256; h1; h2] in Hh1.
    destruct (succ_mod_cases h0 B0) as [[E0 En0] | [E0 En0]].
    2:{ destruct Hc as [(_ & -> & ->) | (En & _)]; [| lia].
        rewrite fire_count_visit. split; [done |].
        exists ((h0 + 1) mod 256), h1, h2, 2%nat, b, rem.
        split; [done |]. split; [done |].
        split; [repeat split; simpl; lia |].
        unfold lower_bound, visit_in, low_part. lia. }
    destruct Hc as [(Hne & _) | (_ & st2 & e2 & Hd2 & Hc)]; [lia |].
    rewrite En0 in *.
    destruct (visit_status ent fuel 1 _ (h1 + 1) _ _ st2 e2 (Placed 2 b rem)
                Hok1 Hh1 Hs1 ltac:(simpl; congruence) eq_refl Hd2)
      as (Hok2 & Hh2 & Hs2 & Hc2).
    change (<[1%nat:=(h1 + 1) mod 256]> [0; h1; h2])
      with [0; (h1 + 1) mod 256; h2] in Hh2.
    destruct (succ_mod_cases h1 B1) as [[E1 En1] | [E1 En1]].
    2:{ destruct Hc as [(_ & -> & ->) | (En & _)]; [| lia].
        rewrite fire_count_visit, fire_count_app, fire_count_visit, Hc1, Hc2.
        split; [done |].
        exists 0, ((h1 + 1) mod 256), h2, 2%nat, b, rem.
        split; [done |]. split; [done |].
        split; [repeat split; simpl; lia |].
        unfold lower_bound, visit_in, low_part. lia. }
    destruct Hc as [(Hne & _) | (_ & st3 & e3 & Hd3 & -> & ->)]; [lia |].
    rewrite En1 in *.
    rewrite fire_count_visit, fire_count_app, fire_count_visit, fire_count_app,
      fire_count_visit, Hc1, Hc2.
    pose proof (mod256_bound (h2 + 1)) as Bn2.
    destruct (mod_step b h2 Hb B2) as [[Eb Em] | (Eb & Em & Em1)].
    + (* the bucket of the entry is drained *)
      simpl in Hs2. rewrite Eb in Hs2.
      destruct (drain_focus_last ent _ h2 fuel _ rem st3 e3 Hok2 Hh2 B2 eq_refl
                  Hs2 Hrem Hd3)
        as [(Hz & _) | (Hc3 & lv' & b' & rem' & Hp' & Hwf' & Hlb')]; [lia |].
      rewrite Hc3. split; [done |].
      exists 0, 0, ((h2 + 1) mod 256), lv', b', rem'.
      split; [exact (hands_set_hand 2 _ st3 _
                       (eq_trans (drain_hands _ _ _ _ _ _ Hd3) Hh2)) |].
      split; [by apply placed_set_hand |]. split; [done |]. lia.
    + destruct (visit_status ent fuel 2 ((h2 + 1) mod 256) (h2 + 1) _ _ st3 e3
                  (Placed 2 b rem)
                  Hok2 Hh2 Hs2 ltac:(simpl; congruence) eq_refl Hd3)
        as (Hok3 & Hh3 & Hs3 & Hc3).
      rewrite Hc3. split; [done |].
      exists 0, 0, ((h2 + 1) mod 256), 2%nat, b, rem.
      split; [exact Hh3 |]. split; [done |].
      split; [repeat split; simpl; lia |].
      unfold lower_bound, visit_in, low_part. lia.
Qed.

Lemma ticks_due_from ent fuel k st st' run d :
  wheel_ok st -> due_from st ent d -> Z.of_nat k < d ->
  ticks fuel k st = Ok (st', run) ->
  fire_count ent (concat run) = 0%nat /\ due_from st' ent (d - Z.of_nat k).
Proof.
  revert st run d. induction k as [| k IH]; intros st run d Hok Hdue Hk; simpl.
  - intros [= <- <-]. split; [done |]. by replace (d - Z.of_nat 0) with d by lia.
  - destruct (ttimer_tick fuel st) as [[st1 evs1] |] eqn:E1; simpl; [| done].
    destruct (ticks fuel k st1) as [[st2 rest] |] eqn:E2; simpl; [| done].
    intros [= <- <-].
    destruct (tick_due_from ent fuel st st1 evs1 d Hok Hdue ltac:(lia) E1)
      as [Hc1 Hdue1].
    assert (Hok1 : wheel_ok st1) by (by eapply ttimer_tick_wheel_ok).
    destruct (IH st1 rest (d - 1) Hok1 Hdue1 ltac:(lia) E2) as [Hc2 Hdue2].
    simpl. rewrite fire_count_app, Hc1, Hc2. split; [done |].
    by replace (d - Z.of_nat (S k)) with (d - 1 - Z.of_nat k) by lia.
Qed.

Lemma ttimer_start_due_from st ent timeout h0 h1 h2 :
  wheel_ok st -> hand <$> wheel (tm st) = [h0; h1; h2] ->
  scheduled (mem st ent) = false -> func (mem st ent) <> None ->
  1 <= timeout <= 16777216 ->
  exists st1,
    ttimer_start st ent timeout = Ok st1 /\ wheel_ok st1 /\
    due_from st1 ent timeout.
Proof.
  intros Hok Hh Hfree Hf Ht.
  destruct (hands_bounds _ _ _ _ Hok Hh) as (_ & B0 & B1 & B2).
  destruct (place3 h0 h1 h2 timeout) as [[lv b] rem] eqn:Ep.
  destruct (place3_lower_bound _ _ _ _ _ _ _ B0 B1 B2 Ht Ep) as (Hwf & Hlb).
  assert (Hsome : is_Some (wheel (tm st) !! lv)).
  { destruct Hwf as (Hlv & _).
    apply hands3 in Hh as (w0 & w1 & w2 & -> & _).
    destruct lv as [| [| [| lv]]]; [by eexists .. | lia]. }
  assert (Hst : ttimer_start st ent timeout =
                Ok (set_ref ent (mk_ref rem (func (mem st ent)) (arg (mem st ent)) true)
                      (LIST_INSERT_HEAD lv b ent st))).
  { apply ttimer_start_Ok. split; [lia |]. split; [done |]. split; [done |].
    exists lv, b, rem. split; [| done].
    by rewrite (start_place_hands _ h0 h1 h2), Ep. }
  eexists. split; [exact Hst |].
  split; [by eapply ttimer_start_wheel_ok |].
  exists h0, h1, h2, lv, b, rem.
  split; [rewrite <- Hh; exact (hands_insert st lv b ent) |].
  split; [| split; [done | lia]]. split.
  - intros l b'. rewrite linked_set_ref, linked_insert by done.
    split; [| tauto]. intros [(_ & ? & ?) | Hl]; [done |].
    destruct Hok as (_ & _ & _ & _ & _ & _ & Hsch).
    assert (scheduled (mem st ent) = true) by (apply Hsch; eauto). congruence.
  - simpl. by rewrite fn_lookup_insert.
Qed.

(** A timer is never called early: on a wheel with three levels, after
    ttimer_start with a timeout of at most 256^3, fewer ticks than the
    timeout do not call the handler, and leave the entry scheduled. *)
Theorem timer_never_early (st : state) (ent : ref_id) (timeout h0 h1 h2 : Z) :
  wheel_ok st -> hand <$> wheel (tm st) = [h0; h1; h2] ->
  scheduled (mem st ent) = false -> func (mem st ent) <> None ->
  1 <= timeout <= 16777216 ->
  exists st1,
    ttimer_start st ent timeout = Ok st1 /\
    forall fuel k st' run,
      Z.of_nat k < timeout ->
      ticks fuel k st1 = Ok (st', run) ->
      fire_count ent (concat run) = 0%nat /\ scheduled (mem st' ent) = true.
Proof.
  intros Hok Hh Hfree Hf Ht.
  destruct (ttimer_start_due_from st ent timeout h0 h1 h2 Hok Hh Hfree Hf Ht)
    as (st1 & Hst & Hok1 & Hdue).
  exists st1. split; [done |]. intros fuel k st' run Hk Hrun.
  destruct (ticks_due_from ent fuel k st1 st' run timeout Hok1 Hdue Hk Hrun)
    as [Hc (_ & _ & _ & lv & b & rem & _ & Hpl & _)].
  split; [done |].
  pose proof (ticks_wheel_ok _ _ _ _ _ Hok1 Hrun) as (_ & _ & _ & _ & _ & _ & Hsch).
  apply Hsch. exists lv, b. by apply placed_linked in Hpl.
Qed.

Lemma timer_never_early_witness :
  exists st1,
    ttimer_start fresh_wheel 0%nat 16777216 = Ok st1 /\
    forall fuel k st' run,
      Z.of_nat k < 16777216 ->
      ticks fuel k st1 = Ok (st', run) ->
      fire_count 0%nat (concat run) = 0%nat /\ scheduled (mem st' 0%nat) = true.
Proof.
  apply (timer_never_early fresh_wheel 0%nat 16777216 0 0 0);
    [exact wheel_ok_fresh | reflexivity | reflexivity | discriminate | lia].
Defined.

(** The bound 256^3 on the timeout is needed: a timer started on a new
    wheel with the timeout 256^3 + 256^2 + 5 is called on tick 256^2 + 5. *)
Lemma timeout_beyond_span_fires_early :
  let ent := 0%nat in
  exists st1 st2,
    ttimer_start fresh_wheel ent (16777216 + 65536 + 5) = Ok st1 /\
    (exists run, ticks 3 (Z.to_nat 65541) st1 = Ok (st2, run) /\
                 fire_ticks ent run = [65541]) /\
    scheduled (mem st2 ent) = false.
Proof.
  intros ent.
  let r := eval vm_compute in (ttimer_start fresh_wheel ent (16777216 + 65536 + 5)) in
  lazymatch r with Ok ?s => pose (st1 := s) end.
  skip_then_run 3%nat 1 0 65535 6 st1 ent st2 HA.
  exists st1, st2. split; [vm_compute; reflexivity |].
  split; [exact HA | vm_compute; reflexivity].
Qed.

(** ** The order of the callbacks *)





(** ** Wheels with fewer levels *)

Lemma padded_lookup st st3 level w :
  padded st st3 -> wheel (tm st) !! level = Some w ->
  wheel (tm st3) !! level = Some w.
Proof.
  intros (_ & _ & _ & extra & -> & _) Hw. by apply lookup_app_l_Some.
Qed.

Lemma start_walk_padded st st3 k level timeout rem mult p :
  padded st st3 ->
  start_walk k (tm st) level timeout rem mult = Ok p ->
  start_walk k (tm st3) level timeout rem mult = Ok p.
Proof.
  intros Hp. revert level timeout rem mult.
  induction k as [| k IH]; intros level timeout rem mult; simpl;
    (destruct (wheel (tm st) !! level) as [w |] eqn:Hw; [| done]);
    rewrite (padded_lookup _ _ _ _ Hp Hw);
    repeat case_match; try done.
  apply IH.
Qed.

Lemma padded_set_ref st st3 ent v :
  padded st st3 -> padded (set_ref ent v st) (set_ref ent v st3).
Proof.
  intros (Hm & Hl & Hl3 & extra & Hw & He). split; [| split; [| split]].
  - simpl. by rewrite Hm.
  - done.
  - done.
  - by exists extra.
Qed.

Lemma padded_insert st st3 lv r ent :
  padded st st3 -> is_Some (wheel (tm st) !! lv) ->
  padded (LIST_INSERT_HEAD lv r ent st) (LIST_INSERT_HEAD lv r ent st3).
Proof.
  intros (Hm & Hl & Hl3 & extra & Hw & He) Hlv.
  apply lookup_lt_is_Some in Hlv.
  split; [done |]. split; [by (simpl; rewrite length_alter) |].
  split; [by (simpl; rewrite length_alter) |].
  exists extra. split; [| done]. simpl. rewrite Hw. by apply alter_app_l.
Qed.

Lemma padded_remove st st3 ent :
  padded st st3 -> padded (LIST_REMOVE ent st) (LIST_REMOVE ent st3).
Proof.
  intros (Hm & Hl & Hl3 & extra & Hw & He).
  split; [done |]. split; [by (simpl; rewrite length_fmap) |].
  split; [by (simpl; rewrite length_fmap) |].
  exists (unlink_wheel ent <$> extra). split.
  - simpl. by rewrite Hw, fmap_app.
  - apply Forall_fmap. eapply Forall_impl; [exact He |].
    intros w Hb. simpl. rewrite Hb. apply fmap_empty.
Qed.

Lemma list_alter_beyond {A} (f : A -> A) (l : list A) (i : nat) :
  (length l <= i)%nat -> alter f i l = l.
Proof.
  revert i. induction l as [| x l IH]; intros i Hi; [done |].
  destruct i as [| i]; simpl in *; [lia |]. f_equal. apply IH. lia.
Qed.

Lemma padded_set_hand st st3 level n :
  padded st st3 -> padded (set_hand level n st) (set_hand level n st3).
Proof.
  intros (Hm & Hl & Hl3 & extra & Hw & He).
  split; [done |]. split; [by (simpl; rewrite length_alter) |].
  split; [by (simpl; rewrite length_alter) |].
  simpl. rewrite Hw.
  destruct (decide (level < length (wheel (tm st)))%nat) as [Hc | Hc].
  - exists extra. split; [by rewrite alter_app_l | done].
  - exists (alter (fun w => mk_wheel n (bucket w))
              (level - length (wheel (tm st)))%nat extra).
    split.
    + rewrite alter_app_r_alt by lia. f_equal. symmetry.
      apply list_alter_beyond. lia.
    + apply Forall_lookup. intros i w Hi.
      destruct (decide (i = level - length (wheel (tm st)))%nat) as [-> | Hne].
      * rewrite list_lookup_alter_eq in Hi.
        destruct (extra !! _) as [w' |] eqn:Ew; [| done].
        injection Hi as <-. simpl. by eapply (Forall_lookup_1 _ _ _ _ He).
      * rewrite list_lookup_alter_ne in Hi by done.
        by eapply (Forall_lookup_1 _ _ _ _ He).
Qed.

Lemma ttimer_start_padded st st3 ent timeout st' :
  padded st st3 -> ttimer_start st ent timeout = Ok st' ->
  exists st3', ttimer_start st3 ent timeout = Ok st3' /\ padded st' st3'.
Proof.
  intros Hp (Ht & Hfree & Hf & lv & r & rem & Hpl & Hlv & ->)%ttimer_start_Ok.
  pose proof Hp as (Hm & _).
  eexists. split.
  - apply ttimer_start_Ok. rewrite Hm. split; [done |]. split; [done |].
    split; [done |]. exists lv, r, rem.
    split; [by apply (start_walk_padded st) |]. split; [| done].
    destruct Hlv as [w Hw]. exists w. by eapply padded_lookup.
  - by apply padded_set_ref, padded_insert.
Qed.

Lemma drain_step_padded st st3 level n ent st' ev :
  padded st st3 -> drain_step level n ent st = Ok (st', ev) ->
  exists st3', drain_step level n ent st3 = Ok (st3', ev) /\ padded st' st3'.
Proof.
  intros Hp H. pose proof Hp as (Hm & _).
  pose proof (padded_set_ref _ _ ent
                (mk_ref (remaining (mem st ent)) (func (mem st ent))
                   (arg (mem st ent)) false)
                (padded_remove _ _ ent Hp)) as Hp1.
  apply drain_step_Ok in H as (Hs & H). cbn zeta in H.
  unfold drain_step. rewrite Hm, Hs. cbn [ASSERT]. 
  destruct H as [(Hz & fn & Hfn & -> & ->) | (Hnz & lv & r & new & Hpl & Hst & ->)].
  - destruct (Z.eqb_spec (remaining (mem st ent)) 0); [| done].
    destruct (func (mem st ent)) eqn:Ef; [| done]. injection Hfn as ->.
    eexists. split; [reflexivity |]. exact Hp1.
  - destruct (Z.eqb_spec (remaining (mem st ent)) 0); [done |].
    destruct (ttimer_start_padded _ _ _ _ _ Hp1 Hst) as (st3' & Hst3 & Hp').
    pose proof (start_walk_padded _ _ _ _ _ _ _ _ Hp1 Hpl) as Hpl3.
    fold (start_place (tm (set_ref ent
           (mk_ref (remaining (mem st ent)) (func (mem st ent))
              (arg (mem st ent)) false) (LIST_REMOVE ent st3)))
           (remaining (mem st ent))) in Hpl3.
    exists st3'. split; [| done].
    cbn [negb mbind res_bind]. rewrite Hst3, Hpl3. reflexivity.
Qed.

Lemma drain_padded st st3 fuel level n st' evs :
  padded st st3 -> drain fuel level n st = Ok (st', evs) ->
  exists st3', drain fuel level n st3 = Ok (st3', evs) /\ padded st' st3'.
Proof.
  revert st st3 evs. induction fuel as [| fuel IH]; intros st st3 evs Hp; simpl;
    (destruct (wheel (tm st) !! level) as [w |] eqn:Hw; [| done]);
    rewrite (padded_lookup _ _ _ _ Hp Hw);
    destruct (bucket_get w n) as [| ent l]; try done;
    try (intros [= <- <-]; by exists st3).
  destruct (drain_step level n ent st) as [[st1 ev] |] eqn:Es; simpl; [| done].
  destruct (drain fuel level n st1) as [[st2 evs'] |] eqn:Ed; simpl; [| done].
  intros [= <- <-].
  destruct (drain_step_padded _ _ _ _ _ _ _ Hp Es) as (st31 & -> & Hp1). simpl.
  destruct (IH _ _ _ Hp1 Ed) as (st32 & -> & Hp2). simpl. by exists st32.
Qed.

Lemma fire_count_visits evs :
  Forall (fun ev => exists l n, ev = EvVisit l n) evs ->
  forall ent, fire_count ent evs = 0%nat.
Proof.
  induction 1 as [| ev evs (l & n & ->) _ IH]; intros ent; [done |]. apply IH.
Qed.

(** ttimer_tick on the levels that [st] does not have. *)
Lemma tick_from_extra st st3 k fuel level :
  padded st st3 ->
  (length (wheel (tm st)) <= level < length (wheel (tm st3)))%nat ->
  (length (wheel (tm st3)) <= level + S k)%nat ->
  exists st3' evs3,
    tick_from k fuel level st3 = Ok (st3', evs3) /\ padded st st3' /\
    Forall (fun ev => exists l n, ev = EvVisit l n) evs3.
Proof.
  revert st3 level. induction k as [| k IH]; intros st3 level Hp Hlv Hk;
    pose proof Hp as (Hm & Hl & Hl3 & extra & Hw & He);
    (destruct (wheel (tm st3) !! level) as [w |] eqn:Ew;
       [| apply lookup_ge_None in Ew; lia]);
    assert (Hb : bucket w = ∅)
      by (rewrite Hw, lookup_app_r in Ew by lia;
          by eapply (Forall_lookup_1 _ _ _ _ He));
    assert (Hd : forall n, drain fuel level n st3 = Ok (st3, []))
      by (intros n; destruct fuel; simpl; rewrite Ew; unfold bucket_get;
          by rewrite Hb, lookup_empty);
    assert (Hp' : forall n, padded st (set_hand level n st3))
      by (intros n;
          replace st with (set_hand level n st) at 1
            by (destruct st as [[lv lr ws] m]; unfold set_hand, set_wheel; simpl;
                f_equal; f_equal; simpl in *; apply list_alter_beyond; lia);
          by apply padded_set_hand);
    simpl; rewrite Ew, Hd; simpl; rewrite Hl3.
  - replace (S level <? length (wheel (tm st3)))%nat with false
      by (symmetry; apply Nat.ltb_ge; lia).
    rewrite andb_false_r. eexists _, _. split; [done |]. split; [apply Hp' |].
    constructor; [by eexists _, _ | done].
  - destruct ((_ =? 0) && _) eqn:Ec.
    + apply andb_true_iff in Ec as [_ Elt]. apply Nat.ltb_lt in Elt.
      destruct (IH (set_hand level (MOD_BY_BUCKETS (u32 (hand w + 1))) st3) (S level)
                  (Hp' _)) as (st3' & evs3 & -> & Hp3 & Hev).
      * simpl. rewrite length_alter. lia.
      * simpl. rewrite length_alter. lia.
      * simpl. eexists _, _. split; [done |]. split; [done |].
        constructor; [by eexists _, _ | done].
    + eexists _, _. split; [done |]. split; [apply Hp' |].
      constructor; [by eexists _, _ | done].
Qed.

Lemma drain_length fuel level n st st' evs :
  drain fuel level n st = Ok (st', evs) ->
  length (wheel (tm st')) = length (wheel (tm st)).
Proof.
  intros Hd. rewrite <- !(length_fmap hand). by rewrite (drain_hands _ _ _ _ _ _ Hd).
Qed.

Lemma tick_from_padded st st3 k k3 fuel level st' evs :
  padded st st3 ->
  tick_from k fuel level st = Ok (st', evs) ->
  (length (wheel (tm st3)) <= level + S k3)%nat ->
  exists st3' evs3,
    tick_from k3 fuel level st3 = Ok (st3', evs3) /\ padded st' st3' /\
    forall ent, fire_count ent evs3 = fire_count ent evs.
Proof.
  revert st st3 k3 level evs.
  induction k as [| k IH]; intros st st3 k3 level evs Hp Ht Hk;
    simpl in Ht;
    (destruct (wheel (tm st) !! level) as [w |] eqn:Hw; [| done]);
    (destruct (drain fuel level _ st) as [[st1 evs1] |] eqn:Ed;
       simpl in Ht; [| done]);
    destruct (drain_padded _ _ _ _ _ _ _ Hp Ed) as (st31 & Ed3 & Hp1);
    pose proof (padded_set_hand _ _ level (MOD_BY_BUCKETS (u32 (hand w + 1))) Hp1)
      as Hp2;
    pose proof Hp1 as (_ & L1 & L3 & extra1 & Hw1 & _);
    assert (Len : (length (wheel (tm st1)) <= length (wheel (tm st31)))%nat)
      by (rewrite Hw1, length_app; lia);
    pose proof (drain_length _ _ _ _ _ _ Ed3) as Len3;
    assert (Lv : (level < length (wheel (tm st1)))%nat)
      by (rewrite (drain_length _ _ _ _ _ _ Ed); by eapply lookup_lt_Some);
    assert (Hextra : forall k3',
      (length (wheel (tm st1)) <= S level)%nat ->
      (S level < length (wheel (tm st31)))%nat ->
      (length (wheel (tm st3)) <= S level + S k3')%nat ->
      exists st3' evs3,
        tick_from k3' fuel (S level)
          (set_hand level (MOD_BY_BUCKETS (u32 (hand w + 1))) st31)
          = Ok (st3', evs3) /\
        padded (set_hand level (MOD_BY_BUCKETS (u32 (hand w + 1))) st1) st3' /\
        Forall (fun ev => exists l n, ev = EvVisit l n) evs3)
      by (intros k3' ? ? ?; apply (tick_from_extra _ _ k3' fuel (S level) Hp2);
          simpl; rewrite !length_alter; lia);
    destruct k3 as [| k3]; simpl;
    rewrite (padded_lookup _ _ _ _ Hp Hw), Ed3; simpl;
    rewrite L1 in Ht; rewrite L3;
    destruct (MOD_BY_BUCKETS (u32 (hand w + 1)) =? 0) eqn:En;
    cbn [andb] in Ht |- *;
    try (injection Ht as <- <-; eexists _, _; split; [done |]; by split).
  - (* k = 0, k3 = 0 *)
    destruct (Nat.ltb_spec (S level) (length (wheel (tm st1)))); [done |].
    injection Ht as <- <-.
    destruct (Nat.ltb_spec (S level) (length (wheel (tm st31)))); [lia |].
    eexists _, _. split; [done |]. by split.
  - (* k = 0, k3 = S _ *)
    destruct (Nat.ltb_spec (S level) (length (wheel (tm st1)))); [done |].
    injection Ht as <- <-.
    destruct (Nat.ltb_spec (S level) (length (wheel (tm st31)))).
    + destruct (Hextra k3) as (st3' & evs3 & -> & Hp3 & Hev); [lia | lia | lia |].
      simpl. eexists _, _. split; [done |]. split; [done |].
      intros ent. rewrite !fire_count_visit, fire_count_app,
        (fire_count_visits _ Hev). lia.
    + eexists _, _. split; [done |]. by split.
  - (* k = S _, k3 = 0 *)
    destruct (Nat.ltb_spec (S level) (length (wheel (tm st31)))); [lia |].
    destruct (Nat.ltb_spec (S level) (length (wheel (tm st1)))); [lia |].
    injection Ht as <- <-. eexists _, _. split; [done |]. by split.
  - (* k = S _, k3 = S _ *)
    destruct (Nat.ltb_spec (S level) (length (wheel (tm st1)))).
    + destruct (Nat.ltb_spec (S level) (length (wheel (tm st31)))); [| lia].
      destruct (tick_from k fuel (S level) _) as [[st4 evs4] |] eqn:Et;
        simpl in Ht; [| done].
      injection Ht as <- <-.
      destruct (IH _ _ k3 _ _ Hp2 Et) as (st3' & evs3 & -> & Hp3 & Hev).
      { simpl. rewrite length_alter. lia. }
      simpl. eexists _, _. split; [done |]. split; [done |].
      intros ent. rewrite !fire_count_visit, !fire_count_app, Hev. done.
    + injection Ht as <- <-.
      destruct (Nat.ltb_spec (S level) (length (wheel (tm st31)))).
      * destruct (Hextra k3) as (st3' & evs3 & -> & Hp3 & Hev); [lia | lia | lia |].
        simpl. eexists _, _. split; [done |]. split; [done |].
        intros ent. rewrite !fire_count_visit, fire_count_app,
          (fire_count_visits _ Hev). lia.
      * eexists _, _. split; [done |]. by split.
Qed.

Lemma ttimer_tick_padded st st3 fuel st' evs :
  padded st st3 -> ttimer_tick fuel st = Ok (st', evs) ->
  exists st3' evs3,
    ttimer_tick fuel st3 = Ok (st3', evs3) /\ padded st' st3' /\
    forall ent, fire_count ent evs3 = fire_count ent evs.
Proof.
  intros Hp Ht. pose proof Hp as (_ & _ & Hl3 & _).
  apply (tick_from_padded st st3 _ _ _ _ _ _ Hp Ht). lia.
Qed.

Lemma ticks_padded st st3 fuel k st' run :
  padded st st3 -> ticks fuel k st = Ok (st', run) ->
  exists st3' run3,
    ticks fuel k st3 = Ok (st3', run3) /\ padded st' st3' /\
    Forall2 (fun evs3 evs => forall ent, fire_count ent evs3 = fire_count ent evs)
      run3 run.
Proof.
  revert st st3 run. induction k as [| k IH]; intros st st3 run Hp; simpl.
  - intros [= <- <-]. by exists st3, [].
  - destruct (ttimer_tick fuel st) as [[st1 evs] |] eqn:Et; simpl; [| done].
    destruct (ticks fuel k st1) as [[st2 rest] |] eqn:Ek; simpl; [| done].
    intros [= <- <-].
    destruct (ttimer_tick_padded _ _ _ _ _ Hp Et) as (st31 & evs3 & -> & Hp1 & He).
    simpl.
    destruct (IH _ _ _ Hp1 Ek) as (st32 & rest3 & -> & Hp2 & Hr). simpl.
    eexists _, _. split; [done |]. split; [done |]. by constructor.
Qed.

Lemma padded_linked st st3 ent l n :
  padded st st3 -> linked st3 ent l n <-> linked st ent l n.
Proof.
  intros Hp. split.
  - intros (w & Hw & Hin). pose proof Hp as (_ & _ & _ & extra & Hws & He).
    rewrite Hws in Hw. apply lookup_app_Some in Hw as [Hw | [_ Hw]].
    + by exists w.
    + rewrite Forall_lookup in He. specialize (He _ _ Hw).
      unfold bucket_get in Hin. rewrite He, lookup_empty in Hin.
      by apply elem_of_nil in Hin.
  - intros (w & Hw & Hin). exists w. split; [| done]. by eapply padded_lookup.
Qed.

Lemma padded_pad st : wheel_ok st -> padded st (pad st).
Proof.
  intros (Hlen & Hlv & _). split; [done |]. split; [done |]. split.
  - simpl. rewrite length_app, length_replicate. lia.
  - eexists. split; [done |]. by apply Forall_replicate.
Qed.

Lemma wheel_ok_pad st : wheel_ok st -> wheel_ok (pad st).
Proof.
  intros Hok. pose proof (padded_pad st Hok) as Hp.
  destruct Hok as (Hlen & Hlv & Hh & Hl & Hnd & Hone & Hsch).
  split; [| split; [| split; [| split; [| split; [| split]]]]].
  - simpl. rewrite length_app, length_replicate. lia.
  - simpl. unfold WHEEL_MAX_LEVELS. lia.
  - intros level w. simpl. intros [Hw | [_ Hw]]%lookup_app_Some.
    + by eapply Hh.
    + apply lookup_replicate in Hw as [-> _]. done.
  - intros ent level n H%(padded_linked _ _ _ _ _ Hp). by eapply Hl.
  - intros level w n. simpl. intros [Hw | [_ Hw]]%lookup_app_Some.
    + by eapply Hnd.
    + apply lookup_replicate in Hw as [-> _]. apply NoDup_nil_2.
  - intros ent l n l' n' H1%(padded_linked _ _ _ _ _ Hp)
      H2%(padded_linked _ _ _ _ _ Hp). by eapply Hone.
  - intros ent. change (mem (pad st) ent) with (mem st ent). rewrite Hsch.
    split; intros (l & n & H); exists l, n; by apply (padded_linked _ _ _ _ _ Hp).
Qed.

Lemma hands_pad st h0 h1 h2 :
  wheel_ok st -> (levels (tm st) < 3)%nat ->
  hand <$> wheel (tm (pad st)) = [h0; h1; h2] ->
  h0 + 256 * h1 + 65536 * h2 = hands_value (hand <$> wheel (tm st)) /\
  0 <= hands_value (hand <$> wheel (tm st)) < 65536.
Proof.
  intros Hok Hlt. pose proof (hands_in_range st Hok) as Hr.
  destruct Hok as (Hlen & Hlv & _). rewrite Hlen in *. simpl.
  destruct (wheel (tm st)) as [| w0 [| w1 [| ? ?]]]; simpl in *; try lia.
  - intros [= <- <- <-]. apply Forall_cons in Hr as [? _]. lia.
  - intros [= <- <- <-]. apply Forall_cons in Hr as [? Hr].
    apply Forall_cons in Hr as [? _]. lia.
Qed.

(** On a wheel with fewer than three levels, a timer whose start stays
    inside [wheel[]] is called on the tick of its timeout exactly. *)
Lemma small_wheel_fires_on_time st ent timeout :
  wheel_ok st -> (levels (tm st) < WHEEL_MAX_LEVELS)%nat ->
  scheduled (mem st ent) = false -> func (mem st ent) <> None ->
  1 <= timeout ->
  ~ start_overflows st timeout ->
  exists st1 fuel0 st2 quiet_run evs,
    ttimer_start st ent timeout = Ok st1 /\
    (forall fuel, (fuel0 <= fuel)%nat ->
       ticks fuel (Z.to_nat timeout) st1 = Ok (st2, quiet_run ++ [evs])) /\
    length quiet_run = Z.to_nat (timeout - 1) /\
    Forall (fun e => fire_count ent e = 0%nat) quiet_run /\
    fire_count ent evs = 1%nat /\ gone st2 ent.
Proof.
  intros Hok Hlt Hfree Hf Ht Hfit. unfold WHEEL_MAX_LEVELS in Hlt.
  pose proof (wheel_ok_pad st Hok) as Hok3.
  pose proof (padded_pad st Hok) as Hp.
  destruct (three_hands (pad st) Hok3 eq_refl) as (h0 & h1 & h2 & Hh).
  destruct (hands_pad st h0 h1 h2 Hok Hlt Hh) as [Hv Hvb].
  assert (Hsmall : hands_value (hand <$> wheel (tm st)) + timeout < 65536).
  { unfold start_overflows, WHEEL_MAX_LEVELS in Hfit.
    assert (256 ^ Z.of_nat (levels (tm st)) <= 65536).
    { change 65536 with (256 ^ 2). apply Z.pow_le_mono_r; lia. }
    lia. }
  destruct (ttimer_start_fits st ent timeout Hok ltac:(lia) Hfree Hf Hfit)
    as (st1 & _ & _ & Hst & Hok1 & _).
  destruct (ttimer_start_padded _ _ _ _ _ Hp Hst) as (st31 & Hst3 & Hp1).
  destruct (timer_fires_on_time (pad st) ent timeout h0 h1 h2 Hok3 Hh Hfree Hf
              ltac:(lia) ltac:(lia))
    as (st31' & f3 & st32 & q3 & evs3 & Hst3' & Hrun3 & Hlen3 & Hq3 & Hc3 & Hg3).
  rewrite Hst3 in Hst3'. injection Hst3' as <-.
  destruct (ticks_total (Z.to_nat timeout) st1 Hok1) as (f1 & st2 & run & Hrun).
  destruct (ticks_padded _ _ _ _ _ _ Hp1 (Hrun (f1 `max` f3)%nat ltac:(lia)))
    as (st32' & run3 & Hr3 & Hp2 & Hcounts).
  rewrite (Hrun3 (f1 `max` f3)%nat ltac:(lia)) in Hr3. injection Hr3 as <- <-.
  apply Forall2_app_inv_l in Hcounts as (q & tl & Hcq & Hct & ->).
  apply Forall2_cons_inv_l in Hct as (evs & tl' & Hce & Hnil & ->).
  apply Forall2_nil_inv_l in Hnil as ->.
  exists st1, f1, st2, q, evs. split; [done |]. split; [done |].
  split; [by rewrite <- (Forall2_length _ _ _ Hcq) |].
  split; [| split; [by rewrite <- Hce |]].
  - clear -Hcq Hq3. induction Hcq as [| e3 e q3 q He _ IH]; [done |].
    apply Forall_cons in Hq3 as [Hz Hq3]. constructor; [by rewrite <- He | by apply IH].
  - destruct Hg3 as [Hnl Hs]. split.
    + intros l b H. apply (Hnl l b). by apply (padded_linked _ _ _ _ _ Hp2).
    + destruct Hp2 as (Hm & _). by rewrite <- Hm.
Qed.

(** A timer fires on time on every wheel: if ttimer_start stays inside
    [wheel[]], and, with all three levels, the timeout is at most 256^3 and
    the time shown by the hands plus the timeout is below
    256^3 + 2 * 256^2, then none of the first [timeout - 1] ticks calls the
    handler, the next one calls it once, and the entry is then on no list
    and not scheduled. *)
Theorem timer_fires_on_time_all_levels (st : state) (ent : ref_id) (timeout : Z) :
  wheel_ok st ->
  scheduled (mem st ent) = false -> func (mem st ent) <> None ->
  1 <= timeout ->
  ~ start_overflows st timeout ->
  (levels (tm st) = WHEEL_MAX_LEVELS ->
   timeout <= 16777216 /\
   hands_value (hand <$> wheel (tm st)) + timeout < 16777216 + 131072) ->
  exists st1 fuel0 st2 quiet_run evs,
    ttimer_start st ent timeout = Ok st1 /\
    (forall fuel, (fuel0 <= fuel)%nat ->
       ticks fuel (Z.to_nat timeout) st1 = Ok (st2, quiet_run ++ [evs])) /\
    length quiet_run = Z.to_nat (timeout - 1) /\
    Forall (fun e => fire_count ent e = 0%nat) quiet_run /\
    fire_count ent evs = 1%nat /\ gone st2 ent.
Proof.
  intros Hok Hfree Hf Ht Hfit H3.
  destruct (decide (levels (tm st) = WHEEL_MAX_LEVELS)) as [E | E].
  - destruct (H3 E) as [Hmax Hsum].
    destruct (three_hands st Hok E) as (h0 & h1 & h2 & Hh).
    rewrite Hh in Hsum. simpl in Hsum.
    apply (timer_fires_on_time st ent timeout h0 h1 h2); try done; lia.
  - apply small_wheel_fires_on_time; try done.
    destruct Hok as (_ & Hlv & _). lia.
Qed.

Lemma timer_fires_on_time_all_levels_witness :
  exists t st1 fuel0 st2 quiet_run evs,
    ttimer_create true 512 0 = Some t /\
    ttimer_start (mk_state t idle_store) 0%nat 256 = Ok st1 /\
    (forall fuel, (fuel0 <= fuel)%nat ->
       ticks fuel (Z.to_nat 256) st1 = Ok (st2, quiet_run ++ [evs])) /\
    length quiet_run = Z.to_nat (256 - 1) /\
    Forall (fun e => fire_count 0%nat e = 0%nat) quiet_run /\
    fire_count 0%nat evs = 1%nat /\ gone st2 0%nat.
Proof.
  eexists.
  destruct (timer_fires_on_time_all_levels
              (mk_state (mk_timer 2 0 (replicate 2 (mk_wheel 0 ∅))) idle_store)
              0%nat 256)
    as (st1 & fuel0 & st2 & q & evs & H);
    [by apply (wheel_ok_create _ _ 512 0) | reflexivity | discriminate | lia
    | intros [_ Hle]; vm_compute in Hle; by destruct Hle
    | intros [=] |].
  exists st1, fuel0, st2, q, evs. split; [reflexivity | exact H].
Defined.

Lemma create_levels_span (m : Z) :
  0 < m -> (create_levels m < WHEEL_MAX_LEVELS)%nat ->
  m < 256 ^ Z.of_nat (create_levels m).
Proof.
  intros Hm. rewrite create_levels_sizing, bool_decide_eq_true_2 by done.
  unfold spec_levels, WHEEL_MAX_LEVELS.
  destruct (ceil_log256_spec (m + 1) ltac:(lia)) as (H0 & Hle & _).
  intros Hlt.
  assert (Hc : ceil_log256 (m + 1) < 3) by lia.
  rewrite Z.min_l in * by lia. rewrite Z2Nat.id by lia.
  assert (256 ^ ceil_log256 (m + 1) <= 256 ^ Z.max 1 (ceil_log256 (m + 1)))
    by (apply Z.pow_le_mono_r; lia).
  lia.
Qed.

Lemma hands_value_zeros (k : nat) : hands_value (replicate k 0) = 0.
Proof. induction k as [| k IH]; [done |]. simpl. rewrite IH. done. Qed.

(** On a wheel as ttimer_create returns it, a timer with a timeout of at
    most [maxtimeout], and at most 256^3, is called on the tick of its
    timeout exactly: ttimer_start accepts it without reading past the
    levels allocated, none of the first [timeout - 1] ticks calls the
    handler, the next one calls it once, and the entry is then not
    scheduled. *)
Theorem created_wheel_fires_on_time (maxtimeout now timeout : Z)
    (t : ttimer_t) (m : store) (ent : ref_id) :
  ttimer_create true maxtimeout now = Some t ->
  (forall e, scheduled (m e) = false) -> func (m ent) <> None ->
  1 <= timeout <= maxtimeout -> timeout <= 16777216 ->
  exists st1 fuel0 st2 quiet_run evs,
    ttimer_start (mk_state t m) ent timeout = Ok st1 /\
    (forall fuel, (fuel0 <= fuel)%nat ->
       ticks fuel (Z.to_nat timeout) st1 = Ok (st2, quiet_run ++ [evs])) /\
    length quiet_run = Z.to_nat (timeout - 1) /\
    Forall (fun e => fire_count ent e = 0%nat) quiet_run /\
    fire_count ent evs = 1%nat /\ gone st2 ent.
Proof.
  intros Hc Hidle Hf Ht Hmax.
  pose proof (wheel_ok_create t m maxtimeout now Hc Hidle) as Hok.
  destruct (ttimer_create_shape maxtimeout now) as (t' & Hc' & Hl & _ & _ & Hw).
  rewrite Hc in Hc'. injection Hc' as <-.
  assert (Hv : hands_value (hand <$> wheel (tm (mk_state t m))) = 0).
  { simpl. rewrite Hw, fmap_replicate. apply hands_value_zeros. }
  destruct (decide (levels t = WHEEL_MAX_LEVELS)) as [E | E].
  - destruct (three_hands (mk_state t m) Hok E) as (h0 & h1 & h2 & Hh).
    rewrite Hh in Hv. simpl in Hv.
    destruct (hands_bounds _ _ _ _ Hok Hh) as (_ & B0 & B1 & B2).
    apply (timer_fires_on_time _ ent timeout h0 h1 h2); try done; lia.
  - assert (Hlt : (levels t < WHEEL_MAX_LEVELS)%nat)
      by (destruct Hok as (_ & Hlv & _); simpl in Hlv; lia).
    apply small_wheel_fires_on_time; try done; [lia |].
    intros [_ Hle]. rewrite Hv in Hle. simpl in Hle. rewrite Hl in *.
    pose proof (create_levels_span maxtimeout ltac:(lia) Hlt). lia.
Qed.

Lemma created_wheel_fires_on_time_witness :
  exists t st1 fuel0 st2 quiet_run evs,
    ttimer_create true 512 1700000000 = Some t /\
    ttimer_start (mk_state t idle_store) 0%nat 512 = Ok st1 /\
    (forall fuel, (fuel0 <= fuel)%nat ->
       ticks fuel (Z.to_nat 512) st1 = Ok (st2, quiet_run ++ [evs])) /\
    length quiet_run = Z.to_nat (512 - 1) /\
    Forall (fun e => fire_count 0%nat e = 0%nat) quiet_run /\
    fire_count 0%nat evs = 1%nat /\ gone st2 0%nat.
Proof.
  eexists.
  destruct (created_wheel_fires_on_time 512 1700000000 512 _ idle_store 0%nat
              eq_refl ltac:(done) ltac:(done) ltac:(lia) ltac:(lia))
    as (st1 & fuel0 & st2 & q & evs & H).
  exists st1, fuel0, st2, q, evs. split; [reflexivity | exact H].
Defined.

(** ** Where ttimer_start puts an entry *)

(** The digits of the expiry time: the sums that the walk of ttimer_start
    forms are the expiry time [E] shifted down. *)
Lemma expiry_digits h0 h1 h2 t :
  let E := h0 + 256 * h1 + 65536 * h2 + t in
  let s0 := h0 + t in
  let s1 := h1 + s0 / 256 in
  let s2 := h2 + s1 / 256 in
  E mod 256 = s0 mod 256 /\
  (E / 256) mod 256 = s1 mod 256 /\
  E / 65536 = s2 /\
  E mod 65536 = s0 mod 256 + 256 * (s1 mod 256).
Proof.
  cbn zeta.
  assert (E1 : (h0 + 256 * h1 + 65536 * h2 + t) / 256
               = h1 + (h0 + t) / 256 + 256 * h2).
  { replace (h0 + 256 * h1 + 65536 * h2 + t)
      with (h0 + t + (h1 + 256 * h2) * 256) by lia.
    rewrite Z.div_add by lia. lia. }
  assert (E0 : (h0 + 256 * h1 + 65536 * h2 + t) mod 256 = (h0 + t) mod 256).
  { replace (h0 + 256 * h1 + 65536 * h2 + t)
      with (h0 + t + (h1 + 256 * h2) * 256) by lia.
    by rewrite Z.mod_add by lia. }
  assert (E1m : ((h0 + 256 * h1 + 65536 * h2 + t) / 256) mod 256
                = (h1 + (h0 + t) / 256) mod 256).
  { rewrite E1. rewrite (Z.mul_comm 256 h2). by rewrite Z.mod_add by lia. }
  split; [done |]. split; [done |]. split.
  - change 65536 with (256 * 256) at 2. rewrite <- Z.div_div by lia.
    rewrite E1, (Z.mul_comm 256 h2), Z.div_add by lia. lia.
  - by rewrite mod65536_split, E0, E1m.
Qed.

(** ttimer_start follows the rule of the digital clock that its comment
    describes.  On a wheel with three levels, let [E] be the time shown by
    the hands plus the timeout, below 256^3.  The entry goes to the level
    of the last digit that the addition carries into, into the bucket that
    is the digit of [E] for that level, and its remaining time is what the
    lower digits of [E] say. *)
Theorem ttimer_start_places (st : state) (ent : ref_id) (timeout h0 h1 h2 : Z) :
  wheel_ok st -> hand <$> wheel (tm st) = [h0; h1; h2] ->
  scheduled (mem st ent) = false -> func (mem st ent) <> None ->
  1 <= timeout ->
  let E := h0 + 256 * h1 + 65536 * h2 + timeout in
  E < 16777216 ->
  let lv := if h0 + timeout <? 256 then 0%nat
            else if h0 + 256 * h1 + timeout <? 65536 then 1%nat else 2%nat in
  exists st',
    ttimer_start st ent timeout = Ok st' /\
    (forall l n, linked st' ent l n <->
                 l = lv /\ n = (E / 256 ^ Z.of_nat lv) mod 256) /\
    remaining (mem st' ent) = E mod 256 ^ Z.of_nat lv.
Proof.
  intros Hok Hh Hfree Hf Ht E HE lv.
  destruct (hands_bounds _ _ _ _ Hok Hh) as (_ & B0 & B1 & B2).
  destruct (expiry_digits h0 h1 h2 timeout) as (D0 & D1 & D2 & D3).
  fold E in D0, D1, D2, D3.
  assert (Hp : place3 h0 h1 h2 timeout
               = (lv, (E / 256 ^ Z.of_nat lv) mod 256, E mod 256 ^ Z.of_nat lv)).
  { unfold place3, lv. cbn zeta.
    pose proof (divmod256 (h0 + timeout)) as S0.
    pose proof (mod256_bound (h0 + timeout)) as M0.
    pose proof (divmod256 (h1 + (h0 + timeout) / 256)) as S1.
    pose proof (mod256_bound (h1 + (h0 + timeout) / 256)) as M1.
    assert (HE2 : E / 65536 < 256) by (apply Z.div_lt_upper_bound; lia).
    destruct (Z.ltb_spec (h0 + timeout) 256).
    - destruct (Z.ltb_spec 0 ((h0 + timeout) / 256)); [lia |].
      change (256 ^ Z.of_nat 0) with 1. rewrite Z.div_1_r, Z.mod_1_r, D0. done.
    - destruct (Z.ltb_spec 0 ((h0 + timeout) / 256)); [| lia].
      destruct (Z.ltb_spec (h0 + 256 * h1 + timeout) 65536).
      + destruct (Z.ltb_spec 0 ((h1 + (h0 + timeout) / 256) / 256)); [lia |].
        change (256 ^ Z.of_nat 1) with 256. by rewrite D0, D1.
      + destruct (Z.ltb_spec 0 ((h1 + (h0 + timeout) / 256) / 256)); [| lia].
        rewrite <- D2.
        destruct (Z.ltb_spec 0 (E / 65536 / 256)).
        * assert (E / 65536 / 256 = 0) by (apply Z.div_small; lia). lia.
        * change (256 ^ Z.of_nat 2) with 65536.
          rewrite (Z.mod_small (E / 65536)) by lia. by rewrite D3. }
  assert (Hsome : is_Some (wheel (tm st) !! lv)).
  { apply hands3 in Hh as (w0 & w1 & w2 & -> & _). unfold lv.
    repeat case_match; by eexists. }
  eexists. split.
  - apply ttimer_start_Ok. split; [lia |]. split; [done |]. split; [done |].
    eexists _, _, _. split; [| split; [exact Hsome | reflexivity]].
    by rewrite (start_place_hands _ h0 h1 h2), Hp.
  - split.
    + intros l n. rewrite linked_set_ref, linked_insert by done.
      split; [| tauto]. intros [(_ & ? & ?) | Hl]; [done |].
      destruct Hok as (_ & _ & _ & _ & _ & _ & Hsch).
      assert (scheduled (mem st ent) = true) by (apply Hsch; eauto). congruence.
    + simpl. by rewrite fn_lookup_insert.
Qed.

Lemma ttimer_start_places_witness :
  let st := with_hands [57; 58; 22] fresh_wheel in
  let E := 57 + 256 * 58 + 65536 * 22 + 70000 in
  exists st',
    ttimer_start st 0%nat 70000 = Ok st' /\
    (forall l n, linked st' 0%nat l n <->
                 l = 2%nat /\ n = (E / 256 ^ Z.of_nat 2) mod 256) /\
    remaining (mem st' 0%nat) = E mod 256 ^ Z.of_nat 2.
Proof.
  apply (ttimer_start_places (with_hands [57; 58; 22] fresh_wheel) 0%nat 70000
           57 58 22);
    [| reflexivity | reflexivity | discriminate | lia | lia].
  assert (H : quiet 0 fresh_wheel = true) by reflexivity.
  pose proof wheel_ok_fresh as (Hlen & Hlv & Hh & Hl & Hnd & Hone & Hsch).
  split; [done |]. split; [done |]. split.
  - intros level w Hw. unfold WHEEL_BUCKETS.
    destruct level as [| [| [| level]]]; simpl in Hw; try done;
      injection Hw as <-; simpl; lia.
  - assert (Hlk : forall e l n,
               linked (with_hands [57; 58; 22] fresh_wheel) e l n -> False).
    { intros e l n (w & Hw & Hin).
      destruct l as [| [| [| l]]]; simpl in Hw; try done;
        injection Hw as <-; by apply elem_of_nil in Hin. }
    split; [| split; [| split]].
    + intros e l n H'. by destruct (Hlk _ _ _ H').
    + intros level w n Hw.
      destruct level as [| [| [| level]]]; simpl in Hw; try done;
        injection Hw as <-; apply NoDup_nil_2.
    + intros e l n l' n' H'. by destruct (Hlk _ _ _ H').
    + intros e. split; [done |]. intros (l & n & H'). by destruct (Hlk _ _ _ H').
Defined.

(** ** Timeouts beyond the span of the wheel *)

(** [place3_due] with the timeout allowed above 256^3. *)
Lemma place3_due_wide h0 h1 h2 t lv b rem :
  0 <= h0 < 256 -> 0 <= h1 < 256 -> 0 <= h2 < 256 ->
  1 <= t ->
  h0 + 256 * h1 + 65536 * h2 + t < 16777216 + 131072 ->
  (h2 = 0 -> h0 + 256 * h1 + 65536 * h2 + t < 16777216 + 65536) ->
  place3 h0 h1 h2 t = (lv, b, rem) ->
  (lv <= 2)%nat /\ 0 <= b < 256 /\ rem_range lv rem /\
  visit_in lv b h0 h1 h2 + after_visit lv rem = t.
Proof.
  intros H0 H1 H2 Ht Hsum Hz. unfold place3. cbn zeta.
  remember (h0 + t) as s0 eqn:S0.
  pose proof (mod256_bound s0) as B0. pose proof (divmod256 s0) as D0.
  destruct (Z.ltb_spec 0 (s0 / 256)) as [Q0 | Q0].
  2:{ intros [= <- <- <-]. simpl. split; [lia |]. split; [done |]. split; [done |].
      replace (s0 mod 256 - h0 - 1) with (t - 1) by lia.
      rewrite Z.mod_small by lia. lia. }
  remember (h1 + s0 / 256) as s1 eqn:S1.
  pose proof (mod256_bound s1) as B1. pose proof (divmod256 s1) as D1.
  destruct (Z.ltb_spec 0 (s1 / 256)) as [Q1 | Q1].
  2:{ intros [= <- <- <-]. simpl. split; [lia |]. split; [done |]. split; [done |].
      replace (s1 mod 256 - h1 - 1) with (s0 / 256 - 1) by lia.
      rewrite Z.mod_small by lia. lia. }
  remember (h2 + s1 / 256) as s2 eqn:S2.
  pose proof (mod256_bound s2) as B2. pose proof (divmod256 s2) as D2.
  destruct (Z.ltb_spec 0 (s2 / 256)) as [Q2 | Q2].
  - intros [= <- <- <-]. simpl. split; [lia |]. split; [done |].
    assert (Hq2 : s2 / 256 = 1) by lia.
    assert (Hr2 : s2 mod 256 <= 1) by lia.
    rewrite Hq2. split; [lia |].
    destruct (Z.eq_dec (s2 mod 256) 0) as [E | E].
    + rewrite E.
      replace (0 - h2 - 1) with ((255 - h2) + (-1) * 256) by lia.
      rewrite Z.mod_add, Z.mod_small by lia.
      destruct (Z.leb_spec 65536 (s0 mod 256 + 256 * (s1 mod 256) + 65536 * 0
                                  + 16777216 * (1 - 1))); lia.
    + assert (E1 : s2 mod 256 = 1) by lia. rewrite E1.
      assert (1 <= h2) by lia.
      replace (1 - h2 - 1) with ((256 - h2) + (-1) * 256) by lia.
      rewrite Z.mod_add, Z.mod_small by lia.
      destruct (Z.leb_spec 65536 (s0 mod 256 + 256 * (s1 mod 256) + 65536 * 1
                                  + 16777216 * (1 - 1))); lia.
  - intros [= <- <- <-]. simpl. split; [lia |]. split; [done |]. split; [lia |].
    replace (s2 mod 256 - h2 - 1) with (s1 / 256 - 1) by lia.
    rewrite Z.mod_small by lia.
    destruct (Z.leb_spec 65536 (s0 mod 256 + 256 * (s1 mod 256))); lia.
Qed.

Lemma ttimer_start_due_wide st ent timeout h0 h1 h2 :
  wheel_ok st -> hand <$> wheel (tm st) = [h0; h1; h2] ->
  scheduled (mem st ent) = false -> func (mem st ent) <> None ->
  1 <= timeout ->
  h0 + 256 * h1 + 65536 * h2 + timeout < 16777216 + 131072 ->
  (h2 = 0 -> h0 + 256 * h1 + 65536 * h2 + timeout < 16777216 + 65536) ->
  exists st1,
    ttimer_start st ent timeout = Ok st1 /\ wheel_ok st1 /\ due st1 ent timeout.
Proof.
  intros Hok Hh Hfree Hf Ht Hsum Hz.
  destruct (hands_bounds _ _ _ _ Hok Hh) as (_ & B0 & B1 & B2).
  destruct (place3 h0 h1 h2 timeout) as [[lv b] rem] eqn:Ep.
  destruct (place3_due_wide _ _ _ _ _ _ _ B0 B1 B2 Ht Hsum Hz Ep)
    as (Hlv & Hb & Hrng & Hd).
  assert (Hsome : is_Some (wheel (tm st) !! lv)).
  { apply hands3 in Hh as (w0 & w1 & w2 & -> & _).
    destruct lv as [| [| [| lv]]]; [by eexists .. | lia]. }
  assert (Hst : ttimer_start st ent timeout =
                Ok (set_ref ent (mk_ref rem (func (mem st ent)) (arg (mem st ent)) true)
                      (LIST_INSERT_HEAD lv b ent st))).
  { apply ttimer_start_Ok. split; [lia |]. split; [done |]. split; [done |].
    exists lv, b, rem. split; [| done].
    by rewrite (start_place_hands _ h0 h1 h2), Ep. }
  eexists. split; [exact Hst |].
  split; [by eapply ttimer_start_wheel_ok |].
  exists h0, h1, h2, lv, b, rem.
  split; [rewrite <- Hh; exact (hands_insert st lv b ent) |].
  split; [| done]. split.
  - intros l b'. rewrite linked_set_ref, linked_insert by done.
    split; [| tauto]. intros [(_ & ? & ?) | Hl]; [done |].
    destruct Hok as (_ & _ & _ & _ & _ & _ & Hsch).
    assert (scheduled (mem st ent) = true) by (apply Hsch; eauto). congruence.
  - simpl. by rewrite fn_lookup_insert.
Qed.

(** An entry that is due in [d] ticks: the ticks return, and the handler
    is called on the [d]-th of them and on none before. *)
Lemma due_fires st ent d :
  wheel_ok st -> due st ent d -> 1 <= d ->
  exists fuel0 st2 quiet_run evs,
    (forall fuel, (fuel0 <= fuel)%nat ->
       ticks fuel (Z.to_nat d) st = Ok (st2, quiet_run ++ [evs])) /\
    length quiet_run = Z.to_nat (d - 1) /\
    Forall (fun e => fire_count ent e = 0%nat) quiet_run /\
    fire_count ent evs = 1%nat /\ gone st2 ent.
Proof.
  intros Hok Hdue Hd.
  destruct (ticks_total (Z.to_nat d) st Hok) as (fuel0 & st2 & run & Hrun).
  destruct (Z.to_nat d) as [| k] eqn:Ek; [lia |].
  replace d with (Z.of_nat (S k)) in Hdue by lia.
  destruct (ticks_due ent fuel0 k st st2 run Hok Hdue (Hrun fuel0 ltac:(lia)))
    as (q & evs & -> & Hq & Hc & Hg).
  exists fuel0, st2, q, evs. split; [done |]. split; [| done].
  pose proof (ticks_length _ _ _ _ _ (Hrun fuel0 ltac:(lia))) as Hlen.
  rewrite length_app in Hlen. simpl in Hlen. lia.
Qed.

(** Exact expiry beyond the span of the wheel.  With three levels, a
    timeout may exceed 256^3 and still be exact: what is needed is that
    the time shown by the hands plus the timeout is below
    256^3 + 2 * 256^2, and below 256^3 + 256^2 if the hand of the last
    level is at 0.  This is the case of the repository's test
    ttimer_overflow: hands 17, 0, 1 and a timeout of 256^3 + 19. *)
Theorem timer_fires_beyond_span (st : state) (ent : ref_id) (timeout h0 h1 h2 : Z) :
  wheel_ok st -> hand <$> wheel (tm st) = [h0; h1; h2] ->
  scheduled (mem st ent) = false -> func (mem st ent) <> None ->
  1 <= timeout ->
  h0 + 256 * h1 + 65536 * h2 + timeout < 16777216 + 131072 ->
  (h2 = 0 -> h0 + 256 * h1 + 65536 * h2 + timeout < 16777216 + 65536) ->
  exists st1 fuel0 st2 quiet_run evs,
    ttimer_start st ent timeout = Ok st1 /\
    (forall fuel, (fuel0 <= fuel)%nat ->
       ticks fuel (Z.to_nat timeout) st1 = Ok (st2, quiet_run ++ [evs])) /\
    length quiet_run = Z.to_nat (timeout - 1) /\
    Forall (fun e => fire_count ent e = 0%nat) quiet_run /\
    fire_count ent evs = 1%nat /\ gone st2 ent.
Proof.
  intros Hok Hh Hfree Hf Ht Hsum Hz.
  destruct (ttimer_start_due_wide st ent timeout h0 h1 h2 Hok Hh Hfree Hf Ht Hsum Hz)
    as (st1 & Hst & Hok1 & Hdue).
  destruct (due_fires st1 ent timeout Hok1 Hdue Ht)
    as (fuel0 & st2 & q & evs & H).
  by exists st1, fuel0, st2, q, evs.
Qed.

Lemma wheel_ok_with_hands h0 h1 h2 :
  0 <= h0 < 256 -> 0 <= h1 < 256 -> 0 <= h2 < 256 ->
  wheel_ok (with_hands [h0; h1; h2] fresh_wheel).
Proof.
  intros B0 B1 B2.
  assert (Hlk : forall e l n,
             linked (with_hands [h0; h1; h2] fresh_wheel) e l n -> False).
  { intros e l n (w & Hw & Hin).
    destruct l as [| [| [| l]]]; simpl in Hw; try done;
      injection Hw as <-; by apply elem_of_nil in Hin. }
  split; [done |]. split; [unfold WHEEL_MAX_LEVELS; simpl; lia |]. split.
  - intros level w Hw. unfold WHEEL_BUCKETS.
    destruct level as [| [| [| level]]]; simpl in Hw; try done;
      injection Hw as <-; simpl; lia.
  - split; [| split; [| split]].
    + intros e l n H'. by destruct (Hlk _ _ _ H').
    + intros level w n Hw.
      destruct level as [| [| [| level]]]; simpl in Hw; try done;
        injection Hw as <-; apply NoDup_nil_2.
    + intros e l n l' n' H'. by destruct (Hlk _ _ _ H').
    + intros e. split; [done |]. intros (l & n & H'). by destruct (Hlk _ _ _ H').
Qed.

Lemma timer_fires_beyond_span_witness :
  let st := with_hands [17; 0; 1] fresh_wheel in
  let timeout := 16777216 + 19 in
  exists st1 fuel0 st2 quiet_run evs,
    ttimer_start st 0%nat timeout = Ok st1 /\
    (forall fuel, (fuel0 <= fuel)%nat ->
       ticks fuel (Z.to_nat timeout) st1 = Ok (st2, quiet_run ++ [evs])) /\
    length quiet_run = Z.to_nat (timeout - 1) /\
    Forall (fun e => fire_count 0%nat e = 0%nat) quiet_run /\
    fire_count 0%nat evs = 1%nat /\ gone st2 0%nat.
Proof.
  apply (timer_fires_beyond_span (with_hands [17; 0; 1] fresh_wheel) 0%nat
           (16777216 + 19) 17 0 1);
    [apply wheel_ok_with_hands; lia | reflexivity | reflexivity | discriminate
    | lia | lia | lia].
Defined.

(** ** Re-scheduling and calling in one tick, within the span *)

Lemma place3_in_span h0 h1 h2 t lv r new :
  0 <= h0 < 256 -> 0 <= h1 < 256 -> 0 <= h2 < 256 -> 0 < t <= 16777216 ->
  place3 h0 h1 h2 t = (lv, r, new) ->
  (lv <= 2)%nat /\ 0 <= new < 16777216.
Proof.
  intros H0 H1 H2 Ht. unfold place3. cbn zeta.
  remember (h0 + t) as s0 eqn:S0.
  pose proof (mod256_bound s0) as B0. pose proof (divmod256 s0) as D0.
  destruct (Z.ltb_spec 0 (s0 / 256)) as [Q0 | Q0];
    [| intros [= <- <- <-]; lia].
  remember (h1 + s0 / 256) as s1 eqn:S1.
  pose proof (mod256_bound s1) as B1. pose proof (divmod256 s1) as D1.
  destruct (Z.ltb_spec 0 (s1 / 256)) as [Q1 | Q1];
    [| intros [= <- <- <-]; lia].
  remember (h2 + s1 / 256) as s2 eqn:S2.
  pose proof (mod256_bound s2) as B2. pose proof (divmod256 s2) as D2.
  destruct (Z.ltb_spec 0 (s2 / 256)) as [Q2 | Q2];
    intros [= <- <- <-]; (split; [lia |]); lia.
Qed.

Lemma place3_requeue h2 old lv r new :
  0 <= h2 < 256 -> 0 < old < 16777216 ->
  place3 0 0 h2 old = (lv, r, new) ->
  (old < 65536 -> (lv < 2)%nat) /\
  (lv = 2%nat -> r = (h2 + 1) mod 256 -> 0 <= new < 65536).
Proof.
  intros H2 Ho. unfold place3. cbn zeta. rewrite !Z.add_0_l.
  pose proof (mod256_bound old) as B0. pose proof (divmod256 old) as D0.
  destruct (Z.ltb_spec 0 (old / 256)) as [Q0 | Q0];
    [| intros [= <- <- <-]; split; [lia | discriminate]].
  pose proof (mod256_bound (old / 256)) as B1.
  pose proof (divmod256 (old / 256)) as D1.
  destruct (Z.ltb_spec 0 (old / 256 / 256)) as [Q1 | Q1];
    [| intros [= <- <- <-]; split; [lia | discriminate]].
  remember (h2 + old / 256 / 256) as s2 eqn:S2.
  pose proof (mod256_bound s2) as B2. pose proof (divmod256 s2) as D2.
  assert (Hne : (h2 + 1) mod 256 = if Z.eq_dec h2 255 then 0 else h2 + 1).
  { destruct (Z.eq_dec h2 255) as [-> | ?]; [done |]. apply Z.mod_small. lia. }
  destruct (Z.ltb_spec 0 (s2 / 256)) as [Q2 | Q2];
    intros [= <- <- <-]; (split; [lia |]); intros _ Hr; rewrite Hne in Hr;
    destruct (Z.eq_dec h2 255); lia.
Qed.

Lemma fires_clean_app t evs evs' :
  fires_clean t evs -> fires_clean (taints evs t) evs' ->
  fires_clean t (evs ++ evs').
Proof.
  revert t. induction evs as [| ev evs IH]; intros t H H'; simpl in *; [done |].
  destruct H as [H1 H2]. split; [done |]. by apply IH.
Qed.

Lemma fires_clean_app_inv t evs evs' :
  fires_clean t (evs ++ evs') -> fires_clean (taints evs t) evs'.
Proof.
  revert t. induction evs as [| ev evs IH]; intros t H; simpl in *; [done |].
  destruct H as [_ H]. by apply IH.
Qed.

Lemma taint_keeps ev t (ent : ref_id) : t ent = true -> taint ev t ent = true.
Proof.
  intros H. destruct ev as [| cl cn e old lv r new |]; simpl; try done.
  destruct (bool_decide _); [done |].
  destruct (decide (e = ent)) as [-> | Hne];
    [by rewrite fn_lookup_insert | by rewrite fn_lookup_insert_ne].
Qed.

Lemma taints_keeps evs t (ent : ref_id) : t ent = true -> taints evs t ent = true.
Proof.
  revert t. induction evs as [| ev evs IH]; intros t H; simpl; [done |].
  apply IH. by apply taint_keeps.
Qed.

Lemma taints_app evs evs' t : taints (evs ++ evs') t = taints evs' (taints evs t).
Proof. unfold taints. by rewrite fold_left_app. Qed.

(** The property in terms of positions in the list of events. *)
Lemma fires_clean_between t pre mid post cl cn ent old lv r new fn a :
  fires_clean t (pre ++ EvRequeue cl cn ent old lv r new :: mid
                     ++ EvFire ent fn a :: post) ->
  lv = cl /\ r = cn /\ new = 0.
Proof.
  intros H. apply fires_clean_app_inv in H. simpl in H. destruct H as [_ H].
  apply fires_clean_app_inv in H. simpl in H. destruct H as [H _].
  destruct (bool_decide_reflect (lv = cl /\ r = cn /\ new = 0)) as [? | _]; [done |].
  rewrite taints_keeps in H; [done |]. by rewrite fn_lookup_insert.
Qed.

Lemma hand_at_hands level st st' w' :
  hand <$> wheel (tm st') = hand <$> wheel (tm st) ->
  wheel (tm st') !! level = Some w' ->
  exists w, wheel (tm st) !! level = Some w /\ hand w = hand w'.
Proof.
  intros Hh Hw'.
  assert (E : (hand <$> wheel (tm st')) !! level = Some (hand w'))
    by (by rewrite list_lookup_fmap, Hw').
  rewrite Hh, list_lookup_fmap in E.
  destruct (wheel (tm st) !! level) as [w |]; [| done].
  injection E as E. by exists w.
Qed.

Lemma drain_step_clean level n ent st st' ev t :
  wheel_ok st -> rem_in_span st -> lower_hands_zero level st ->
  (forall w, wheel (tm st) !! level = Some w -> n = (hand w + 1) mod 256) ->
  linked st ent level n ->
  taint_ok level n t st ->
  drain_step level n ent st = Ok (st', ev) ->
  fires_clean t [ev] /\ taint_ok level n (taint ev t) st' /\ rem_in_span st'.
Proof.
  intros Hok Hspan Hz Hn Hl Ht H.
  pose proof Hok as (Hlen & Hlv & Hh & Hlk & _ & Huniq & _).
  pose proof (fun e l b (Hne : e <> ent) =>
                linked_after_drain_step _ _ _ _ _ _ e l b Hne H) as Hother.
  assert (Hrest : forall e, e <> ent -> t e = true ->
      exists lv r, linked st' e lv r /\
        ((lv < level)%nat \/ (lv = level /\ r <> n) \/
         (lv = level /\ r = n /\ 0 < remaining (mem st' e) < 65536))).
  { intros e Hne Ee. destruct (Ht e Ee) as (lv & r & Hl' & Hc).
    destruct (Hother e lv r Hne) as [Hlk' Hm]. rewrite Hm.
    exists lv, r. split; [by apply Hlk' | done]. }
  assert (Hrest' : forall e n', e <> ent -> linked st' e 2 n' ->
      remaining (mem st' e) < 16777216).
  { intros e n' Hne Hl'. destruct (Hother e 2%nat n' Hne) as [Hlk' Hm].
    rewrite Hm. apply (Hspan e n'). by apply Hlk'. }
  assert (Hcur : t ent = true -> 0 < remaining (mem st ent) < 65536).
  { intros Ee. destruct (Ht ent Ee) as (lv & r & Hl' & Hc).
    destruct (Huniq _ _ _ _ _ Hl Hl') as [<- <-].
    destruct Hc as [? | [[_ ?] | (_ & _ & ?)]]; [lia | done | done]. }
  pose proof H as H'. apply drain_step_Ok in H' as (_ & H').
  destruct H' as [(Hz0 & fn & _ & Est & ->) | (Hnz & lv & r & new & Hpl & Hst & ->)].
  - assert (Hent : t ent = false).
    { destruct (t ent) eqn:Ee; [| done]. specialize (Hcur eq_refl). lia. }
    split; [by split |]. split.
    + intros e Ee. simpl in Ee.
      destruct (decide (e = ent)) as [-> | Hne]; [congruence | by apply Hrest].
    + intros e n' Hl'. destruct (decide (e = ent)) as [-> | Hne]; [| by eapply Hrest'].
      rewrite Est in Hl'. apply linked_set_ref, linked_remove in Hl' as [? _]. done.
  - split; [done |].
    apply ttimer_start_Ok in Hst as (Hpos & _ & _ & lv' & r' & rem & Hpl' & Hlv' & Est).
    rewrite Hpl in Hpl'. injection Hpl' as <- <- <-.
    assert (Hlent : forall l b, linked st' ent l b <-> l = lv /\ b = r).
    { intros l b. rewrite Est, linked_set_ref, linked_insert by done.
      rewrite linked_set_ref, linked_remove. split; [| tauto].
      intros [(_ & ? & ?) | [? _]]; done. }
    assert (Hrem : remaining (mem st' ent) = new).
    { rewrite Est. simpl. by rewrite fn_lookup_insert. }
    assert (F : ((lv < level)%nat \/ (lv = level /\ r <> n) \/
                 (lv = level /\ r = n /\ 0 <= new < 65536)) /\
                (lv = 2%nat -> new < 16777216) /\
                (t ent = true -> (lv < level)%nat)).
    { destruct (Hlk _ _ _ Hl) as [_ Hr].
      destruct level as [| [| level]]; simpl in Hr; [lia | |].
      - destruct Hl as (w & Hw & _).
        assert (is_Some (wheel (tm st) !! 0%nat)) as [w0 Hw0].
        { apply lookup_lt_is_Some. apply lookup_lt_Some in Hw. lia. }
        assert (hand w0 = 0) as H0 by (apply (Hz 0%nat); [lia | done]).
        rewrite (start_place_level0 _ _ (unlink_wheel ent w0)) in Hpl.
        + injection Hpl as <- _ _. split; [left; lia |]. split; [done | lia].
        + simpl. by rewrite list_lookup_fmap, Hw0.
        + simpl. unfold WHEEL_BUCKETS in *. lia.
      - assert (Hl2 : level = 0%nat).
        { destruct Hl as (w & Hw & _). apply lookup_lt_Some in Hw.
          unfold WHEEL_MAX_LEVELS in *. lia. }
        subst level.
        assert (Hl3 : levels (tm st) = 3%nat).
        { destruct Hl as (w & Hw & _). apply lookup_lt_Some in Hw.
          unfold WHEEL_MAX_LEVELS in *. lia. }
        destruct (three_hands st Hok Hl3) as (h0 & h1 & h2 & Hhs).
        destruct (hands_bounds _ _ _ _ Hok Hhs) as (_ & B0 & B1 & B2).
        pose proof Hhs as Hhs'.
        apply hands3 in Hhs' as (w0 & w1 & w2 & Ew & E0 & E1 & E2).
        assert (h0 = 0) as ->.
        { rewrite <- E0. apply (Hz 0%nat); [lia | by rewrite Ew]. }
        assert (h1 = 0) as ->.
        { rewrite <- E1. apply (Hz 1%nat); [lia | by rewrite Ew]. }
        assert (En : n = (h2 + 1) mod 256).
        { rewrite <- E2. apply Hn. by rewrite Ew. }
        rewrite (start_place_hands _ 0 0 h2) in Hpl
          by (cbn [tm set_ref]; by rewrite hands_remove).
        injection Hpl as Hpl.
        pose proof (Hspan ent n Hl) as Hlt.
        destruct (place3_in_span 0 0 h2 (remaining (mem st ent)) lv r new
                    ltac:(lia) ltac:(lia) B2 ltac:(lia) Hpl) as [Hle Hnew].
        destruct (place3_requeue h2 (remaining (mem st ent)) lv r new B2
                    ltac:(lia) Hpl) as [Hlow Hsame].
        split; [| split; [lia |]].
        + destruct (decide (lv = 2%nat)) as [E | E]; [| left; lia].
          destruct (decide (r = n)) as [Er | Er]; [| by right; left].
          right; right. split; [done |]. split; [done |].
          apply Hsame; [done | congruence].
        + intros Ee. apply Hlow. specialize (Hcur Ee). lia. }
    destruct F as (Fc & Fs & Ft).
    split.
    + intros e Ee. simpl in Ee.
      destruct (bool_decide_reflect (lv = level /\ r = n /\ new = 0))
        as [(El & Er & En) | Hno].
      * destruct (decide (e = ent)) as [-> | Hne]; [| by apply Hrest].
        specialize (Ft Ee). lia.
      * destruct (decide (e = ent)) as [-> | Hne];
          [| rewrite fn_lookup_insert_ne in Ee by done; by apply Hrest].
        exists lv, r. split; [by apply Hlent |]. rewrite Hrem.
        destruct Fc as [? | [? | (? & ? & ?)]]; [by left | by right; left |].
        right; right. split; [done |]. split; [done |].
        assert (new <> 0) by (intros ->; by apply Hno). lia.
    + intros e n' Hl'. destruct (decide (e = ent)) as [-> | Hne]; [| by eapply Hrest'].
      apply Hlent in Hl' as [<- _]. rewrite Hrem. by apply Fs.
Qed.

Lemma drain_clean level n fuel st st' evs t :
  wheel_ok st -> rem_in_span st -> lower_hands_zero level st ->
  (forall w, wheel (tm st) !! level = Some w -> n = (hand w + 1) mod 256) ->
  taint_ok level n t st ->
  drain fuel level n st = Ok (st', evs) ->
  fires_clean t evs /\ taint_ok level n (taints evs t) st' /\ rem_in_span st' /\
  wheel_ok st' /\ hand <$> wheel (tm st') = hand <$> wheel (tm st).
Proof.
  revert st t evs.
  induction fuel as [| fuel IH]; intros st t evs Hok Hspan Hz Hn Ht; simpl;
    destruct (wheel (tm st) !! level) as [w |] eqn:Ew; try done;
    destruct (bucket_get w n) as [| ent l] eqn:Eb; try done;
    try (by intros [= <- <-]).
  destruct (drain_step level n ent st) as [[st1 ev] |] eqn:Es; simpl; [| done].
  destruct (drain fuel level n st1) as [[st2 evs'] |] eqn:Ed; simpl; [| done].
  intros [= <- <-].
  assert (Hl : linked st ent level n).
  { exists w. rewrite Eb. split; [done | by left]. }
  assert (Hn' : forall w', wheel (tm st) !! level = Some w' ->
                           n = (hand w' + 1) mod 256).
  { intros w' Hw'. apply Hn. congruence. }
  destruct (drain_step_clean _ _ _ _ _ _ _ Hok Hspan Hz Hn' Hl Ht Es)
    as ([Hf _] & Ht1 & Hspan1).
  pose proof (drain_step_hands _ _ _ _ _ _ Es) as Hh.
  destruct (IH st1 (taint ev t) evs') as (Hf' & Ht2 & Hspan2 & Hok2 & Hh2); try done.
  - by eapply drain_step_wheel_ok.
  - by eapply lower_hands_zero_hands.
  - intros w' Hw'. destruct (hand_at_hands _ _ _ _ Hh Hw') as (w0 & Hw0 & <-).
    by apply Hn'.
  - split; [by split |]. split; [done |]. split; [done |]. split; [done |].
    by rewrite Hh2.
Qed.

Lemma tick_level_clean fuel level st w st1 evs1 t :
  wheel_ok st -> rem_in_span st -> lower_hands_zero level st ->
  (forall ent, t ent = true -> exists lv r, linked st ent lv r /\ (lv < level)%nat) ->
  wheel (tm st) !! level = Some w ->
  drain fuel level (MOD_BY_BUCKETS (u32 (hand w + 1))) st = Ok (st1, evs1) ->
  let n := MOD_BY_BUCKETS (u32 (hand w + 1)) in
  fires_clean t evs1 /\
  rem_in_span (set_hand level n st1) /\ wheel_ok (set_hand level n st1) /\
  (n = 0 ->
   lower_hands_zero (S level) (set_hand level n st1) /\
   forall ent, taints evs1 t ent = true ->
     exists lv r, linked (set_hand level n st1) ent lv r /\ (lv < S level)%nat).
Proof.
  intros Hok Hspan Hz Ht Ew Ed n.
  assert (Hw : 0 <= hand w < 256).
  { destruct Hok as (_ & _ & Hh & _). apply (Hh level w Ew). }
  assert (En : n = (hand w + 1) mod 256) by (by apply MOD_u32_succ).
  destruct (drain_clean level n fuel st st1 evs1 t Hok Hspan Hz) as
      (Hf1 & Ht1 & Hspan1 & Hok1 & Hh1).
  - intros w0 Hw0. rewrite Ew in Hw0. by injection Hw0 as <-.
  - intros e Ee. destruct (Ht e Ee) as (lv & r & ? & ?). exists lv, r. auto.
  - exact Ed.
  - split; [done |]. split.
    { intros e n' Hl'%linked_set_hand. by eapply Hspan1. }
    split; [by apply wheel_ok_set_hand |].
    intros E0. rewrite E0. split.
    + apply lower_hands_zero_next. by eapply lower_hands_zero_hands.
    + intros e Ee. destruct (Ht1 e Ee) as (lv & r & Hl & Hc).
      exists lv, r. split; [by apply linked_set_hand | lia].
Qed.

Lemma tick_from_clean k fuel level st st' evs t :
  wheel_ok st -> rem_in_span st -> lower_hands_zero level st ->
  (forall ent, t ent = true -> exists lv r, linked st ent lv r /\ (lv < level)%nat) ->
  tick_from k fuel level st = Ok (st', evs) ->
  fires_clean t evs /\ rem_in_span st'.
Proof.
  revert level st st' evs t.
  induction k as [| k IH]; intros level st st' evs t Hok Hspan Hz Ht; simpl;
    destruct (wheel (tm st) !! level) as [w |] eqn:Ew; try done;
    destruct (drain fuel level _ st) as [[st1 evs1] |] eqn:Ed; simpl; try done;
    destruct (tick_level_clean _ _ _ _ _ _ t Hok Hspan Hz Ht Ew Ed)
      as (Hf1 & Hspan2 & Hok2 & Hnext);
    destruct (_ =? 0) eqn:En; simpl;
    try (intros [= <- <-]; split; [by split | done]);
    destruct (_ <? _)%nat; try (intros [= <- <-]; split; [by split | done]);
    try done.
  destruct (tick_from k fuel (S level) _) as [[st3 evs3] |] eqn:Et; simpl; [| done].
  intros [= <- <-].
  apply Z.eqb_eq in En. destruct (Hnext En) as [Hz2 Ht2].
  destruct (IH (S level) _ _ _ (taints evs1 t) Hok2 Hspan2 Hz2 Ht2 Et)
    as [Hf3 Hspan3].
  split; [| done]. split; [done |]. by apply fires_clean_app.
Qed.

(** Within the span.  If the remaining times on the last level are below
    256^3, which is so as long as no timeout above 256^3 is started, then a
    handler that is called in a tick after a re-scheduling of its reference
    in the same tick follows one re-scheduling only: into the bucket being
    drained, with no time remaining. *)
Lemma requeued_not_called_in_span (fuel : nat) (st st' : state) (evs : list event) :
  wheel_ok st -> rem_in_span st ->
  ttimer_tick fuel st = Ok (st', evs) ->
  rem_in_span st' /\
  forall pre mid post cl cn ent old lv r new fn a,
    evs = pre ++ EvRequeue cl cn ent old lv r new :: mid
              ++ EvFire ent fn a :: post ->
    lv = cl /\ r = cn /\ new = 0.
Proof.
  intros Hok Hspan Ht.
  assert (Hz : lower_hands_zero 0 st) by (intros l w Hl; lia).
  unfold ttimer_tick in Ht.
  destruct (tick_from_clean _ _ _ _ _ _ (fun _ => false) Hok Hspan Hz
              ltac:(done) Ht) as [Hf Hs].
  split; [done |].
  intros pre mid post cl cn ent old lv r new fn a ->.
  by eapply fires_clean_between.
Qed.

Lemma rem_in_span_create (t : ttimer_t) (m : store) maxtimeout now :
  ttimer_create true maxtimeout now = Some t -> rem_in_span (mk_state t m).
Proof.
  intros [= <-] e n (w & Hw & Hin). simpl in Hw.
  apply lookup_replicate in Hw as [-> _].
  unfold bucket_get in Hin. simpl in Hin. rewrite lookup_empty in Hin.
  by apply elem_of_nil in Hin.
Qed.

Lemma ttimer_start_rem_in_span st ent timeout st' :
  wheel_ok st -> rem_in_span st -> timeout <= 16777216 ->
  ttimer_start st ent timeout = Ok st' -> rem_in_span st'.
Proof.
  intros Hok Hspan Hle Hst.
  pose proof Hok as (_ & _ & _ & _ & _ & _ & Hsch).
  apply ttimer_start_Ok in Hst as (Ht & Hfree & _ & lv & r & rem & Hpl & Hlv & ->).
  intros e n. rewrite linked_set_ref, linked_insert by done. simpl.
  intros [(-> & <- & ->) | Hl].
  - rewrite fn_lookup_insert. simpl.
    assert (Hl3 : levels (tm st) = 3%nat).
    { destruct Hlv as [w Hw]. apply lookup_lt_Some in Hw.
      destruct Hok as (Hlen & Hb & _). unfold WHEEL_MAX_LEVELS in *. lia. }
    destruct (three_hands st Hok Hl3) as (h0 & h1 & h2 & Hhs).
    destruct (hands_bounds _ _ _ _ Hok Hhs) as (_ & B0 & B1 & B2).
    rewrite (start_place_hands _ h0 h1 h2) in Hpl by done. injection Hpl as Hpl.
    destruct (place3_in_span h0 h1 h2 timeout 2%nat r rem B0 B1 B2
                ltac:(lia) Hpl) as [_ ?].
    lia.
  - destruct (decide (e = ent)) as [-> | Hne].
    + assert (scheduled (mem st ent) = true) by (apply Hsch; eauto). congruence.
    + rewrite fn_lookup_insert_ne by done. by eapply Hspan.
Qed.

Lemma ttimer_stop_rem_in_span st ent :
  rem_in_span st -> rem_in_span (ttimer_stop st ent).2.
Proof.
  intros Hspan. unfold ttimer_stop.
  destruct (scheduled (mem st ent)); simpl; [| done].
  intros e n [Hne Hl]%linked_set_ref%linked_remove. simpl.
  rewrite fn_lookup_insert_ne by done. by eapply Hspan.
Qed.
